(** * Product Discovery Agent: filtered vector retrieval and its JSON-RPC surface

    A shallow embedding of
    - [p_discovery_agent/mcp_server_http.py] (module [McpServer]),
    - [gcp_simulation/main.py] (module [GcpFunction]),
    - [etl/ingest.py] (module [Ingest]),
    together with the part of the Python runtime these programs rely on
    (module [Py]): JSON values, truthiness, [str()], binary64 arithmetic and
    the [.1f] format. *)

From Stdlib Require Import ZArith List String Ascii Bool Lia.
From Stdlib Require Import DecimalString.
From Stdlib Require Import Floats.SpecFloat.
Import ListNotations.

Local Open Scope string_scope.
Local Open Scope Z_scope.

(** ** The Python runtime *)
Module Py.

(** Python's [float] is IEEE 754 binary64: 53 bits of precision, largest
    exponent 1024, rounding to nearest with ties to even. *)
Definition prec : Z := 53.
Definition emax : Z := 1024.

Definition float := spec_float.

Definition fadd : float -> float -> float := SFadd prec emax.
Definition fmul : float -> float -> float := SFmul prec emax.
Definition fdiv : float -> float -> float := SFdiv prec emax.
Definition fleb : float -> float -> bool := SFleb.
Definition fltb : float -> float -> bool := SFltb.

(** A float built by the runtime is always in canonical form. *)
Definition valid (x : float) : bool := valid_binary prec emax x.

(** [float(z)] for an integer [z]. *)
Definition of_Z (z : Z) : float := binary_normalize prec emax z 0 false.

(** [num / den] for [den > 0] and [num], [den] below [2^53] in magnitude,
    correctly rounded: how a decimal literal such as [49.99] is read. *)
Definition of_ratio (num : Z) (den : positive) : float :=
  match num with
  | Z0 => S754_zero false
  | Zpos n => fdiv (of_Z (Zpos n)) (of_Z (Zpos den))
  | Zneg n => fdiv (of_Z (Zneg n)) (of_Z (Zpos den))
  end.

Definition is_zero (x : float) : bool :=
  match x with S754_zero _ => true | _ => false end.

Definition sign_bit (x : float) : bool :=
  match x with
  | S754_zero s | S754_infinity s | S754_finite s _ _ => s
  | S754_nan => false
  end.

(** *** Decimal rendering of integers *)

Definition str_of_Z (z : Z) : string := NilZero.string_of_int (Z.to_int z).

Fixpoint repeat_string (n : nat) (s : string) : string :=
  match n with
  | O => ""
  | S n' => s ++ repeat_string n' s
  end.

(** [str.join] *)
Fixpoint join (sep : string) (parts : list string) : string :=
  match parts with
  | [] => ""
  | [p] => p
  | p :: rest => p ++ sep ++ join sep rest
  end.

(** *** [format(x, ".1f")]

    The exact binary value is rounded to one decimal place, ties to even. *)

(** round-half-to-even of [num / den], [den > 0], [num >= 0] *)
Definition round_half_even (num den : Z) : Z :=
  let q := num / den in
  let r := num mod den in
  match 2 * r ?= den with
  | Lt => q
  | Gt => q + 1
  | Eq => if Z.even q then q else q + 1
  end.

(** The magnitude of a finite float times ten, rounded to an integer. *)
Definition tenths (m : positive) (e : Z) : Z :=
  match e with
  | Zneg p => round_half_even (10 * Zpos m) (2 ^ Zpos p)
  | _ => 10 * Zpos m * 2 ^ e
  end.

Definition render_tenths (neg : bool) (t : Z) : string :=
  (if neg then "-" else "") ++ str_of_Z (t / 10) ++ "." ++ str_of_Z (t mod 10).

Definition format_1f (x : float) : string :=
  match x with
  | S754_nan => "nan"
  | S754_infinity s => if s then "-inf" else "inf"
  | S754_zero s => render_tenths s 0
  | S754_finite s m e => render_tenths s (tenths m e)
  end.

(** *** [repr(x)] for a float: the shortest decimal that reads back as [x]

    A finite float [m * 2^e] is the only float in an interval around it, whose
    ends are half way to its neighbours and belong to the interval when [m] is
    even.  [repr] gives the decimal with the fewest significant digits that
    lies in the interval, and the nearest to [x] among those.  Everything is
    counted in units of [2^(e-2)]: [x] is [4m] units. *)

(** compare [n * 10^q] with [a * 2^E] *)
Definition cmp_dec_bin (n q a E : Z) : comparison :=
  (n * 10 ^ Z.max q 0 * 2 ^ Z.max (- E) 0 ?= a * 2 ^ Z.max E 0 * 10 ^ Z.max (- q) 0).

(** the least [d >= from] with [m * 2^e < 10^d] *)
Fixpoint find_decpt (fuel : nat) (from : Z) (m : positive) (e : Z) : Z :=
  match fuel with
  | O => from
  | S fuel' =>
      match cmp_dec_bin 1 from (Zpos m) e with
      | Gt => from
      | _ => find_decpt fuel' (from + 1) m e
      end
  end.

(** [m * 2^e >= 2^(digits m + e - 1)] and [0.30102 < log10 2 < 0.30103]
    give a starting point just below. *)
Definition decpt_of (m : positive) (e : Z) : Z :=
  let l := Zpos (digits2_pos m) + e - 1 in
  find_decpt 8 ((if l <? 0 then l * 30103 else l * 30102) / 100000 - 1) m e.

(** is [n * 10^q] read back as [m * 2^e]? *)
Definition reads_back (m : positive) (e : Z) (n q : Z) : bool :=
  let lo := if (Zpos m =? 2 ^ (prec - 1)) && (3 - emax - prec <? e)
            then 4 * Zpos m - 1 else 4 * Zpos m - 2 in
  let hi := 4 * Zpos m + 2 in
  let closed := Z.even (Zpos m) in
  match cmp_dec_bin n q lo (e - 2), cmp_dec_bin n q hi (e - 2) with
  | Gt, Lt => true
  | Eq, Lt | Gt, Eq => closed
  | _, _ => false
  end.

(** the candidate with [k] significant digits, if one reads back *)
Definition candidate (m : positive) (e : Z) (decpt k : Z) : option (Z * Z) :=
  let q := decpt - k in
  let E := e - 2 in
  let n := (4 * Zpos m * 2 ^ Z.max E 0 * 10 ^ Z.max (- q) 0)
           / (2 ^ Z.max (- E) 0 * 10 ^ Z.max q 0) in
  match reads_back m e n q, reads_back m e (n + 1) q with
  | true, false => Some (n, q)
  | false, true => Some (n + 1, q)
  | true, true =>
      match cmp_dec_bin (2 * n + 1) q (8 * Zpos m) E with
      | Lt => Some (n + 1, q)
      | _ => Some (n, q)
      end
  | false, false => None
  end.

Fixpoint shortest (fuel : nat) (m : positive) (e : Z) (decpt k : Z) : Z * Z :=
  match fuel with
  | O => (Zpos m, 0)
  | S fuel' =>
      match candidate m e decpt k with
      | Some nq => nq
      | None => shortest fuel' m e decpt (k + 1)
      end
  end.

Fixpoint strip_zeros (s : string) : string :=
  match s with
  | EmptyString => EmptyString
  | String c r =>
      let r' := strip_zeros r in
      if (r' =? "")%string && Ascii.eqb c "0" then "" else String c r'
  end.

Definition Zlen (s : string) : Z := Z.of_nat (String.length s).

(** The digits and the position of the decimal point, laid out as
    [float.__repr__] does: fixed notation when [-4 < decpt <= 16], exponent
    notation otherwise. *)
Definition layout_repr (digits : string) (decpt : Z) : string :=
  let nd := Zlen digits in
  if (decpt <=? -4) || (16 <? decpt) then
    let ex := decpt - 1 in
    let mant :=
      match digits with
      | String c EmptyString => digits
      | String c r => String c ("." ++ r)
      | EmptyString => digits
      end in
    let exs := str_of_Z (Z.abs ex) in
    mant ++ "e" ++ (if ex <? 0 then "-" else "+")
         ++ (if Zlen exs <? 2 then "0" ++ exs else exs)
  else if decpt <=? 0 then
    "0." ++ repeat_string (Z.to_nat (- decpt)) "0" ++ digits
  else if nd <=? decpt then
    digits ++ repeat_string (Z.to_nat (decpt - nd)) "0" ++ ".0"
  else
    substring 0 (Z.to_nat decpt) digits ++ "."
      ++ substring (Z.to_nat decpt) (Z.to_nat (nd - decpt)) digits.

Definition float_repr (x : float) : string :=
  match x with
  | S754_nan => "nan"
  | S754_infinity s => if s then "-inf" else "inf"
  | S754_zero s => if s then "-0.0" else "0.0"
  | S754_finite s m e =>
      let '(n, q) := shortest 17 m e (decpt_of m e) 1 in
      let ds := str_of_Z n in
      (if s then "-" else "") ++ layout_repr (strip_zeros ds) (q + Zlen ds)
  end.

(** *** Values

    What [json.loads] produces and [json.dumps] accepts.  A [str] is held as
    its UTF-8 bytes; a [dict] as its items in insertion order. *)
#[warnings="-register-all"]
Inductive pyval :=
  | PNone
  | PBool (b : bool)
  | PInt (z : Z)
  | PFloat (f : float)
  | PStr (s : string)
  | PList (l : list pyval)
  | PDict (d : list (string * pyval)).

Definition dict := list (string * pyval).

Fixpoint lookup (k : string) (d : dict) : option pyval :=
  match d with
  | [] => None
  | (k', v) :: rest => if (k =? k')%string then Some v else lookup k rest
  end.

(** [d.get(k, default)] on a dict *)
Definition dict_get (d : dict) (k : string) (default : pyval) : pyval :=
  match lookup k d with
  | Some v => v
  | None => default
  end.

(** [bool(v)] *)
Definition truthy (v : pyval) : bool :=
  match v with
  | PNone => false
  | PBool b => b
  | PInt z => negb (z =? 0)
  | PFloat f => negb (is_zero f)
  | PStr s => negb (s =? "")%string
  | PList l => match l with [] => false | _ => true end
  | PDict d => match d with [] => false | _ => true end
  end.

Definition is_none (v : pyval) : bool :=
  match v with PNone => true | _ => false end.

(** [v == s] for a string literal [s] *)
Definition eq_str (v : pyval) (s : string) : bool :=
  match v with PStr s' => (s' =? s)%string | _ => false end.

Definition type_name (v : pyval) : string :=
  match v with
  | PNone => "NoneType"
  | PBool _ => "bool"
  | PInt _ => "int"
  | PFloat _ => "float"
  | PStr _ => "str"
  | PList _ => "list"
  | PDict _ => "dict"
  end.

(** *** [repr] and [str] *)

Definition dquote : string := String (ascii_of_nat 34) "".
Definition squote : string := String (ascii_of_nat 39) "".
Definition backslash : string := String (ascii_of_nat 92) "".
Definition newline : string := String (ascii_of_nat 10) "".

Definition hex_digit (n : Z) : string :=
  substring (Z.to_nat n) 1 "0123456789abcdef".

Definition hex2 (n : Z) : string := hex_digit (n / 16) ++ hex_digit (n mod 16).
Definition hex4 (n : Z) : string := hex2 (n / 256) ++ hex2 (n mod 256).

Definition byte_of (c : ascii) : Z := Z.of_nat (nat_of_ascii c).

Fixpoint contains_byte (b : Z) (s : string) : bool :=
  match s with
  | EmptyString => false
  | String c r => (byte_of c =? b) || contains_byte b r
  end.

Fixpoint str_repr_body (quote : Z) (s : string) : string :=
  match s with
  | EmptyString => ""
  | String c r =>
      let b := byte_of c in
      (if (b =? quote) || (b =? 92) then backslash ++ String c ""
       else if b =? 9 then backslash ++ "t"
       else if b =? 10 then backslash ++ "n"
       else if b =? 13 then backslash ++ "r"
       else if (b <? 32) || (b =? 127) then backslash ++ "x" ++ hex2 b
       else String c "")
      ++ str_repr_body quote r
  end.

(** [repr(s)]: single quotes unless the text has a single quote and no double
    one.  Bytes above 127 (the UTF-8 of other characters) are kept, as [repr]
    keeps every printable character. *)
Definition str_repr (s : string) : string :=
  if contains_byte 39 s && negb (contains_byte 34 s)
  then dquote ++ str_repr_body 34 s ++ dquote
  else squote ++ str_repr_body 39 s ++ squote.

Fixpoint repr (v : pyval) : string :=
  match v with
  | PNone => "None"
  | PBool b => if b then "True" else "False"
  | PInt z => str_of_Z z
  | PFloat f => float_repr f
  | PStr s => str_repr s
  | PList l => "[" ++ join ", " (map repr l) ++ "]"
  | PDict d =>
      "{" ++ join ", " (map (fun kv => str_repr (fst kv) ++ ": " ++ repr (snd kv)) d) ++ "}"
  end.

(** [str(v)], which is what an f-string field [{v}] interpolates *)
Definition str (v : pyval) : string :=
  match v with
  | PStr s => s
  | _ => repr v
  end.

(** *** [json.dumps(v, indent=2)] *)

(** the code points of a UTF-8 text *)
Fixpoint code_points (s : string) : list Z :=
  match s with
  | EmptyString => []
  | String c0 r0 =>
      let b0 := byte_of c0 in
      if b0 <? 192 then b0 :: code_points r0
      else
        match r0 with
        | EmptyString => [b0]
        | String c1 r1 =>
            let b1 := byte_of c1 - 128 in
            if b0 <? 224 then ((b0 - 192) * 64 + b1) :: code_points r1
            else
              match r1 with
              | EmptyString => [b0]
              | String c2 r2 =>
                  let b2 := byte_of c2 - 128 in
                  if b0 <? 240 then ((b0 - 224) * 4096 + b1 * 64 + b2) :: code_points r2
                  else
                    match r2 with
                    | EmptyString => [b0]
                    | String c3 r3 =>
                        ((b0 - 240) * 262144 + b1 * 4096 + b2 * 64 + (byte_of c3 - 128))
                          :: code_points r3
                    end
              end
        end
  end.

(** [ensure_ascii] escaping of one code point *)
Definition json_escape (cp : Z) : string :=
  if cp =? 34 then backslash ++ dquote
  else if cp =? 92 then backslash ++ backslash
  else if cp =? 10 then backslash ++ "n"
  else if cp =? 13 then backslash ++ "r"
  else if cp =? 9 then backslash ++ "t"
  else if cp =? 8 then backslash ++ "b"
  else if cp =? 12 then backslash ++ "f"
  else if (32 <=? cp) && (cp <=? 126) then String (ascii_of_nat (Z.to_nat cp)) ""
  else if cp <? 65536 then backslash ++ "u" ++ hex4 cp
  else
    let v := cp - 65536 in
    backslash ++ "u" ++ hex4 (55296 + v / 1024)
      ++ backslash ++ "u" ++ hex4 (56320 + v mod 1024).

Definition json_string (s : string) : string :=
  dquote ++ concat "" (map json_escape (code_points s)) ++ dquote.

Definition json_float (f : float) : string :=
  match f with
  | S754_nan => "NaN"
  | S754_infinity s => if s then "-Infinity" else "Infinity"
  | _ => float_repr f
  end.

Fixpoint dumps_at (level : nat) (v : pyval) : string :=
  let inner := newline ++ repeat_string (S level) "  " in
  let outer := newline ++ repeat_string level "  " in
  match v with
  | PNone => "null"
  | PBool b => if b then "true" else "false"
  | PInt z => str_of_Z z
  | PFloat f => json_float f
  | PStr s => json_string s
  | PList [] => "[]"
  | PList l => "[" ++ inner ++ join ("," ++ inner) (map (dumps_at (S level)) l) ++ outer ++ "]"
  | PDict [] => "{}"
  | PDict d =>
      "{" ++ inner
        ++ join ("," ++ inner)
             (map (fun kv => json_string (fst kv) ++ ": " ++ dumps_at (S level) (snd kv)) d)
        ++ outer ++ "}"
  end.

Definition json_dumps_indent2 (v : pyval) : string := dumps_at 0 v.

(** *** Exceptions *)

Inductive exn_class :=
  | Exception
  | TypeError
  | KeyError
  | AttributeError
  | ZeroDivisionError
  | ExternalError (name : string).

(** an exception object; [exn_msg] is [str(e)] *)
Record exn := Raise { exn_cls : exn_class; exn_msg : string }.

(** The outcome of running a piece of code: a value, or an exception on its
    way up. *)
Inductive result (A : Type) :=
  | Ok (a : A)
  | Raised (e : exn).
Arguments Ok {A} a.
Arguments Raised {A} e.

Definition bind {A B : Type} (r : result A) (k : A -> result B) : result B :=
  match r with
  | Ok a => k a
  | Raised e => Raised e
  end.

(** a list comprehension whose element expression may raise *)
Fixpoint comprehension {A B : Type} (f : A -> result B) (l : list A) : result (list B) :=
  match l with
  | [] => Ok []
  | a :: rest =>
      bind (f a) (fun b => bind (comprehension f rest) (fun bs => Ok (b :: bs)))
  end.

(** [v.get(k, default)]: only a dict has the method *)
Definition method_get (v : pyval) (k : string) (default : pyval) : result pyval :=
  match v with
  | PDict d => Ok (dict_get d k default)
  | _ => Raised (Raise AttributeError
                   (squote ++ type_name v ++ "' object has no attribute 'get'"))
  end.

(** [v[k]] for a string [k] *)
Definition getitem (v : pyval) (k : string) : result pyval :=
  match v with
  | PDict d =>
      match lookup k d with
      | Some x => Ok x
      | None => Raised (Raise KeyError (str_repr k))
      end
  | PList _ => Raised (Raise TypeError "list indices must be integers or slices, not str")
  | PStr _ => Raised (Raise TypeError "string indices must be integers, not 'str'")
  | _ => Raised (Raise TypeError (squote ++ type_name v ++ "' object is not subscriptable"))
  end.

End Py.

Import Py.

(** ** The external collaborators, as the servers use them *)

(** [SentenceTransformer]: [encode(text, convert_to_tensor=False).tolist()] *)
Record SentenceTransformer := {
  encode : pyval -> result (list float)
}.

(** one hit of a similarity search *)
Record Hit := {
  distance : float;
  entity : dict
}.

(** the keyword arguments of [collection.search] *)
Record SearchRequest := {
  data : list (list float);
  anns_field : string;
  param : pyval;
  limit : pyval;
  expr : string;
  output_fields : list string
}.

(** a loaded [pymilvus.Collection]: one list of hits per query vector *)
Record Collection := {
  search : SearchRequest -> result (list (list Hit))
}.

(** ** The query path shared by the two servers

    [mcp_server_http.py] and [gcp_simulation/main.py] carry the same text for
    the filter construction and for the relevance score. *)

(** [filter_parts] after the four [if]s *)
Definition filter_parts (max_price category in_stock_only brand : pyval) : list string :=
  (if negb (is_none max_price) then ["price <= " ++ str max_price] else [])
  ++ (if truthy category then ["category == " ++ dquote ++ str category ++ dquote] else [])
  ++ (if truthy in_stock_only then ["in_stock == true"] else [])
  ++ (if truthy brand then ["brand == " ++ dquote ++ str brand ++ dquote] else []).

(** [" && ".join(filter_parts) if filter_parts else ""] *)
Definition filter_expr (parts : list string) : string :=
  match parts with
  | [] => ""
  | _ => join " && " parts
  end.

Definition one : float := of_Z 1.
Definition hundred : float := of_Z 100.

(** [f"{(1 / (1 + hit.distance)) * 100:.1f}%"]; the division raises on a zero
    divisor. *)
Definition relevance (d : float) : result string :=
  let s := fadd one d in
  if is_zero s then Raised (Raise ZeroDivisionError "float division by zero")
  else Ok (format_1f (fmul (fdiv one s) hundred) ++ "%").

Definition L2_nprobe_10 : pyval :=
  PDict [("metric_type", PStr "L2"); ("params", PDict [("nprobe", PInt 10)])].

Definition TOP_K_DEFAULT : Z := 5.

(** ** [p_discovery_agent/mcp_server_http.py] *)
Module McpServer.

(** the module's globals after start-up *)
Record Globals := {
  embedding_model : option SentenceTransformer;
  MILVUS_READY : bool;
  collection : option Collection
}.

Definition generate_embedding (g : Globals) (text : pyval) : result (list float) :=
  match embedding_model g with
  | None => Raised (Raise Exception "Modello embedding non caricato")
  | Some model => encode model text
  end.

Definition search_request (query_embedding : list float) (top_k : pyval)
    (expression : string) : SearchRequest :=
  {| data := [query_embedding];
     anns_field := "embedding";
     param := L2_nprobe_10;
     limit := top_k;
     expr := expression;
     output_fields := ["product_id"; "name"; "category"; "description"; "price";
                       "in_stock"; "brand"] |}.

(** the dict appended for one hit *)
Definition product_of_hit (hit : Hit) : result pyval :=
  bind (relevance (distance hit)) (fun rel =>
  Ok (PDict [("product_id", dict_get (entity hit) "product_id" PNone);
             ("name", dict_get (entity hit) "name" PNone);
             ("category", dict_get (entity hit) "category" PNone);
             ("description", dict_get (entity hit) "description" PNone);
             ("price", dict_get (entity hit) "price" PNone);
             ("in_stock", dict_get (entity hit) "in_stock" PNone);
             ("brand", dict_get (entity hit) "brand" PNone);
             ("relevance", PStr rel)])).

(** the two nested [for] loops and the returned dict *)
Definition shape_results (query : pyval) (results : list (list Hit)) : result pyval :=
  bind (comprehension product_of_hit (List.concat results)) (fun products =>
  Ok (PDict [("query", query);
             ("total_results", PInt (Z.of_nat (List.length products)));
             ("products", PList products)])).

Definition search_products_logic (g : Globals)
    (query top_k max_price category in_stock_only brand : pyval) : result pyval :=
  if negb (MILVUS_READY g) then
    Ok (PDict [("error", PStr "Milvus non connesso"); ("query_received", query)])
  else
    bind (generate_embedding g query) (fun query_embedding =>
    let expression := filter_expr (filter_parts max_price category in_stock_only brand) in
    match collection g with
    | None => Raised (Raise AttributeError "'NoneType' object has no attribute 'search'")
    | Some c =>
        bind (search c (search_request query_embedding top_k expression))
             (shape_results query)
    end).

(** *** The call of [search_products_logic] with the keyword arguments
    unpacked from [args] *)

Definition parameters : list string :=
  ["query"; "top_k"; "max_price"; "category"; "in_stock_only"; "brand"].

Definition unexpected_keyword (d : dict) : option string :=
  match filter (fun kv => negb (existsb (String.eqb (fst kv)) parameters)) d with
  | [] => None
  | (k, _) :: _ => Some k
  end.

Definition call_search_products_logic (g : Globals) (args : pyval) : result pyval :=
  match args with
  | PDict d =>
      match unexpected_keyword d with
      | Some k =>
          Raised (Raise TypeError
                    ("search_products_logic() got an unexpected keyword argument '"
                       ++ k ++ "'"))
      | None =>
          match lookup "query" d with
          | None =>
              Raised (Raise TypeError
                        "search_products_logic() missing 1 required positional argument: 'query'")
          | Some query =>
              search_products_logic g query
                (dict_get d "top_k" (PInt TOP_K_DEFAULT))
                (dict_get d "max_price" PNone)
                (dict_get d "category" PNone)
                (dict_get d "in_stock_only" (PBool false))
                (dict_get d "brand" PNone)
          end
      end
  | _ =>
      Raised (Raise TypeError
                ("search_products_logic() argument after ** must be a mapping, not "
                   ++ type_name args))
  end.

(** *** The protocol dispatcher *)

(** a [fastapi.Request]: what awaiting [request.json()] gives *)
Record Request := {
  json : result pyval
}.

(** how a call of the endpoint ends *)
Inductive Outcome :=
  | Return (body : pyval)                            (* 200, the dict as JSON *)
  | HTTPException (status_code : Z) (detail : string)
  | Unhandled (e : exn).                              (* left to the framework *)

Definition response (jsonrpc_id : pyval) (key : string) (v : pyval) : pyval :=
  PDict [("jsonrpc", PStr "2.0"); ("id", jsonrpc_id); (key, v)].

Definition error_object (code : Z) (message : string) : pyval :=
  PDict [("code", PInt code); ("message", PStr message)].

Definition initialize_result : pyval :=
  PDict [("protocolVersion", PStr "2024-11-05");
         ("capabilities", PDict [("tools", PDict [])]);
         ("serverInfo", PDict [("name", PStr "ecommerce-mcp"); ("version", PStr "1.0.0")])].

Definition tools_list_result : pyval :=
  PDict [("tools", PList [PDict [
    ("name", PStr "search_products");
    ("description", PStr "Semantic search for e-commerce products. Understands natural language queries (e.g., 'waterproof running shoes under 100 euros') and returns ranked results with relevance scores. Supports optional filtering by price, category, brand, and stock availability. Use this tool when customers want to find, search, browse, or get recommendations for products.");
    ("inputSchema", PDict [
      ("type", PStr "object");
      ("properties", PDict [
        ("query", PDict [
          ("type", PStr "string");
          ("description", PStr "Natural language description of the desired product")]);
        ("top_k", PDict [
          ("type", PStr "integer");
          ("description", PStr "Maximum number of results to return (1-20)");
          ("default", PInt 5)]);
        ("max_price", PDict [
          ("type", PStr "number");
          ("description", PStr "Maximum price in EUR (optional filter)")]);
        ("category", PDict [
          ("type", PStr "string");
          ("description", PStr "Product category to filter by");
          ("enum", PList [PStr "Footwear"; PStr "Clothing"; PStr "Electronics";
                          PStr "Accessories"; PStr "Outdoor"])]);
        ("in_stock_only", PDict [
          ("type", PStr "boolean");
          ("description", PStr "If true, return only products currently in stock");
          ("default", PBool false)]);
        ("brand", PDict [
          ("type", PStr "string");
          ("description", PStr "Brand name to filter by (e.g., 'ActiveGear')")])]);
      ("required", PList [PStr "query"])])]])].

Definition tools_call (g : Globals) (jsonrpc_id params : pyval) : Outcome :=
  match method_get params "arguments" (PDict []) with
  | Raised e => Unhandled e
  | Ok args =>
      match call_search_products_logic g args with
      | Ok result =>
          Return (response jsonrpc_id "result"
                    (PDict [("content",
                             PList [PDict [("type", PStr "text");
                                           ("text", PStr (json_dumps_indent2 result))]])]))
      | Raised e =>
          Return (response jsonrpc_id "error" (error_object (-32000) (exn_msg e)))
      end
  end.

Definition dispatch (g : Globals) (jsonrpc_id method params : pyval) : Outcome :=
  if eq_str method "initialize" then
    Return (response jsonrpc_id "result" initialize_result)
  else if eq_str method "notifications/initialized" then
    Return (response jsonrpc_id "result" (PBool true))
  else if eq_str method "tools/list" then
    Return (response jsonrpc_id "result" tools_list_result)
  else if eq_str method "tools/call" then
    tools_call g jsonrpc_id params
  else if eq_str method "ping" then
    Return (response jsonrpc_id "result" (PDict []))
  else
    Return (response jsonrpc_id "error" (error_object (-32601) "Method not found")).

Definition handle_mcp (g : Globals) (request : Request) : Outcome :=
  match json request with
  | Raised _ => HTTPException 400 "Invalid JSON"
  | Ok payload =>
      match method_get payload "id" PNone with
      | Raised e => Unhandled e
      | Ok jsonrpc_id =>
          match method_get payload "method" PNone with
          | Raised e => Unhandled e
          | Ok method =>
              match method_get payload "params" (PDict []) with
              | Raised e => Unhandled e
              | Ok params => dispatch g jsonrpc_id method params
              end
          end
      end
  end.

End McpServer.

(** ** [gcp_simulation/main.py] *)
Module GcpFunction.

Record Globals := {
  embedding_model : option SentenceTransformer;
  MILVUS_READY : bool;
  collection : option Collection
}.

Definition search_request (query_embedding : list float) (top_k : pyval)
    (expression : string) : SearchRequest :=
  {| data := [query_embedding];
     anns_field := "embedding";
     param := L2_nprobe_10;
     limit := top_k;
     expr := expression;
     output_fields := ["product_id"; "name"; "category"; "description"; "price";
                       "in_stock"] |}.

Definition product_of_hit (hit : Hit) : result pyval :=
  bind (relevance (distance hit)) (fun score_pct =>
  Ok (PDict [("product_id", dict_get (entity hit) "product_id" PNone);
             ("name", dict_get (entity hit) "name" PNone);
             ("category", dict_get (entity hit) "category" PNone);
             ("description", dict_get (entity hit) "description" PNone);
             ("price", dict_get (entity hit) "price" PNone);
             ("in_stock", dict_get (entity hit) "in_stock" PNone);
             ("relevance", PStr score_pct)])).

Definition shape_results (query max_price category : pyval)
    (results : list (list Hit)) : result pyval :=
  bind (comprehension product_of_hit (List.concat results)) (fun products =>
  Ok (PDict [("query", query);
             ("total_results", PInt (Z.of_nat (List.length products)));
             ("products", PList products);
             ("filters_applied",
              PDict [("max_price", max_price); ("category", category)])])).

Definition unavailable : pyval :=
  PDict [("error", PStr "Servizio non disponibile (DB o Modello offline)");
         ("details", PStr "Verifica la connessione a Milvus.")].

Definition search_products_logic (g : Globals)
    (query top_k max_price category in_stock_only brand : pyval) : result pyval :=
  match MILVUS_READY g, embedding_model g with
  | true, Some model =>
      bind (encode model query) (fun query_embedding =>
      let expression := filter_expr (filter_parts max_price category in_stock_only brand) in
      match collection g with
      | None => Raised (Raise AttributeError "'NoneType' object has no attribute 'search'")
      | Some c =>
          bind (search c (search_request query_embedding top_k expression))
               (shape_results query max_price category)
      end)
  | _, _ => Ok unavailable
  end.

End GcpFunction.

(** ** [etl/ingest.py] *)
Module Ingest.

Definition COLLECTION_NAME : string := "products".
Definition EMBEDDING_DIM : Z := 384.

Inductive DataType := INT64 | FLOAT_VECTOR | VARCHAR | FLOAT | BOOL.

Record FieldSchema := {
  name : string;
  dtype : DataType;
  is_primary : bool;
  dim : option Z;
  max_length : option Z
}.

Definition scalar (n : string) (t : DataType) : FieldSchema :=
  {| name := n; dtype := t; is_primary := false; dim := None; max_length := None |}.

Definition varchar (n : string) (len : Z) : FieldSchema :=
  {| name := n; dtype := VARCHAR; is_primary := false; dim := None; max_length := Some len |}.

Definition fields : list FieldSchema :=
  [ {| name := "product_id"; dtype := INT64; is_primary := true;
       dim := None; max_length := None |};
    {| name := "embedding"; dtype := FLOAT_VECTOR; is_primary := false;
       dim := Some EMBEDDING_DIM; max_length := None |};
    varchar "name" 256;
    varchar "description" 2000;
    varchar "category" 100;
    scalar "price" FLOAT;
    scalar "in_stock" BOOL;
    varchar "brand" 100 ].

Definition index_params : pyval :=
  PDict [("metric_type", PStr "L2"); ("index_type", PStr "IVF_FLAT");
         ("params", PDict [("nlist", PInt 128)])].

(** a collection on the server; [inserted] holds the column data of every
    accepted [insert], oldest first *)
Record CollectionState := {
  schema : list FieldSchema;
  index : option (string * pyval);
  inserted : list (list (list pyval));
  flushed : bool;
  loaded : bool
}.

(** The Milvus server and the connection to it.  [accepts] is the server's own
    check of the data of an [insert] against the schema. *)
Record Milvus := {
  reachable : bool;
  connected : bool;
  accepts : list FieldSchema -> list (list pyval) -> bool;
  collections : list (string * CollectionState)
}.

Definition with_connected (b : bool) (w : Milvus) : Milvus :=
  {| reachable := reachable w; connected := b; accepts := accepts w;
     collections := collections w |}.

Definition with_collections (cs : list (string * CollectionState)) (w : Milvus) : Milvus :=
  {| reachable := reachable w; connected := connected w; accepts := accepts w;
     collections := cs |}.

(** a command: it runs on the server state and returns or raises *)
Definition Cmd (A : Type) : Type := Milvus -> Milvus * result A.

Definition ret {A : Type} (a : A) : Cmd A := fun w => (w, Ok a).
Definition raise {A : Type} (e : exn) : Cmd A := fun w => (w, Raised e).
Definition lift {A : Type} (r : result A) : Cmd A := fun w => (w, r).

Definition seq {A B : Type} (c : Cmd A) (k : A -> Cmd B) : Cmd B :=
  fun w =>
    match c w with
    | (w', Ok a) => k a w'
    | (w', Raised e) => (w', Raised e)
    end.

Notation "x <- c ;; k" := (seq c (fun x => k))
  (at level 61, c at next level, right associativity).
Notation "c ;;; k" := (seq c (fun _ => k))
  (at level 61, right associativity).

Fixpoint find_collection (n : string) (cs : list (string * CollectionState))
    : option CollectionState :=
  match cs with
  | [] => None
  | (n', c) :: rest => if (n =? n')%string then Some c else find_collection n rest
  end.

Fixpoint remove_collection (n : string) (cs : list (string * CollectionState))
    : list (string * CollectionState) :=
  match cs with
  | [] => []
  | (n', c) :: rest =>
      if (n =? n')%string then remove_collection n rest
      else (n', c) :: remove_collection n rest
  end.

Definition put_collection (n : string) (c : CollectionState)
    (cs : list (string * CollectionState)) : list (string * CollectionState) :=
  (n, c) :: remove_collection n cs.

Definition not_found {A : Type} : Cmd A :=
  raise (Raise (ExternalError "MilvusException") "collection not found").

(** run [f] on the named collection *)
Definition update (n : string) (f : CollectionState -> CollectionState) : Cmd unit :=
  fun w =>
    match find_collection n (collections w) with
    | None => not_found w
    | Some c => (with_collections (put_collection n (f c) (collections w)) w, Ok tt)
    end.

Definition connections_connect : Cmd unit :=
  fun w =>
    if reachable w then (with_connected true w, Ok tt)
    else (w, Raised (Raise (ExternalError "MilvusException") "Fail connecting to server"))  .

Definition connections_disconnect : Cmd unit :=
  fun w => (with_connected false w, Ok tt).

Definition has_collection (n : string) : Cmd bool :=
  fun w =>
    (w, Ok (match find_collection n (collections w) with Some _ => true | None => false end)).

Definition drop_collection (n : string) : Cmd unit :=
  fun w => (with_collections (remove_collection n (collections w)) w, Ok tt).

(** [Collection(name=n, schema=s)] creates the collection when there is none *)
Definition new_collection (n : string) (s : list FieldSchema) : Cmd unit :=
  fun w =>
    match find_collection n (collections w) with
    | Some _ => (w, Ok tt)
    | None =>
        (with_collections
           (put_collection n
              {| schema := s; index := None; inserted := []; flushed := false;
                 loaded := false |}
              (collections w)) w,
         Ok tt)
    end.

Definition create_index (n field_name : string) (params : pyval) : Cmd unit :=
  update n (fun c =>
    {| schema := schema c; index := Some (field_name, params); inserted := inserted c;
       flushed := flushed c; loaded := loaded c |}).

(** [collection.insert(data)]: all of [data] or nothing *)
Definition collection_insert (n : string) (data : list (list pyval)) : Cmd unit :=
  fun w =>
    match find_collection n (collections w) with
    | None => not_found w
    | Some c =>
        if accepts w (schema c) data then
          update n (fun c =>
            {| schema := schema c; index := index c; inserted := inserted c ++ [data];
               flushed := false; loaded := loaded c |}) w
        else (w, Raised (Raise (ExternalError "DataNotMatchException")
                           "the data does not match the schema"))
    end.

Definition collection_flush (n : string) : Cmd unit :=
  update n (fun c =>
    {| schema := schema c; index := index c; inserted := inserted c;
       flushed := true; loaded := loaded c |}).

Definition collection_load (n : string) : Cmd unit :=
  update n (fun c =>
    {| schema := schema c; index := index c; inserted := inserted c;
       flushed := flushed c; loaded := true |}).

(** *** The pipeline *)

Definition connect_to_milvus : Cmd unit := connections_connect.

Definition create_collection : Cmd unit :=
  exists_ <- has_collection COLLECTION_NAME ;;
  (if exists_ : bool then drop_collection COLLECTION_NAME else ret tt) ;;;
  new_collection COLLECTION_NAME fields ;;;
  create_index COLLECTION_NAME "embedding" index_params.

(** [model.encode(texts, show_progress_bar=True).tolist()] *)
Record Model := {
  encode_all : list pyval -> result (list (list float))
}.

Definition generate_embeddings (texts : list pyval) (model : Model)
    : result (list (list float)) :=
  encode_all model texts.

(** the eight columns, built in this order *)
Definition columns (products : list pyval) (embeddings : list (list float))
    : result (list (list pyval)) :=
  bind (comprehension (fun p => getitem p "product_id") products) (fun ids =>
  bind (comprehension (fun p => getitem p "name") products) (fun names =>
  bind (comprehension (fun p => getitem p "description") products) (fun descriptions =>
  bind (comprehension (fun p => getitem p "category") products) (fun categories =>
  bind (comprehension (fun p => getitem p "price") products) (fun prices =>
  bind (comprehension (fun p => getitem p "in_stock") products) (fun stocks =>
  bind (comprehension (fun p => getitem p "brand") products) (fun brands =>
  Ok [ids; map (fun v => PList (map PFloat v)) embeddings; names; descriptions;
      categories; prices; stocks; brands]))))))).

Definition insert_products (products : list pyval) (embeddings : list (list float))
    : Cmd unit :=
  data <- lift (columns products embeddings) ;;
  collection_insert COLLECTION_NAME data ;;;
  collection_flush COLLECTION_NAME.

(** what the run finds outside Milvus: the outcome of reading
    [products.json] and of loading the embedding model *)
Record Environment := {
  load_products : result (list pyval);
  load_model : result Model
}.

Definition main (env : Environment) : Cmd unit :=
  connect_to_milvus ;;;
  create_collection ;;;
  products <- lift (load_products env) ;;
  model <- lift (load_model env) ;;
  descriptions <- lift (comprehension (fun p => getitem p "description") products) ;;
  embeddings <- lift (generate_embeddings descriptions model) ;;
  insert_products products embeddings ;;;
  collection_load COLLECTION_NAME ;;;
  connections_disconnect.

End Ingest.

(** ** The vocabulary of the specification *)

(** a JSON number *)
Inductive Number :=
  | Int (z : Z)
  | Float (f : float).

(** The request-scoped filter; [None] is an absent field. *)
Record SearchFilter := {
  max_price : option Number;
  category : option string;
  in_stock_only : option bool;
  brand : option string
}.

Definition number_value (n : Number) : pyval :=
  match n with
  | Int z => PInt z
  | Float f => PFloat f
  end.

(** the arguments [search_products_logic] receives for a filter; an absent
    field takes the default of its parameter *)
Definition max_price_arg (f : SearchFilter) : pyval :=
  match max_price f with Some n => number_value n | None => PNone end.
Definition category_arg (f : SearchFilter) : pyval :=
  match category f with Some s => PStr s | None => PNone end.
Definition in_stock_only_arg (f : SearchFilter) : pyval :=
  match in_stock_only f with Some b => PBool b | None => PBool false end.
Definition brand_arg (f : SearchFilter) : pyval :=
  match brand f with Some s => PStr s | None => PNone end.

(** the expression a filter is turned into *)
Definition built_expr (f : SearchFilter) : string :=
  filter_expr (filter_parts (max_price_arg f) (category_arg f)
                            (in_stock_only_arg f) (brand_arg f)).

(** the atomic constraints *)
Definition price_le (n : Number) : string := "price <= " ++ str (number_value n).
Definition category_eq (s : string) : string := "category == " ++ dquote ++ s ++ dquote.
Definition in_stock_true : string := "in_stock == true".
Definition brand_eq (s : string) : string := "brand == " ++ dquote ++ s ++ dquote.

(** the unconstrained predicate: an empty expression *)
Definition match_all : string := "".

Definition conjunction (atoms : list string) : string :=
  match atoms with
  | [] => match_all
  | _ => join " && " atoms
  end.

Definition when_present {A : Type} (o : option A) (atom : A -> string) : list string :=
  match o with
  | Some a => [atom a]
  | None => []
  end.

(** the constraints of the fields that are present, as the specification
    words it *)
Definition present_constraints (f : SearchFilter) : list string :=
  when_present (max_price f) price_le
  ++ when_present (category f) category_eq
  ++ (match in_stock_only f with Some true => [in_stock_true] | _ => [] end)
  ++ when_present (brand f) brand_eq.

Definition nonempty (o : option string) : option string :=
  match o with
  | Some s => if (s =? "")%string then None else Some s
  | None => None
  end.

(** the constraints the code emits: an empty category or brand counts as
    absent *)
Definition emitted_constraints (f : SearchFilter) : list string :=
  when_present (max_price f) price_le
  ++ when_present (nonempty (category f)) category_eq
  ++ (match in_stock_only f with Some true => [in_stock_true] | _ => [] end)
  ++ when_present (nonempty (brand f)) brand_eq.

Definition no_filter : SearchFilter :=
  {| max_price := None; category := None; in_stock_only := None; brand := None |}.

Definition with_category (c : option string) (f : SearchFilter) : SearchFilter :=
  {| max_price := max_price f; category := c; in_stock_only := in_stock_only f;
     brand := brand f |}.

Definition with_brand (b : option string) (f : SearchFilter) : SearchFilter :=
  {| max_price := max_price f; category := category f; in_stock_only := in_stock_only f;
     brand := b |}.

Definition with_max_price (p : option Number) (f : SearchFilter) : SearchFilter :=
  {| max_price := p; category := category f; in_stock_only := in_stock_only f;
     brand := brand f |}.

Definition zero : float := S754_zero false.

(** the request whose body parses to the object [payload] *)
Definition request_of (payload : dict) : McpServer.Request :=
  {| McpServer.json := Ok (PDict payload) |}.

Definition known_methods : list string :=
  ["initialize"; "notifications/initialized"; "tools/list"; "tools/call"; "ping"].

(** [args] gives no [query] keyword *)
Definition lacks_query (args : pyval) : Prop :=
  match args with
  | PDict d => lookup "query" d = None
  | _ => True
  end.

(** the expected envelope: an object with [id], [method] and [params] *)
Definition is_envelope (payload : pyval) : Prop :=
  match payload with
  | PDict d =>
      lookup "id" d <> None /\ lookup "method" d <> None /\ lookup "params" d <> None
  | _ => False
  end.

(** a 4xx transport status *)
Definition client_error (o : McpServer.Outcome) : Prop :=
  match o with
  | McpServer.HTTPException status _ => 400 <= status < 500
  | _ => False
  end.

(** *** Sample inputs *)

Definition footwear_filter : SearchFilter :=
  {| max_price := Some (Int 100); category := Some "Footwear";
     in_stock_only := Some true; brand := None |}.

Definition two_hits : Collection :=
  {| search := fun _ =>
       Ok [[ {| distance := zero; entity := [("product_id", PInt 1)] |};
             {| distance := one; entity := [("product_id", PInt 2)] |} ]] |}.

Definition constant_model : SentenceTransformer :=
  {| encode := fun _ => Ok [zero; one] |}.

Definition mcp_ready : McpServer.Globals :=
  {| McpServer.embedding_model := Some constant_model;
     McpServer.MILVUS_READY := true;
     McpServer.collection := Some two_hits |}.

Definition gcp_ready : GcpFunction.Globals :=
  {| GcpFunction.embedding_model := Some constant_model;
     GcpFunction.MILVUS_READY := true;
     GcpFunction.collection := Some two_hits |}.

(** the model failed to load, Milvus is up *)
Definition mcp_no_model : McpServer.Globals :=
  {| McpServer.embedding_model := None;
     McpServer.MILVUS_READY := true;
     McpServer.collection := Some two_hits |}.

Definition gcp_no_model : GcpFunction.Globals :=
  {| GcpFunction.embedding_model := None;
     GcpFunction.MILVUS_READY := true;
     GcpFunction.collection := Some two_hits |}.

(** Milvus is down, the model is loaded *)
Definition mcp_no_milvus : McpServer.Globals :=
  {| McpServer.embedding_model := Some constant_model;
     McpServer.MILVUS_READY := false;
     McpServer.collection := None |}.

Definition envelope (jsonrpc_id : pyval) (method : string) (params : pyval) : dict :=
  [("jsonrpc", PStr "2.0"); ("id", jsonrpc_id); ("method", PStr method);
   ("params", params)].

(** a member of a response object *)
Definition field (k : string) (body : pyval) : option pyval :=
  match body with
  | PDict d => lookup k d
  | _ => None
  end.

(** the structured payload of [mcp_server_http.py] when Milvus is not
    connected *)
Definition milvus_not_connected (query : pyval) : pyval :=
  PDict [("error", PStr "Milvus non connesso"); ("query_received", query)].

(** the index keeps to the requested count: one list of hits per query
    vector, none longer than [limit] *)
Definition honours_limit (c : Collection) : Prop :=
  forall (request : SearchRequest) (k : Z) (results : list (list Hit)),
    limit request = PInt k ->
    search c request = Ok results ->
    List.length results = List.length (data request)
    /\ Forall (fun hits => Z.of_nat (List.length hits) <= k) results.

(** an index that holds [hits], nearest first, and gives the first [k] of
    them whatever the query and the expression *)
Definition first_hits (hits : list Hit) : Collection :=
  {| search := fun request =>
       match limit request with
       | PInt k =>
           if 0 <? k
           then Ok (map (fun _ => firstn (Z.to_nat k) hits) (data request))
           else Raised (Raise (ExternalError "MilvusException") "invalid limit")
       | _ => Raised (Raise (ExternalError "MilvusException") "invalid limit")
       end |}.

Definition three_hits : list Hit :=
  [ {| distance := zero; entity := [("product_id", PInt 1)] |};
    {| distance := one; entity := [("product_id", PInt 2)] |};
    {| distance := hundred; entity := [("product_id", PInt 3)] |} ].

Definition mcp_first_hits : McpServer.Globals :=
  {| McpServer.embedding_model := Some constant_model;
     McpServer.MILVUS_READY := true;
     McpServer.collection := Some (first_hits three_hits) |}.

(** the fields a source record must have *)
Definition required_fields : list string :=
  ["product_id"; "name"; "description"; "category"; "price"; "in_stock"; "brand"].

(** a malformed source record: a required field is missing *)
Definition missing_field (p : pyval) : Prop :=
  exists f, In f required_fields /\ field f p = None.

(** the column data held by the [products] collection *)
Definition inserted_data (w : Ingest.Milvus) : list (list (list pyval)) :=
  match Ingest.find_collection Ingest.COLLECTION_NAME (Ingest.collections w) with
  | Some c => Ingest.inserted c
  | None => []
  end.

Definition sample_product (id : Z) (with_brand : bool) : pyval :=
  PDict ([("product_id", PInt id); ("name", PStr "Trail Runner");
          ("description", PStr "Waterproof running shoes");
          ("category", PStr "Footwear"); ("price", PFloat (of_ratio 8999 100));
          ("in_stock", PBool true)]
         ++ (if with_brand then [("brand", PStr "ActiveGear")] else [])).

Definition sample_environment (products : list pyval) : Ingest.Environment :=
  {| Ingest.load_products := Ok products;
     Ingest.load_model :=
       Ok {| Ingest.encode_all := fun texts => Ok (map (fun _ => [zero; one]) texts) |} |}.

(** a server that holds an earlier catalog *)
Definition sample_server : Ingest.Milvus :=
  {| Ingest.reachable := true;
     Ingest.connected := false;
     Ingest.accepts := fun _ _ => true;
     Ingest.collections :=
       [("products",
         {| Ingest.schema := Ingest.fields;
            Ingest.index := Some ("embedding", Ingest.index_params);
            Ingest.inserted := [[[PInt 9]; [PList [PFloat zero]]; [PStr "Old"]]];
            Ingest.flushed := true;
            Ingest.loaded := true |})] |}.

(** ** Binary64 values as integers

    The exponents met while an operation rounds its exact result are never
    below [unit_exp]; [nu x] is the magnitude of [x] counted in units of
    [2^unit_exp], and [top] is the first magnitude out of range, which stands
    for infinity. *)

Definition emin : Z := SpecFloat.emin prec emax.

Definition unit_exp : Z := 2 * emin.

Definition top : Z := 2 ^ (emax - unit_exp).

Definition nu (x : float) : Z :=
  match x with
  | S754_zero _ => 0
  | S754_finite _ m e => Zpos m * 2 ^ (e - unit_exp)
  | S754_infinity _ => top
  | S754_nan => 0
  end.

(** The rational [P / Q], in units of [2^unit_exp], rounded to a multiple of
    [2^emin] with at most [prec] significant bits, ties to even. *)
Definition nearest (P Q : Z) : Z :=
  let s := Z.max (Zdigits2 (P / Q) - prec) (emin - unit_exp) in
  round_half_even P (Q * 2 ^ s) * 2 ^ s.

(** a float that is not negative and not a NaN *)
Definition nonneg (x : float) : bool :=
  match x with
  | S754_zero _ => true
  | S754_finite s _ _ | S754_infinity s => negb s
  | S754_nan => false
  end.

(** [x] is the non-negative canonical float of magnitude [v] *)
Definition represents (x : float) (v : Z) : Prop :=
  valid x = true /\ nonneg x = true /\ nu x = v
  /\ match x with
     | S754_finite _ _ _ => 0 < v < top
     | S754_zero s => s = false
     | _ => True
     end.

(** the tenths of a percent shown for a float in [0, 100] *)
Definition tenths_of (x : float) : Z :=
  match x with
  | S754_finite _ m e => tenths m e
  | _ => 0
  end.

(** the magnitudes of [1.0] and [100.0], and of the largest finite float *)
Definition nu_one : Z := 2 ^ (- unit_exp).
Definition nu_hundred : Z := 100 * 2 ^ (- unit_exp).
Definition nu_max : Z := (2 ^ prec - 1) * 2 ^ (emax - prec - unit_exp).

(** the relevance of a distance of magnitude [v], as tenths of a percent:
    [1 + d], [1 / (1 + d)] and the product with [100] are each rounded to
    [prec] bits, and the result to one decimal place *)
Definition score_tenths (v : Z) : Z :=
  let a := nearest (nu_one + v) 1 in
  let b := nearest (nu_one * nu_one) a in
  let c := nearest (100 * b) 1 in
  round_half_even (10 * c) nu_one.

(** [mrs] is the quotient [N / D] cut to an integer, with the two bits that
    tell where the rest lies: [shr_r] when it is at least a half, [shr_s]
    when it is neither zero nor a half *)
Definition truncation (N D : Z) (mrs : shr_record) : Prop :=
  shr_m mrs = N / D
  /\ shr_r mrs = (D <=? 2 * (N mod D))
  /\ shr_s mrs = negb ((N mod D =? 0) || (2 * (N mod D) =? D)).

(** the second half of [binary_round_aux]: the rounded mantissa is brought
    back to [prec] bits and checked against the largest exponent *)
Definition renormalize (sx : bool) (m e : Z) : float :=
  let '(mrs, e') := shr_fexp prec emax m e loc_Exact in
  match shr_m mrs with
  | Z0 => S754_zero sx
  | Zpos p => if e' <=? emax - prec then S754_finite sx p e' else S754_infinity sx
  | Zneg _ => S754_nan
  end.


Definition minus_one : float := of_Z (-1).
Definition minus_half : float := of_ratio (-1) 2.
Definition infinity : float := S754_infinity false.

(** a distance just above [1.0] *)
Definition one_and_a_thousandth : float := of_ratio 1001 1000.

(** a float with the sign [sx] *)
Definition with_sign (sx : bool) (x : float) : float :=
  match x with
  | S754_zero _ => S754_zero sx
  | S754_infinity _ => S754_infinity sx
  | S754_finite _ m e => S754_finite sx m e
  | S754_nan => S754_nan
  end.

(** a distance the index can report: a canonical float, not negative *)
Definition proper_distance (hit : Hit) : Prop :=
  valid (distance hit) = true /\ nonneg (distance hit) = true.

(** ** Start-up: the module-level code of the two servers

    [mcp_server_http.py] and [gcp_simulation/main.py] build their globals with
    the same two [try] blocks. *)
Module Startup.

(** what the start-up code finds when it calls out *)
Record Services := {
  load_model : result SentenceTransformer;   (* SentenceTransformer(EMBEDDING_MODEL) *)
  connect : result unit;                     (* connections.connect(...) *)
  has_collection : result bool;              (* utility.has_collection(COLLECTION_NAME) *)
  open_collection : result Collection;       (* Collection(COLLECTION_NAME) *)
  load : result unit                         (* collection.load() *)
}.

(** [embedding_model] after the first [try] *)
Definition embedding_model (s : Services) : option SentenceTransformer :=
  match load_model s with
  | Ok model => Some model
  | Raised _ => None
  end.

(** [(MILVUS_READY, collection)] after the second [try]; an exception leaves
    both as they are at that point *)
Definition milvus (s : Services) : bool * option Collection :=
  match connect s with
  | Raised _ => (false, None)
  | Ok _ =>
      match has_collection s with
      | Raised _ => (false, None)
      | Ok false => (false, None)
      | Ok true =>
          match open_collection s with
          | Raised _ => (false, None)
          | Ok c =>
              match load s with
              | Raised _ => (false, Some c)
              | Ok _ => (true, Some c)
              end
          end
      end
  end.

Definition mcp_globals (s : Services) : McpServer.Globals :=
  {| McpServer.embedding_model := embedding_model s;
     McpServer.MILVUS_READY := fst (milvus s);
     McpServer.collection := snd (milvus s) |}.

Definition gcp_globals (s : Services) : GcpFunction.Globals :=
  {| GcpFunction.embedding_model := embedding_model s;
     GcpFunction.MILVUS_READY := fst (milvus s);
     GcpFunction.collection := snd (milvus s) |}.

End Startup.

(** ** The HTTP entry point of [gcp_simulation/main.py] *)
Module CloudFunction.

(** [json.dumps(v)] with the default separators *)
Fixpoint json_dumps (v : pyval) : string :=
  match v with
  | PNone => "null"
  | PBool b => if b then "true" else "false"
  | PInt z => str_of_Z z
  | PFloat f => json_float f
  | PStr s => json_string s
  | PList l => "[" ++ join ", " (map json_dumps l) ++ "]"
  | PDict d =>
      "{" ++ join ", " (map (fun kv => json_string (fst kv) ++ ": " ++ json_dumps (snd kv)) d)
        ++ "}"
  end.

(** [t in s] for two strings *)
Fixpoint contains_text (t s : string) : bool :=
  prefix t s
  || match s with
     | EmptyString => false
     | String _ rest => contains_text t rest
     end.

(** [k in v] for a string [k] *)
Definition contains (k : string) (v : pyval) : result bool :=
  match v with
  | PDict d => Ok (match lookup k d with Some _ => true | None => false end)
  | PList l => Ok (existsb (fun x => eq_str x k) l)
  | PStr s => Ok (contains_text k s)
  | _ => Raised (Raise TypeError
                   ("argument of type '" ++ type_name v ++ "' is not iterable"))
  end.

(** a [flask.Request]: its method and what [get_json(silent=True)] gives,
    [None] when the body is not JSON *)
Record Request := {
  method : string;
  get_json : pyval
}.

Definition Headers := list (string * string).

(** how a call ends: the returned triple, or an exception left to Flask *)
Inductive Outcome :=
  | Respond (body : string) (status : Z) (headers : Headers)
  | Propagates (e : exn).

Definition preflight_headers : Headers :=
  [("Access-Control-Allow-Origin", "*");
   ("Access-Control-Allow-Methods", "POST");
   ("Access-Control-Allow-Headers", "Content-Type");
   ("Access-Control-Max-Age", "3600")].

Definition success_headers : Headers :=
  [("Access-Control-Allow-Origin", "*"); ("Content-Type", "application/json")].

Definition error_headers : Headers := [("Content-Type", "application/json")].

Definition missing_query : Outcome :=
  Respond (json_dumps (PDict [("error", PStr "Parametro 'query' mancante nel JSON body")]))
          400 error_headers.

(** the call inside the [try]: the arguments are read left to right *)
Definition run_search (g : GcpFunction.Globals) (request_json : pyval) : result pyval :=
  bind (getitem request_json "query") (fun query =>
  bind (method_get request_json "top_k" (PInt 5)) (fun top_k =>
  bind (method_get request_json "max_price" PNone) (fun max_price =>
  bind (method_get request_json "category" PNone) (fun category =>
  bind (method_get request_json "in_stock_only" (PBool false)) (fun in_stock_only =>
  bind (method_get request_json "brand" PNone) (fun brand =>
  GcpFunction.search_products_logic g query top_k max_price category in_stock_only
    brand)))))).

Definition search_products_function (g : GcpFunction.Globals) (request : Request)
    : Outcome :=
  if (method request =? "OPTIONS")%string then Respond "" 204 preflight_headers
  else
    let request_json := get_json request in
    if negb (truthy request_json) then missing_query
    else
      match contains "query" request_json with
      | Raised e => Propagates e
      | Ok false => missing_query
      | Ok true =>
          match run_search g request_json with
          | Ok result => Respond (json_dumps result) 200 success_headers
          | Raised e =>
              Respond (json_dumps (PDict [("error", PStr (exn_msg e))])) 500 error_headers
          end
      end.

End CloudFunction.

(** ** More vocabulary for the properties below *)

Definition is_dict (v : pyval) : bool :=
  match v with PDict _ => true | _ => false end.

(** the dict [mcp_server_http.py] builds for a hit, given its relevance *)
Definition mcp_product (hit : Hit) (rel : string) : pyval :=
  PDict [("product_id", dict_get (entity hit) "product_id" PNone);
         ("name", dict_get (entity hit) "name" PNone);
         ("category", dict_get (entity hit) "category" PNone);
         ("description", dict_get (entity hit) "description" PNone);
         ("price", dict_get (entity hit) "price" PNone);
         ("in_stock", dict_get (entity hit) "in_stock" PNone);
         ("brand", dict_get (entity hit) "brand" PNone);
         ("relevance", PStr rel)].

(** a percentage with one decimal, from its tenths *)
Definition percent (t : Z) : string := render_tenths false t ++ "%".

(** hits in the order of their distances, nearest first *)
Fixpoint nearest_first (hits : list Hit) : Prop :=
  match hits with
  | [] => True
  | h :: rest =>
      match rest with
      | [] => True
      | h' :: _ => fleb (distance h) (distance h') = true
      end
      /\ nearest_first rest
  end.

(** integers that never increase along the list *)
Fixpoint descending (ts : list Z) : Prop :=
  match ts with
  | [] => True
  | t :: rest =>
      match rest with
      | [] => True
      | t' :: _ => t' <= t
      end
      /\ descending rest
  end.

(** a source record with every required field *)
Definition complete_record (p : pyval) : Prop :=
  forall f, In f required_fields -> field f p <> None.

(** the column of the field [f] over complete records *)
Definition column (f : string) (products : list pyval) : list pyval :=
  map (fun p => match field f p with Some v => v | None => PNone end) products.

(** the data of the insert for complete records *)
Definition catalog_columns (products : list pyval) (embeddings : list (list float))
    : list (list pyval) :=
  [column "product_id" products;
   map (fun v => PList (map PFloat v)) embeddings;
   column "name" products;
   column "description" products;
   column "category" products;
   column "price" products;
   column "in_stock" products;
   column "brand" products].

(** the [products] collection on the server *)
Definition products_collection (w : Ingest.Milvus) : option Ingest.CollectionState :=
  Ingest.find_collection Ingest.COLLECTION_NAME (Ingest.collections w).

(** *** More sample inputs *)

Definition sample_services : Startup.Services :=
  {| Startup.load_model := Ok constant_model;
     Startup.connect := Ok tt;
     Startup.has_collection := Ok true;
     Startup.open_collection := Ok two_hits;
     Startup.load := Ok tt |}.

Definition gcp_no_milvus : GcpFunction.Globals :=
  {| GcpFunction.embedding_model := Some constant_model;
     GcpFunction.MILVUS_READY := false;
     GcpFunction.collection := None |}.

Definition post (body : pyval) : CloudFunction.Request :=
  {| CloudFunction.method := "POST"; CloudFunction.get_json := body |}.

(** the collection as [create_collection] leaves it *)
Definition fresh_collection : Ingest.CollectionState :=
  {| Ingest.schema := Ingest.fields;
     Ingest.index := Some ("embedding", Ingest.index_params);
     Ingest.inserted := [];
     Ingest.flushed := false;
     Ingest.loaded := false |}.

(** the collection after a run that inserted [data] *)
Definition loaded_catalog (data : list (list pyval)) : Ingest.CollectionState :=
  {| Ingest.schema := Ingest.fields;
     Ingest.index := Some ("embedding", Ingest.index_params);
     Ingest.inserted := [data];
     Ingest.flushed := true;
     Ingest.loaded := true |}.

(** what the run computes outside Milvus, steps 3 to 6 up to the insert: the
    data handed to [collection.insert], or the first exception *)
Definition prepared_data (env : Ingest.Environment) : result (list (list pyval)) :=
  bind (Ingest.load_products env) (fun products =>
  bind (Ingest.load_model env) (fun model =>
  bind (comprehension (fun p => getitem p "description") products) (fun descriptions =>
  bind (Ingest.generate_embeddings descriptions model) (fun embeddings =>
  Ingest.columns products embeddings)))).

Definition rejected : exn :=
  Raise (ExternalError "DataNotMatchException") "the data does not match the schema".

Definition unreachable : exn :=
  Raise (ExternalError "MilvusException") "Fail connecting to server".

(** the server [w] with [c] as its [products] collection *)
Definition with_products (c : Ingest.CollectionState) (w : Ingest.Milvus) : Ingest.Milvus :=
  Ingest.with_collections
    (Ingest.put_collection Ingest.COLLECTION_NAME c (Ingest.collections w)) w.

(** a server that cannot be reached, holding an earlier catalog *)
Definition server_down : Ingest.Milvus :=
  {| Ingest.reachable := false;
     Ingest.connected := false;
     Ingest.accepts := Ingest.accepts sample_server;
     Ingest.collections := Ingest.collections sample_server |}.

(** a server that holds an earlier catalog and refuses every insert *)
Definition strict_server : Ingest.Milvus :=
  {| Ingest.reachable := true;
     Ingest.connected := false;
     Ingest.accepts := fun _ _ => false;
     Ingest.collections := Ingest.collections sample_server |}.

(** a server that holds a second collection beside the catalog *)
Definition shared_server : Ingest.Milvus :=
  {| Ingest.reachable := true;
     Ingest.connected := false;
     Ingest.accepts := fun _ _ => true;
     Ingest.collections :=
       ("orders",
        {| Ingest.schema := [Ingest.scalar "order_id" Ingest.INT64];
           Ingest.index := None;
           Ingest.inserted := [[[PInt 7]]];
           Ingest.flushed := true;
           Ingest.loaded := false |})
       :: Ingest.collections sample_server |}.

(** the [inputSchema] that [tools/list] advertises for [search_products] *)
Definition tool_input_schema : pyval :=
  match field "tools" McpServer.tools_list_result with
  | Some (PList [tool]) =>
      match field "inputSchema" tool with
      | Some s => s
      | None => PNone
      end
  | _ => PNone
  end.

Definition advertised_properties : list string :=
  match field "properties" tool_input_schema with
  | Some (PDict ps) => map fst ps
  | _ => []
  end.

Definition advertised_required : list pyval :=
  match field "required" tool_input_schema with
  | Some (PList l) => l
  | _ => []
  end.

(** the [default] advertised for a property, [None] when it has none *)
Definition advertised_default (k : string) : pyval :=
  match field "properties" tool_input_schema with
  | Some ps =>
      match field k ps with
      | Some p => match field "default" p with Some v => v | None => PNone end
      | None => PNone
      end
  | None => PNone
  end.

(** two JSON objects agree on the six members that the cloud function reads *)
Definition same_search_members (d d' : dict) : Prop :=
  forall k, In k McpServer.parameters -> lookup k d = lookup k d'.

(** ** The filter predicate builder *)

Lemma truthy_PStr (s : string) : truthy (PStr s) = negb (s =? "")%string.
Proof. reflexivity. Qed.

Lemma filter_expr_conjunction (parts : list string) :
  filter_expr parts = conjunction parts.
Proof. destruct parts; reflexivity. Qed.

Lemma when_present_nonempty (o : option string) (atom : string -> string) :
  when_present (nonempty o) atom
  = match o with
    | Some s => if truthy (PStr s) then [atom s] else []
    | None => []
    end.
Proof.
  destruct o as [s|]; [|reflexivity].
  unfold nonempty. rewrite truthy_PStr.
  destruct (s =? "")%string; reflexivity.
Qed.

Lemma filter_parts_emitted (f : SearchFilter) :
  filter_parts (max_price_arg f) (category_arg f) (in_stock_only_arg f) (brand_arg f)
  = emitted_constraints f.
Proof.
  unfold filter_parts, emitted_constraints.
  rewrite !when_present_nonempty.
  unfold max_price_arg, category_arg, in_stock_only_arg, brand_arg.
  f_equal; [|f_equal; [|f_equal]].
  - destruct (max_price f) as [[z|x]|]; reflexivity.
  - destruct (category f) as [s|]; [|reflexivity].
    destruct (truthy (PStr s)); reflexivity.
  - destruct (in_stock_only f) as [[|]|]; reflexivity.
  - destruct (brand f) as [s|]; [|reflexivity].
    destruct (truthy (PStr s)); reflexivity.
Qed.

Lemma built_expr_emitted (f : SearchFilter) :
  built_expr f = conjunction (emitted_constraints f).
Proof.
  unfold built_expr. now rewrite filter_parts_emitted, filter_expr_conjunction.
Qed.

(** C1, as amended: the expression handed to the index is the conjunction of
    the emitted constraints ([price <= max_price] when [max_price] is present,
    [category == value] and [brand == value] when the field is present and not
    empty, [in_stock == true] when the flag is true), and [match_all] when
    there is none; both servers pass exactly this expression to
    [collection.search]. *)
Theorem filter_is_conjunction_of_emitted_constraints
    (f : SearchFilter) (query top_k : pyval)
    (model : SentenceTransformer) (c : Collection) (query_embedding : list float)
    (g : McpServer.Globals) (g' : GcpFunction.Globals)
    (Hready : McpServer.MILVUS_READY g = true)
    (Hmodel : McpServer.embedding_model g = Some model)
    (Hcoll : McpServer.collection g = Some c)
    (Hready' : GcpFunction.MILVUS_READY g' = true)
    (Hmodel' : GcpFunction.embedding_model g' = Some model)
    (Hcoll' : GcpFunction.collection g' = Some c)
    (Hembed : encode model query = Ok query_embedding) :
  built_expr f = conjunction (emitted_constraints f)
  /\ (emitted_constraints no_filter = [] /\ built_expr no_filter = match_all)
  /\ ~ In "in_stock == false" (emitted_constraints f)
  /\ McpServer.search_products_logic g query top_k
       (max_price_arg f) (category_arg f) (in_stock_only_arg f) (brand_arg f)
     = bind (search c (McpServer.search_request query_embedding top_k
                         (conjunction (emitted_constraints f))))
            (McpServer.shape_results query)
  /\ GcpFunction.search_products_logic g' query top_k
       (max_price_arg f) (category_arg f) (in_stock_only_arg f) (brand_arg f)
     = bind (search c (GcpFunction.search_request query_embedding top_k
                         (conjunction (emitted_constraints f))))
            (GcpFunction.shape_results query (max_price_arg f) (category_arg f)).
Proof.
  pose proof (built_expr_emitted f) as Hexpr. unfold built_expr in Hexpr.
  repeat split.
  - apply built_expr_emitted.
  - unfold emitted_constraints, when_present, nonempty.
    destruct (max_price f) as [[z|x]|], (category f) as [s|], (in_stock_only f) as [[|]|],
      (brand f) as [b|]; try destruct (s =? "")%string; try destruct (b =? "")%string;
      cbn [app In]; unfold price_le, category_eq, brand_eq, in_stock_true;
      intros H; repeat (destruct H as [H|H]; [discriminate H|]); exact H.
  - unfold McpServer.search_products_logic, McpServer.generate_embedding.
    rewrite Hready, Hmodel, Hembed, Hcoll. cbn [negb bind]. now rewrite Hexpr.
  - unfold GcpFunction.search_products_logic.
    rewrite Hready', Hmodel', Hembed, Hcoll'. cbn [bind]. now rewrite Hexpr.
Qed.

Lemma filter_is_conjunction_of_emitted_constraints_witness :
  built_expr footwear_filter
  = "price <= 100 && category == " ++ dquote ++ "Footwear" ++ dquote ++ " && in_stock == true".
Proof.
  destruct (filter_is_conjunction_of_emitted_constraints footwear_filter
              (PStr "running shoes") (PInt 3) constant_model two_hits [zero; one]
              mcp_ready gcp_ready eq_refl eq_refl eq_refl eq_refl eq_refl eq_refl eq_refl)
    as [H _].
  rewrite H. reflexivity.
Defined.

(** C1 as the specification words it fails: an empty category is present, yet
    no constraint is emitted for it. *)
Lemma present_constraints_counterexample :
  built_expr (with_category (Some "") no_filter) = match_all
  /\ conjunction (present_constraints (with_category (Some "") no_filter))
     = "category == " ++ dquote ++ dquote
  /\ built_expr (with_category (Some "") no_filter)
     <> conjunction (present_constraints (with_category (Some "") no_filter)).
Proof. repeat split. discriminate. Qed.

(** C10: an empty category or brand is treated as absent, while a zero
    [max_price] still constrains the price: the numeric field is compared
    with [None], the string fields are tested for truth. *)
Theorem empty_string_filters_absent_zero_price_present
    (f : SearchFilter) (max_price category in_stock_only brand : pyval) :
  built_expr (with_category (Some "") f) = built_expr (with_category None f)
  /\ built_expr (with_brand (Some "") f) = built_expr (with_brand None f)
  /\ filter_parts max_price (PStr "") in_stock_only brand
     = filter_parts max_price PNone in_stock_only brand
  /\ filter_parts max_price category in_stock_only (PStr "")
     = filter_parts max_price category in_stock_only PNone
  /\ filter_parts (PFloat zero) category in_stock_only brand
     = "price <= 0.0" :: filter_parts PNone category in_stock_only brand
  /\ built_expr (with_max_price (Some (Float zero)) no_filter) = "price <= 0.0"
  /\ built_expr (with_max_price (Some (Float zero)) f)
     = conjunction ("price <= 0.0" :: emitted_constraints (with_max_price None f)).
Proof.
  repeat split; try reflexivity.
  rewrite built_expr_emitted. reflexivity.
Qed.

(** ** The protocol dispatcher *)

Lemma eq_str_true (v : pyval) (s : string) : eq_str v s = true -> v = PStr s.
Proof.
  destruct v; cbn; try discriminate.
  intros H. apply String.eqb_eq in H. now subst.
Qed.

Lemma eq_str_false (v : pyval) (s : string) : v <> PStr s -> eq_str v s = false.
Proof.
  intros H. destruct (eq_str v s) eqn:E; [|reflexivity].
  now apply eq_str_true in E.
Qed.

Lemma handle_mcp_object (g : McpServer.Globals) (payload : dict) :
  McpServer.handle_mcp g (request_of payload)
  = McpServer.dispatch g (dict_get payload "id" PNone) (dict_get payload "method" PNone)
      (dict_get payload "params" (PDict [])).
Proof. reflexivity. Qed.

(** a call that gives no [query] raises [TypeError] before the body runs *)
Lemma call_without_query (g : McpServer.Globals) (args : pyval) :
  lacks_query args ->
  exists msg, McpServer.call_search_products_logic g args = Raised (Raise TypeError msg).
Proof.
  intros H. unfold McpServer.call_search_products_logic.
  destruct args; try (eexists; reflexivity).
  destruct (McpServer.unexpected_keyword d); [eexists; reflexivity|].
  cbn in H. rewrite H. eexists; reflexivity.
Qed.

(** The dispatcher on a request whose [params] is an object: a [tools/call]
    without [query] is answered with error -32000, an unknown method with
    error -32601, and [ping] with an empty result whatever the state of the
    model and of Milvus. *)
Theorem dispatcher_error_codes_and_ping (g : McpServer.Globals) (payload : dict) :
  (forall params : dict,
      dict_get payload "method" PNone = PStr "tools/call" ->
      dict_get payload "params" (PDict []) = PDict params ->
      lacks_query (dict_get params "arguments" (PDict [])) ->
      exists msg,
        McpServer.handle_mcp g (request_of payload)
        = McpServer.Return
            (McpServer.response (dict_get payload "id" PNone) "error"
               (McpServer.error_object (-32000) msg)))
  /\ ((forall m, In m known_methods -> dict_get payload "method" PNone <> PStr m) ->
      McpServer.handle_mcp g (request_of payload)
      = McpServer.Return
          (McpServer.response (dict_get payload "id" PNone) "error"
             (McpServer.error_object (-32601) "Method not found")))
  /\ (dict_get payload "method" PNone = PStr "ping" ->
      McpServer.handle_mcp g (request_of payload)
      = McpServer.Return
          (McpServer.response (dict_get payload "id" PNone) "result" (PDict []))).
Proof.
  rewrite handle_mcp_object. unfold McpServer.dispatch. repeat split.
  - intros params Hm Hp Hq. rewrite Hm, Hp. cbn.
    unfold McpServer.tools_call; cbn [method_get].
    destruct (call_without_query g _ Hq) as [msg ->].
    exists msg. reflexivity.
  - intros H.
    rewrite !eq_str_false by (apply H; cbn; tauto).
    reflexivity.
  - intros ->. reflexivity.
Qed.

Lemma dispatcher_error_codes_and_ping_witness :
  (exists msg,
      McpServer.handle_mcp mcp_no_model
        (request_of (envelope (PInt 7) "tools/call"
                       (PDict [("name", PStr "search_products");
                               ("arguments", PDict [("max_price", PInt 100)])])))
      = McpServer.Return
          (McpServer.response (PInt 7) "error" (McpServer.error_object (-32000) msg)))
  /\ McpServer.handle_mcp mcp_no_model (request_of (envelope (PStr "a") "resources/list" PNone))
     = McpServer.Return
         (McpServer.response (PStr "a") "error"
            (McpServer.error_object (-32601) "Method not found"))
  /\ McpServer.handle_mcp mcp_no_milvus (request_of (envelope (PInt 1) "ping" PNone))
     = McpServer.Return (McpServer.response (PInt 1) "result" (PDict [])).
Proof.
  split; [|split].
  - destruct (dispatcher_error_codes_and_ping mcp_no_model
                (envelope (PInt 7) "tools/call"
                   (PDict [("name", PStr "search_products");
                           ("arguments", PDict [("max_price", PInt 100)])])))
      as [H _].
    exact (H _ eq_refl eq_refl eq_refl).
  - destruct (dispatcher_error_codes_and_ping mcp_no_model
                (envelope (PStr "a") "resources/list" PNone)) as [_ [H _]].
    apply H. intros m Hin.
    cbn in Hin. repeat (destruct Hin as [<-|Hin]; [discriminate|]). destruct Hin.
  - destruct (dispatcher_error_codes_and_ping mcp_no_milvus
                (envelope (PInt 1) "ping" PNone)) as [_ [_ H]].
    apply H. reflexivity.
Defined.

(** C2, where the code departs from it: [params.get] is read before the
    [try] of the [tools/call] branch.  A call whose [params] is an array (or
    null) has no arguments, so no [query], and the [AttributeError] escapes
    [handle_mcp] instead of becoming error -32000, whatever the state of the
    backends.  The same array given as [arguments] of an object is inside
    the [try] and is answered with error -32000. *)
Theorem tools_call_array_params_escapes (g : McpServer.Globals) :
  McpServer.handle_mcp g
    (request_of (envelope (PInt 1) "tools/call" (PList [PStr "boots"])))
  = McpServer.Unhandled
      (Raise AttributeError "'list' object has no attribute 'get'")
  /\ McpServer.handle_mcp g (request_of (envelope (PInt 1) "tools/call" PNone))
     = McpServer.Unhandled
         (Raise AttributeError "'NoneType' object has no attribute 'get'")
  /\ exists msg,
       McpServer.handle_mcp g
         (request_of (envelope (PInt 1) "tools/call"
                        (PDict [("arguments", PList [PStr "boots"])])))
       = McpServer.Return
           (McpServer.response (PInt 1) "error" (McpServer.error_object (-32000) msg)).
Proof.
  rewrite !handle_mcp_object. unfold McpServer.dispatch, envelope.
  cbn [dict_get lookup String.eqb Ascii.eqb Bool.eqb eq_str].
  split; [reflexivity|]. split; [reflexivity|].
  eexists. reflexivity.
Qed.

Lemma tools_call_returns (g : McpServer.Globals) (jsonrpc_id : pyval) (params : dict) :
  exists key v,
    McpServer.tools_call g jsonrpc_id (PDict params)
    = McpServer.Return (McpServer.response jsonrpc_id key v)
    /\ (key = "result" \/ key = "error").
Proof.
  unfold McpServer.tools_call; cbn [method_get].
  destruct (McpServer.call_search_products_logic g _); eauto.
Qed.

(** C8: every response to a well-formed request, a result or an error, on
    every branch of the dispatcher, carries the [id] of the request
    unchanged. *)
Theorem response_carries_request_id (g : McpServer.Globals) (payload : dict)
    (jsonrpc_id : pyval)
    (Hid : lookup "id" payload = Some jsonrpc_id)
    (Hparams : dict_get payload "method" PNone = PStr "tools/call" ->
               exists params, dict_get payload "params" (PDict []) = PDict params) :
  exists body,
    McpServer.handle_mcp g (request_of payload) = McpServer.Return body
    /\ field "id" body = Some jsonrpc_id
    /\ (field "result" body <> None \/ field "error" body <> None).
Proof.
  rewrite handle_mcp_object. unfold dict_get at 1. rewrite Hid.
  assert (Hresp : forall key v, key = "result" \/ key = "error" ->
            exists body,
              McpServer.Return (McpServer.response jsonrpc_id key v) = McpServer.Return body
              /\ field "id" body = Some jsonrpc_id
              /\ (field "result" body <> None \/ field "error" body <> None)).
  { intros key v [-> | ->]; eexists; (split; [reflexivity|]); split;
      try reflexivity; [left|right]; discriminate. }
  unfold McpServer.dispatch.
  destruct (eq_str _ "initialize"); [apply Hresp; auto|].
  destruct (eq_str _ "notifications/initialized"); [apply Hresp; auto|].
  destruct (eq_str _ "tools/list"); [apply Hresp; auto|].
  destruct (eq_str _ "tools/call") eqn:Hcall.
  - apply eq_str_true in Hcall. destruct (Hparams Hcall) as [params ->].
    destruct (tools_call_returns g jsonrpc_id params) as (key & v & -> & Hkey).
    apply Hresp, Hkey.
  - destruct (eq_str _ "ping"); apply Hresp; auto.
Qed.

Lemma response_carries_request_id_witness :
  exists body,
    McpServer.handle_mcp mcp_ready
      (request_of (envelope (PStr "req-42") "tools/call"
                     (PDict [("arguments", PDict [("query", PStr "boots")])])))
    = McpServer.Return body
    /\ field "id" body = Some (PStr "req-42")
    /\ (field "result" body <> None \/ field "error" body <> None).
Proof.
  apply response_carries_request_id.
  - reflexivity.
  - intros _. eexists. reflexivity.
Defined.

(** C7 as the specification words it fails: the empty object is not the
    expected envelope, yet it is dispatched and answered with the JSON-RPC
    error for an unknown method, not with a 4xx status. *)
Lemma malformed_envelope_counterexample :
  ~ is_envelope (PDict [])
  /\ McpServer.handle_mcp mcp_ready (request_of [])
     = McpServer.Return
         (McpServer.response PNone "error"
            (McpServer.error_object (-32601) "Method not found"))
  /\ ~ client_error (McpServer.handle_mcp mcp_ready (request_of [])).
Proof.
  repeat split.
  - cbn. intros [H _]. now apply H.
  - cbn. tauto.
Qed.

(** C7, as amended: a body that does not parse as JSON is rejected with
    status 400 before any dispatch, whatever the state of the server; a body
    that parses to an object is never rejected at the transport level, also
    when [id], [method] or [params] are missing: it is dispatched, and an
    object without a method is answered with error -32601. *)
Theorem unparseable_body_rejected_before_dispatch
    (g : McpServer.Globals) (request : McpServer.Request) :
  (forall e, McpServer.json request = Raised e ->
     McpServer.handle_mcp g request = McpServer.HTTPException 400 "Invalid JSON"
     /\ client_error (McpServer.handle_mcp g request))
  /\ (forall payload : dict, McpServer.json request = Ok (PDict payload) ->
       ~ client_error (McpServer.handle_mcp g request)
       /\ McpServer.handle_mcp g request
          = McpServer.dispatch g (dict_get payload "id" PNone)
              (dict_get payload "method" PNone) (dict_get payload "params" (PDict []))
       /\ (lookup "method" payload = None ->
           McpServer.handle_mcp g request
           = McpServer.Return
               (McpServer.response (dict_get payload "id" PNone) "error"
                  (McpServer.error_object (-32601) "Method not found")))).
Proof.
  split.
  - intros e He. unfold McpServer.handle_mcp. rewrite He. cbn. split; [reflexivity|lia].
  - intros payload Hp.
    assert (Hd : McpServer.handle_mcp g request
                 = McpServer.dispatch g (dict_get payload "id" PNone)
                     (dict_get payload "method" PNone)
                     (dict_get payload "params" (PDict []))).
    { unfold McpServer.handle_mcp. rewrite Hp. reflexivity. }
    rewrite Hd. repeat split.
    + unfold McpServer.dispatch, McpServer.tools_call.
      repeat match goal with
             | |- context [if ?b then _ else _] => destruct b
             | |- context [match ?r with Ok _ => _ | Raised _ => _ end] => destruct r
             end; cbn; tauto.
    + intros Hm. unfold dict_get at 2. rewrite Hm. reflexivity.
Qed.

Lemma unparseable_body_rejected_before_dispatch_witness :
  McpServer.handle_mcp mcp_ready
    {| McpServer.json := Raised (Raise (ExternalError "JSONDecodeError")
                                   "Expecting value: line 1 column 1 (char 0)") |}
  = McpServer.HTTPException 400 "Invalid JSON".
Proof.
  eapply (unparseable_body_rejected_before_dispatch mcp_ready). reflexivity.
Defined.

(** ** The search engine *)

(** C3 as the specification words it fails: with Milvus ready and no model,
    the search of [mcp_server_http.py] raises. *)
Lemma model_unavailable_counterexample :
  McpServer.embedding_model mcp_no_model = None
  /\ McpServer.search_products_logic mcp_no_model (PStr "boots") (PInt 5) PNone PNone
       (PBool false) PNone
     = Raised (Raise Exception "Modello embedding non caricato").
Proof. split; reflexivity. Qed.

(** C3, as amended: the search of [gcp_simulation/main.py] returns its
    structured payload for either cause; the search of [mcp_server_http.py]
    returns one whenever Milvus is not ready, and with Milvus ready and no
    model it raises, which the dispatcher answers with error -32000. *)
Theorem unavailable_backend_outcomes
    (g : McpServer.Globals) (g' : GcpFunction.Globals)
    (query top_k max_price category in_stock_only brand jsonrpc_id : pyval) :
  (GcpFunction.MILVUS_READY g' = false \/ GcpFunction.embedding_model g' = None ->
   GcpFunction.search_products_logic g' query top_k max_price category in_stock_only brand
   = Ok GcpFunction.unavailable)
  /\ (McpServer.MILVUS_READY g = false ->
      McpServer.search_products_logic g query top_k max_price category in_stock_only brand
      = Ok (milvus_not_connected query))
  /\ (McpServer.MILVUS_READY g = true -> McpServer.embedding_model g = None ->
      McpServer.search_products_logic g query top_k max_price category in_stock_only brand
      = Raised (Raise Exception "Modello embedding non caricato")
      /\ McpServer.tools_call g jsonrpc_id (PDict [("arguments", PDict [("query", query)])])
         = McpServer.Return
             (McpServer.response jsonrpc_id "error"
                (McpServer.error_object (-32000) "Modello embedding non caricato"))).
Proof.
  split; [|split].
  - unfold GcpFunction.search_products_logic.
    intros [-> | ->]; [reflexivity|]. now destruct (GcpFunction.MILVUS_READY g').
  - unfold McpServer.search_products_logic. now intros ->.
  - intros Hready Hmodel. split.
    + unfold McpServer.search_products_logic, McpServer.generate_embedding.
      now rewrite Hready, Hmodel.
    + unfold McpServer.tools_call, McpServer.call_search_products_logic,
        McpServer.search_products_logic, McpServer.generate_embedding.
      cbn. now rewrite Hready, Hmodel.
Qed.

Lemma unavailable_backend_outcomes_witness :
  GcpFunction.search_products_logic gcp_no_model (PStr "boots") (PInt 5) PNone PNone
    (PBool false) PNone
  = Ok GcpFunction.unavailable
  /\ McpServer.search_products_logic mcp_no_milvus (PStr "boots") (PInt 5) PNone PNone
       (PBool false) PNone
     = Ok (milvus_not_connected (PStr "boots")).
Proof.
  destruct (unavailable_backend_outcomes mcp_no_milvus gcp_no_model (PStr "boots") (PInt 5)
              PNone PNone (PBool false) PNone (PInt 1)) as (Hg & Hm & _).
  split; [apply Hg; right; reflexivity | apply Hm; reflexivity].
Defined.

Lemma comprehension_length {A B : Type} (f : A -> result B) (l : list A) (bs : list B) :
  comprehension f l = Ok bs -> List.length bs = List.length l.
Proof.
  revert bs. induction l as [|a l IH]; intros bs; cbn.
  - intros [= <-]. reflexivity.
  - destruct (f a) as [b|e]; cbn; [|discriminate].
    destruct (comprehension f l) as [bs'|e]; cbn; [|discriminate].
    intros [= <-]. cbn. f_equal. now apply IH.
Qed.

Lemma comprehension_total {A B : Type} (f : A -> result B) (l : list A) :
  Forall (fun a => exists b, f a = Ok b) l ->
  exists bs, comprehension f l = Ok bs.
Proof.
  induction 1 as [|a l [b Hb] _ [bs Hbs]]; cbn.
  - eexists; reflexivity.
  - rewrite Hb, Hbs. eexists; reflexivity.
Qed.

(** the hits of a search for one query vector, flattened *)
Lemma single_query_hits (c : Collection) (request : SearchRequest) (k : Z)
    (results : list (list Hit)) (v : list float) :
  honours_limit c ->
  data request = [v] ->
  limit request = PInt k ->
  search c request = Ok results ->
  Z.of_nat (List.length (List.concat results)) <= k.
Proof.
  intros Hc Hd Hl Hs. destruct (Hc request k results Hl Hs) as [Hlen Hall].
  rewrite Hd in Hlen.
  destruct results as [|hits [|? ?]]; try discriminate Hlen.
  cbn. rewrite app_nil_r. now inversion Hall.
Qed.

Lemma first_hits_honours_limit (hits : list Hit) : honours_limit (first_hits hits).
Proof.
  intros request k results Hk. cbn. rewrite Hk.
  destruct (Z.ltb_spec 0 k); [|discriminate]. intros [= <-]. split.
  - apply length_map.
  - apply Forall_forall. intros hs Hin. apply in_map_iff in Hin as (v & <- & _).
    rewrite length_firstn. lia.
Qed.


(** ** The catalog indexer *)

Lemma getitem_missing (p : pyval) (f : string) :
  field f p = None -> exists e, getitem p f = Raised e.
Proof.
  destruct p; cbn; try (intros _; eexists; reflexivity).
  intros ->. eexists; reflexivity.
Qed.

Lemma comprehension_raises {A B : Type} (f : A -> result B) (l : list A) :
  Exists (fun a => exists e, f a = Raised e) l ->
  exists e, comprehension f l = Raised e.
Proof.
  induction 1 as [a l [e He] | a l _ [e He]]; cbn.
  - rewrite He. eexists; reflexivity.
  - destruct (f a); cbn; [|eexists; reflexivity].
    rewrite He. eexists; reflexivity.
Qed.

Lemma column_raises (products : list pyval) (f : string) :
  Exists (fun p => field f p = None) products ->
  exists e, comprehension (fun p => getitem p f) products = Raised e.
Proof.
  intros H. apply comprehension_raises.
  eapply Exists_impl; [|exact H]. intros p. apply getitem_missing.
Qed.

(** a record without one of its fields stops the construction of the columns *)
Lemma columns_raise (products : list pyval) (embeddings : list (list float)) :
  Exists missing_field products ->
  exists e, Ingest.columns products embeddings = Raised e.
Proof.
  intros H.
  assert (Hf : exists f, In f required_fields
                         /\ Exists (fun p => field f p = None) products).
  { induction H as [p l (f & Hin & Hf) | p l _ (f & Hin & Hf)].
    - exists f. split; [exact Hin|]. now constructor.
    - exists f. split; [exact Hin|]. now constructor 2. }
  destruct Hf as (f & Hin & Hf). apply column_raises in Hf. destruct Hf as [e He].
  unfold Ingest.columns.
  repeat match goal with
         | |- context [bind (comprehension ?g products) _] =>
             destruct (comprehension g products) eqn:?; cbn [bind];
             [|eexists; reflexivity]
         end.
  cbn in Hin.
  repeat (destruct Hin as [<- | Hin]; [congruence|]). destruct Hin.
Qed.

Lemma find_put (n : string) (c : Ingest.CollectionState)
    (cs : list (string * Ingest.CollectionState)) :
  Ingest.find_collection n (Ingest.put_collection n c cs) = Some c.
Proof. cbn. now rewrite String.eqb_refl. Qed.

Lemma find_remove (n : string) (cs : list (string * Ingest.CollectionState)) :
  Ingest.find_collection n (Ingest.remove_collection n cs) = None.
Proof.
  induction cs as [|[n' c] cs IH]; cbn; [reflexivity|].
  destruct (n =? n')%string eqn:E; [exact IH|]. cbn. now rewrite E.
Qed.

(** [create_collection] leaves a fresh, empty, indexed collection *)
Lemma create_collection_fresh (w : Ingest.Milvus) :
  exists w',
    Ingest.create_collection w = (w', Ok tt)
    /\ inserted_data w' = []
    /\ Ingest.reachable w' = Ingest.reachable w.
Proof.
  unfold Ingest.create_collection, Ingest.seq, Ingest.has_collection.
  set (name := Ingest.COLLECTION_NAME).
  assert (Hnew : forall w0, Ingest.find_collection name (Ingest.collections w0) = None ->
            exists w',
              (let (w1, r) := Ingest.new_collection name Ingest.fields w0 in
               match r with
               | Ok _ => Ingest.create_index name "embedding" Ingest.index_params w1
               | Raised e => (w1, Raised e)
               end) = (w', Ok tt)
              /\ inserted_data w' = [] /\ Ingest.reachable w' = Ingest.reachable w0).
  { intros w0 H0. unfold Ingest.new_collection. rewrite H0.
    unfold Ingest.create_index, Ingest.update. cbn [Ingest.collections Ingest.with_collections].
    rewrite find_put. eexists. split; [reflexivity|].
    unfold inserted_data. cbn [Ingest.collections Ingest.with_collections].
    fold name. rewrite find_put. split; reflexivity. }
  destruct (Ingest.find_collection name (Ingest.collections w)) eqn:Hfind.
  - unfold Ingest.drop_collection.
    destruct (Hnew (Ingest.with_collections
                      (Ingest.remove_collection name (Ingest.collections w)) w))
      as (w' & Hw' & Hi & Hr).
    { cbn. apply find_remove. }
    exists w'. split; [exact Hw'|]. split; [exact Hi|]. exact Hr.
  - unfold Ingest.ret. destruct (Hnew w Hfind) as (w' & Hw' & Hi & Hr).
    exists w'. auto.
Qed.

Lemma seq_ok {A B : Type} (c : Ingest.Cmd A) (k : A -> Ingest.Cmd B)
    (w w' : Ingest.Milvus) (a : A) :
  c w = (w', Ok a) -> Ingest.seq c k w = k a w'.
Proof. unfold Ingest.seq. now intros ->. Qed.

Lemma seq_raised {A B : Type} (c : Ingest.Cmd A) (k : A -> Ingest.Cmd B)
    (w w' : Ingest.Milvus) (e : exn) :
  c w = (w', Raised e) -> Ingest.seq c k w = (w', Raised e).
Proof. unfold Ingest.seq. now intros ->. Qed.

Lemma seq_lift {A B : Type} (r : result A) (k : A -> Ingest.Cmd B) (w : Ingest.Milvus) :
  Ingest.seq (Ingest.lift r) k w
  = match r with
    | Ok a => k a w
    | Raised e => (w, Raised e)
    end.
Proof. unfold Ingest.seq, Ingest.lift. now destruct r. Qed.

(** once the collection is created, a malformed record stops the run before
    the insertion *)
Lemma malformed_record_stops_before_insert
    (env : Ingest.Environment) (w : Ingest.Milvus) (products : list pyval)
    (k : Ingest.Cmd unit) :
  Exists missing_field products ->
  exists e,
    Ingest.seq (Ingest.lift (Ingest.load_model env)) (fun model =>
      Ingest.seq (Ingest.lift (comprehension (fun p => getitem p "description") products))
        (fun descriptions =>
           Ingest.seq (Ingest.lift (Ingest.generate_embeddings descriptions model))
             (fun embeddings =>
                Ingest.seq (Ingest.insert_products products embeddings) (fun _ => k)))) w
    = (w, Raised e).
Proof.
  intros Hbad. rewrite seq_lift.
  destruct (Ingest.load_model env) as [model|e]; [|eauto].
  rewrite seq_lift.
  destruct (comprehension _ products) as [descriptions|e]; [|eauto].
  rewrite seq_lift.
  destruct (Ingest.generate_embeddings descriptions model) as [embeddings|e]; [|eauto].
  destruct (columns_raise products embeddings Hbad) as [e He].
  exists e. apply seq_raised. unfold Ingest.insert_products.
  rewrite seq_lift, He. reflexivity.
Qed.

(** C9: a source record that lacks a required field makes the whole run fail
    with an error, and nothing is inserted: the collection the run leaves
    behind holds no data (or, when the server could not be reached, the server
    is as it was). *)
Theorem malformed_record_fails_whole_build
    (env : Ingest.Environment) (w : Ingest.Milvus) (products : list pyval)
    (Hload : Ingest.load_products env = Ok products)
    (Hbad : Exists missing_field products) :
  (exists e, snd (Ingest.main env w) = Raised e)
  /\ (Ingest.reachable w = true -> inserted_data (fst (Ingest.main env w)) = [])
  /\ (Ingest.reachable w = false -> fst (Ingest.main env w) = w).
Proof.
  unfold Ingest.main, Ingest.connect_to_milvus.
  destruct (Ingest.reachable w) eqn:Hreach.
  - rewrite (seq_ok _ _ w (Ingest.with_connected true w) tt)
      by (unfold Ingest.connections_connect; now rewrite Hreach).
    destruct (create_collection_fresh (Ingest.with_connected true w))
      as (w1 & Hcreate & Hempty & _).
    rewrite (seq_ok _ _ _ w1 tt Hcreate), seq_lift, Hload.
    destruct (malformed_record_stops_before_insert env w1 products
                (Ingest.seq (Ingest.collection_load Ingest.COLLECTION_NAME)
                   (fun _ => Ingest.connections_disconnect)) Hbad) as [e He].
    rewrite He. cbn [fst snd]. split; [eauto|]. split; [auto|discriminate].
  - rewrite (seq_raised _ _ w w (Raise (ExternalError "MilvusException")
                                   "Fail connecting to server"))
      by (unfold Ingest.connections_connect; now rewrite Hreach).
    cbn [fst snd]. split; [eauto|]. split; [discriminate|auto].
Qed.

Lemma malformed_record_fails_whole_build_witness :
  (exists e,
      snd (Ingest.main (sample_environment [sample_product 1 true; sample_product 2 false])
             sample_server) = Raised e)
  /\ inserted_data
       (fst (Ingest.main (sample_environment [sample_product 1 true; sample_product 2 false])
               sample_server)) = [].
Proof.
  destruct (malformed_record_fails_whole_build
              (sample_environment [sample_product 1 true; sample_product 2 false])
              sample_server [sample_product 1 true; sample_product 2 false] eq_refl)
    as (He & Hi & _).
  - apply Exists_cons_tl, Exists_cons_hd. exists "brand". split; [|reflexivity].
    cbn. tauto.
  - split; [exact He | apply Hi; reflexivity].
Defined.

Example well_formed_catalog_is_inserted :
  let r := Ingest.main (sample_environment [sample_product 1 true; sample_product 2 true])
             sample_server in
  snd r = Ok tt /\ List.length (inserted_data (fst r)) = 1%nat.
Proof. split; reflexivity. Qed.

(** ** Rounding to the nearest integer, ties to even *)

Section RoundHalfEven.

Variables num den : Z.
Hypothesis den_pos : 0 < den.

Lemma round_half_even_floor :
  round_half_even num den = num / den \/ round_half_even num den = num / den + 1.
Proof.
  unfold round_half_even.
  destruct (2 * (num mod den) ?= den); [destruct (Z.even (num / den))|..]; auto.
Qed.

(** the rounded value is within a half of [num / den] *)
Lemma round_half_even_near :
  2 * num - den <= 2 * round_half_even num den * den <= 2 * num + den.
Proof.
  pose proof (Z.div_mod num den ltac:(lia)) as Hdm.
  pose proof (Z.mod_pos_bound num den den_pos) as Hr.
  unfold round_half_even.
  destruct (Z.compare_spec (2 * (num mod den)) den);
    [destruct (Z.even (num / den))|..]; nia.
Qed.

(** a tie goes to the even neighbour *)
Lemma round_half_even_tie :
  2 * round_half_even num den * den = 2 * num + den
  \/ 2 * round_half_even num den * den = 2 * num - den ->
  Z.even (round_half_even num den) = true.
Proof.
  pose proof (Z.div_mod num den ltac:(lia)) as Hdm.
  pose proof (Z.mod_pos_bound num den den_pos) as Hr.
  unfold round_half_even.
  destruct (Z.compare_spec (2 * (num mod den)) den) as [He|Hl|Hg].
  - destruct (Z.even (num / den)) eqn:Hev; intros _; [exact Hev|].
    rewrite Z.even_add, Hev. reflexivity.
  - intros [H|H]; nia.
  - intros [H|H]; nia.
Qed.

End RoundHalfEven.

(** the three facts determine the rounded value *)
Lemma round_half_even_unique (num den z : Z) :
  0 < den ->
  2 * num - den <= 2 * z * den <= 2 * num + den ->
  (2 * z * den = 2 * num + den \/ 2 * z * den = 2 * num - den -> Z.even z = true) ->
  round_half_even num den = z.
Proof.
  intros Hden Hnear Htie.
  pose proof (round_half_even_near num den Hden) as Hn.
  pose proof (round_half_even_tie num den Hden) as Ht.
  set (r := round_half_even num den) in *.
  assert (Hdiff : r = z \/ r = z + 1 \/ z = r + 1) by nia.
  destruct Hdiff as [H|[H|H]]; [exact H|exfalso..].
  - assert (Hr : Z.even r = true) by (apply Ht; nia).
    assert (Hz : Z.even z = true) by (apply Htie; nia).
    subst r. rewrite H, Z.even_add, Hz in Hr. discriminate.
  - assert (Hr : Z.even r = true) by (apply Ht; nia).
    assert (Hz : Z.even z = true) by (apply Htie; nia).
    rewrite H, Z.even_add, Hr in Hz. discriminate.
Qed.

(** the rounding depends on the rational only *)
Lemma round_half_even_ratio (n1 d1 n2 d2 : Z) :
  0 < d1 -> 0 < d2 -> n1 * d2 = n2 * d1 ->
  round_half_even n1 d1 = round_half_even n2 d2.
Proof.
  intros H1 H2 Heq. symmetry. apply round_half_even_unique; [exact H2|..].
  - pose proof (round_half_even_near n1 d1 H1). nia.
  - intros H. apply round_half_even_tie; [exact H1|]. nia.
Qed.

Lemma round_half_even_monotone (n1 d1 n2 d2 : Z) :
  0 < d1 -> 0 < d2 -> n1 * d2 <= n2 * d1 ->
  round_half_even n1 d1 <= round_half_even n2 d2.
Proof.
  intros H1 H2 Hle.
  pose proof (round_half_even_near n1 d1 H1) as Hn1.
  pose proof (round_half_even_near n2 d2 H2) as Hn2.
  pose proof (round_half_even_tie n1 d1 H1) as Ht1.
  pose proof (round_half_even_tie n2 d2 H2) as Ht2.
  set (r1 := round_half_even n1 d1) in *.
  set (r2 := round_half_even n2 d2) in *.
  destruct (Z.le_gt_cases r1 r2) as [H|H]; [exact H|exfalso].
  assert (Ha : 2 * r1 * (d1 * d2) <= 2 * (n2 * d1) + d1 * d2) by nia.
  assert (Hb : 2 * (n2 * d1) - d1 * d2 <= 2 * r2 * (d1 * d2)) by nia.
  assert (Hp : 0 < d1 * d2) by nia.
  assert (Hd : r1 = r2 + 1) by nia.
  assert (He1 : Z.even r1 = true).
  { apply Ht1. left. subst r1. rewrite Hd in *.
    assert (2 * (r2 + 1) * (d1 * d2) = 2 * (n1 * d2) + d1 * d2) by nia. nia. }
  assert (He2 : Z.even r2 = true).
  { apply Ht2. right.
    assert (2 * r2 * (d1 * d2) = 2 * (n2 * d1) - d1 * d2) by nia. nia. }
  rewrite Hd, Z.even_add, He2 in He1. discriminate.
Qed.

(** an integer below, or above, [num / den] stays so after rounding *)
Lemma round_half_even_ge (num den z : Z) :
  0 < den -> z * den <= num -> z <= round_half_even num den.
Proof.
  intros Hd Hz. pose proof (round_half_even_floor num den) as [-> | ->].
  - apply Z.div_le_lower_bound; lia.
  - enough (z <= num / den) by lia. apply Z.div_le_lower_bound; lia.
Qed.

Lemma round_half_even_le (num den z : Z) :
  0 < den -> num <= z * den -> round_half_even num den <= z.
Proof.
  intros Hd Hz.
  replace z with (round_half_even (z * den) den).
  - apply round_half_even_monotone; nia.
  - apply round_half_even_unique; [exact Hd|lia|]. intros [H|H]; lia.
Qed.

Lemma round_half_even_exact (z den : Z) :
  0 < den -> round_half_even (z * den) den = z.
Proof.
  intros Hd. apply round_half_even_unique; [exact Hd|lia|]. intros [H|H]; lia.
Qed.

(** ** The number of binary digits *)

Lemma digits2_pos_bounds (p : positive) :
  2 ^ (Zpos (digits2_pos p) - 1) <= Zpos p < 2 ^ Zpos (digits2_pos p).
Proof.
  induction p as [p IH|p IH|]; cbn [digits2_pos].
  - rewrite Pos2Z.inj_succ.
    replace (Z.succ (Zpos (digits2_pos p)) - 1) with (Z.succ (Zpos (digits2_pos p) - 1)) by lia.
    rewrite !Z.pow_succ_r by lia. lia.
  - rewrite Pos2Z.inj_succ.
    replace (Z.succ (Zpos (digits2_pos p)) - 1) with (Z.succ (Zpos (digits2_pos p) - 1)) by lia.
    rewrite !Z.pow_succ_r by lia. lia.
  - cbn. lia.
Qed.

Lemma Zdigits2_nonneg (z : Z) : 0 <= Zdigits2 z.
Proof. destruct z; cbn; lia. Qed.

Lemma Zdigits2_bounds (z : Z) :
  0 < z -> 2 ^ (Zdigits2 z - 1) <= z < 2 ^ Zdigits2 z.
Proof. destruct z as [|p|p]; try lia. intros _. apply digits2_pos_bounds. Qed.

Lemma Zdigits2_pos (z : Z) : 0 < z -> 0 < Zdigits2 z.
Proof. destruct z; cbn; lia. Qed.

Lemma pow2_pos (k : Z) : 0 <= k -> 0 < 2 ^ k.
Proof. intros. apply Z.pow_pos_nonneg; lia. Qed.

Lemma pow2_le (j k : Z) : 0 <= j <= k -> 2 ^ j <= 2 ^ k.
Proof. intros. apply Z.pow_le_mono_r; lia. Qed.

Lemma pow2_lt (j k : Z) : 0 <= j < k -> 2 ^ j < 2 ^ k.
Proof. intros. apply Z.pow_lt_mono_r; lia. Qed.

(** the digits are determined by the power of two just above *)
Lemma Zdigits2_unique (z k : Z) :
  0 < k -> 2 ^ (k - 1) <= z < 2 ^ k -> Zdigits2 z = k.
Proof.
  intros Hk Hz.
  assert (Hpos : 0 < z) by (pose proof (pow2_pos (k - 1)); lia).
  pose proof (Zdigits2_bounds z Hpos) as Hb.
  pose proof (Zdigits2_pos z Hpos) as Hd.
  destruct (Z.lt_trichotomy (Zdigits2 z) k) as [H|[H|H]]; [exfalso|exact H|exfalso].
  - pose proof (pow2_le (Zdigits2 z) (k - 1)). lia.
  - pose proof (pow2_le k (Zdigits2 z - 1)). lia.
Qed.

Lemma Zdigits2_lower (z k : Z) : 2 ^ (k - 1) <= z -> 0 < z -> k <= Zdigits2 z.
Proof.
  intros Hz Hpos. pose proof (Zdigits2_bounds z Hpos) as Hb.
  pose proof (Zdigits2_pos z Hpos) as Hd.
  destruct (Z.le_gt_cases k (Zdigits2 z)) as [H|H]; [exact H|exfalso].
  pose proof (pow2_le (Zdigits2 z) (k - 1) ltac:(lia)). lia.
Qed.

Lemma Zdigits2_monotone (y z : Z) : 0 <= y <= z -> Zdigits2 y <= Zdigits2 z.
Proof.
  intros H. destruct (Z.eq_dec y 0) as [->|Hy]; [apply Zdigits2_nonneg|].
  pose proof (Zdigits2_bounds y ltac:(lia)) as Hby.
  pose proof (Zdigits2_bounds z ltac:(lia)) as Hbz.
  pose proof (Zdigits2_pos y ltac:(lia)).
  destruct (Z.le_gt_cases (Zdigits2 y) (Zdigits2 z)) as [Hle|Hgt]; [exact Hle|exfalso].
  pose proof (pow2_le (Zdigits2 z) (Zdigits2 y - 1)).
  pose proof (Zdigits2_nonneg z). lia.
Qed.

(** ** Rounding to [prec] bits *)

Lemma div_cross_monotone (P1 Q1 P2 Q2 : Z) :
  0 < Q1 -> 0 < Q2 -> P1 * Q2 <= P2 * Q1 -> P1 / Q1 <= P2 / Q2.
Proof.
  intros H1 H2 H. apply Z.div_le_lower_bound; [exact H2|].
  pose proof (Z.mul_div_le P1 Q1 H1). nia.
Qed.

Lemma shift_bounds (k : Z) :
  0 <= k -> 0 <= Z.max (k - prec) (emin - unit_exp).
Proof. unfold unit_exp, emin, SpecFloat.emin, prec, emax. lia. Qed.

(** what rounds is between the powers of two around it *)
Lemma nearest_bounds (P Q : Z) :
  0 <= P -> 0 < Q ->
  let k := Zdigits2 (P / Q) in
  let s := Z.max (k - prec) (emin - unit_exp) in
  nearest P Q <= 2 ^ Z.max k s /\ (s < k -> 2 ^ (k - 1) <= nearest P Q).
Proof.
  intros HP HQ k s. unfold nearest. fold k. fold s.
  assert (Hk : 0 <= k) by apply Zdigits2_nonneg.
  assert (Hs : 0 <= s) by (apply shift_bounds; lia).
  assert (H2s : 0 < 2 ^ s) by (apply pow2_pos; lia).
  assert (Hf : 0 <= P / Q) by (apply Z.div_pos; lia).
  pose proof (Z.mul_div_le P Q HQ) as Hlo.
  pose proof (Z.mul_succ_div_gt P Q HQ) as Hhi.
  split.
  - set (j := Z.max k s).
    replace (2 ^ j) with (2 ^ (j - s) * 2 ^ s)
      by (rewrite <- Z.pow_add_r; [f_equal|..]; lia).
    apply Z.mul_le_mono_nonneg_r; [lia|].
    apply round_half_even_le; [nia|].
    replace (2 ^ (j - s) * (Q * 2 ^ s)) with (2 ^ j * Q)
      by (replace (2 ^ j) with (2 ^ (j - s) * 2 ^ s)
            by (rewrite <- Z.pow_add_r; [f_equal|..]; lia); ring).
    assert (Hjk : 2 ^ k <= 2 ^ j) by (apply pow2_le; lia).
    destruct (Z.eq_dec (P / Q) 0) as [H0|H0].
    + assert (0 < 2 ^ k) by (apply pow2_pos; lia). nia.
    + pose proof (Zdigits2_bounds (P / Q) ltac:(lia)) as Hb. fold k in Hb. nia.
  - intros Hsk.
    assert (Hpq : 0 < P / Q) by (destruct (P / Q); cbn in *; lia).
    pose proof (Zdigits2_bounds (P / Q) Hpq) as Hb. fold k in Hb.
    replace (2 ^ (k - 1)) with (2 ^ (k - 1 - s) * 2 ^ s)
      by (rewrite <- Z.pow_add_r; [f_equal|..]; lia).
    apply Z.mul_le_mono_nonneg_r; [lia|].
    apply round_half_even_ge; [nia|].
    replace (2 ^ (k - 1 - s) * (Q * 2 ^ s)) with (2 ^ (k - 1) * Q)
      by (replace (2 ^ (k - 1)) with (2 ^ (k - 1 - s) * 2 ^ s)
            by (rewrite <- Z.pow_add_r; [f_equal|..]; lia); ring).
    nia.
Qed.

Theorem nearest_monotone (P1 Q1 P2 Q2 : Z) :
  0 <= P1 -> 0 < Q1 -> 0 < Q2 -> P1 * Q2 <= P2 * Q1 ->
  nearest P1 Q1 <= nearest P2 Q2.
Proof.
  intros HP1 HQ1 HQ2 Hle.
  assert (HP2 : 0 <= P2) by nia.
  pose proof (div_cross_monotone P1 Q1 P2 Q2 HQ1 HQ2 Hle) as Hf.
  assert (Hf1 : 0 <= P1 / Q1) by (apply Z.div_pos; lia).
  pose proof (Zdigits2_monotone (P1 / Q1) (P2 / Q2) ltac:(lia)) as Hk.
  pose proof (Zdigits2_nonneg (P1 / Q1)) as Hk1.
  destruct (nearest_bounds P1 Q1 HP1 HQ1) as [Hup1 _].
  destruct (nearest_bounds P2 Q2 HP2 HQ2) as [_ Hlo2].
  cbv zeta in Hup1, Hlo2.
  pose proof (shift_bounds _ Hk1) as Hs1.
  destruct (Z.eq_dec (Z.max (Zdigits2 (P1 / Q1) - prec) (emin - unit_exp))
                     (Z.max (Zdigits2 (P2 / Q2) - prec) (emin - unit_exp))) as [Hs|Hs].
  - unfold nearest. rewrite Hs.
    set (s := Z.max (Zdigits2 (P2 / Q2) - prec) (emin - unit_exp)) in *.
    assert (H2s : 0 < 2 ^ s) by (apply pow2_pos; lia).
    apply Z.mul_le_mono_nonneg_r; [lia|].
    apply round_half_even_monotone; nia.
  - assert (Hlt : Zdigits2 (P1 / Q1) < Zdigits2 (P2 / Q2)) by lia.
    assert (Hprec : 1 <= prec) by (unfold prec; lia).
    specialize (Hlo2 ltac:(lia)).
    pose proof (pow2_le (Z.max (Zdigits2 (P1 / Q1))
                           (Z.max (Zdigits2 (P1 / Q1) - prec) (emin - unit_exp)))
                  (Zdigits2 (P2 / Q2) - 1) ltac:(lia)).
    lia.
Qed.

Lemma nearest_ratio (P1 Q1 P2 Q2 : Z) :
  0 <= P1 -> 0 < Q1 -> 0 < Q2 -> P1 * Q2 = P2 * Q1 ->
  nearest P1 Q1 = nearest P2 Q2.
Proof.
  intros HP1 HQ1 HQ2 Heq. apply Z.le_antisymm.
  - apply nearest_monotone; lia.
  - apply nearest_monotone; nia.
Qed.

(** ** Shifting a mantissa to the right *)

Lemma shr_1_nonneg (mrs : shr_record) :
  0 <= shr_m mrs ->
  shr_1 mrs = {| shr_m := Z.div2 (shr_m mrs);
                 shr_r := Z.odd (shr_m mrs);
                 shr_s := shr_r mrs || shr_s mrs |}.
Proof.
  destruct mrs as [m r s]. cbn [shr_m shr_r shr_s].
  destruct m as [|[p|p|]|p]; try lia; reflexivity.
Qed.

Lemma div_mod_double (N D : Z) :
  0 < D ->
  N / (D * 2) = (N / D) / 2
  /\ N mod (D * 2) = (if Z.odd (N / D) then D else 0) + N mod D.
Proof.
  intros HD.
  pose proof (Z.div_mod N D ltac:(lia)) as Hdm.
  pose proof (Z.mod_pos_bound N D HD) as Hr.
  pose proof (Zdiv2_odd_eqn (N / D)) as Hq. rewrite Z.div2_div in Hq.
  apply Z.div_mod_unique with (b := D * 2).
  - left. apply Z.mod_pos_bound. lia.
  - left. destruct (Z.odd (N / D)); lia.
  - rewrite <- Z.div_mod by lia. destruct (Z.odd (N / D)); nia.
Qed.

Lemma shr_1_truncation (N D : Z) (mrs : shr_record) :
  0 <= N -> 0 < D -> truncation N D mrs -> truncation N (D * 2) (shr_1 mrs).
Proof.
  intros HN HD (Hm & Hr & Hs).
  assert (Hq : 0 <= N / D) by (apply Z.div_pos; lia).
  rewrite shr_1_nonneg by lia. rewrite Hm, Hr, Hs.
  destruct (div_mod_double N D HD) as [Hdiv Hmod].
  pose proof (Z.mod_pos_bound N D HD) as Hb.
  unfold truncation. cbn [shr_m shr_r shr_s]. rewrite Hdiv, Hmod, Z.div2_div.
  split; [reflexivity|].
  destruct (Z.odd (N / D)); split;
    repeat match goal with
           | |- context [?a <=? ?b] => destruct (Z.leb_spec a b)
           | |- context [?a =? ?b] => destruct (Z.eqb_spec a b)
           end; cbn; try reflexivity; lia.
Qed.

Lemma pow2_xO (p : positive) : 2 ^ Zpos p~0 = 2 ^ Zpos p * 2 ^ Zpos p.
Proof. rewrite <- Z.pow_add_r by lia. f_equal. lia. Qed.

Lemma pow2_xI (p : positive) : 2 ^ Zpos p~1 = 2 * (2 ^ Zpos p * 2 ^ Zpos p).
Proof.
  rewrite <- Z.pow_add_r, <- Z.pow_succ_r by lia. f_equal. lia.
Qed.

Lemma iter_pos_shr_1_truncation (p : positive) :
  forall (N D : Z) (mrs : shr_record),
    0 <= N -> 0 < D -> truncation N D mrs ->
    truncation N (D * 2 ^ Zpos p) (iter_pos shr_1 p mrs).
Proof.
  induction p as [p IH|p IH|]; intros N D mrs HN HD H; cbn [iter_pos].
  - replace (D * 2 ^ Zpos p~1) with (D * 2 * 2 ^ Zpos p * 2 ^ Zpos p)
      by (rewrite pow2_xI; ring).
    apply IH; [lia| |]. { pose proof (pow2_pos (Zpos p)); nia. }
    apply IH; [lia|lia|]. now apply shr_1_truncation.
  - replace (D * 2 ^ Zpos p~0) with (D * 2 ^ Zpos p * 2 ^ Zpos p)
      by (rewrite pow2_xO; ring).
    apply IH; [lia| |]. { pose proof (pow2_pos (Zpos p)); nia. }
    now apply IH.
  - change (2 ^ 1) with 2. now apply shr_1_truncation.
Qed.

Lemma shr_truncation (N D : Z) (mrs : shr_record) (e n : Z) :
  0 <= N -> 0 < D -> 0 <= n -> truncation N D mrs ->
  truncation N (D * 2 ^ n) (fst (shr mrs e n)) /\ snd (shr mrs e n) = e + n.
Proof.
  intros HN HD Hn H. destruct n as [|p|p]; [| |lia]; cbn [shr fst snd].
  - rewrite Z.mul_1_r. split; [exact H|lia].
  - split; [|reflexivity]. now apply iter_pos_shr_1_truncation.
Qed.

(** the rounding of SpecFloat on a truncation is the rounding of the quotient *)
Lemma round_nearest_even_truncation (N D : Z) (mrs : shr_record) :
  0 < D -> truncation N D mrs ->
  round_nearest_even (shr_m mrs) (loc_of_shr_record mrs) = round_half_even N D.
Proof.
  intros HD (Hm & Hr & Hs). destruct mrs as [m r s]. cbn [shr_m shr_r shr_s] in *.
  pose proof (Z.mod_pos_bound N D HD) as Hb.
  unfold round_half_even. rewrite <- Hm. subst r s.
  destruct (Z.compare_spec (2 * (N mod D)) D) as [He|Hl|Hg];
    repeat match goal with
           | |- context [?a <=? ?b] => destruct (Z.leb_spec a b)
           | |- context [?a =? ?b] => destruct (Z.eqb_spec a b)
           end; cbn; try reflexivity; lia.
Qed.

(** an exact mantissa is its own truncation *)
Lemma truncation_exact (m : Z) :
  truncation m 1 (shr_record_of_loc m loc_Exact).
Proof.
  unfold truncation. cbn. rewrite Z.div_1_r, Z.mod_1_r. auto.
Qed.

(** the location computed by the division *)
Ltac decide_bits :=
  repeat match goal with
         | |- context [?a <=? ?b] => destruct (Z.leb_spec a b)
         | |- context [?a =? ?b] => destruct (Z.eqb_spec a b)
         end;
  cbn; try reflexivity; try lia.

Lemma truncation_new_location (N D : Z) :
  0 <= N -> 0 < D ->
  truncation N D (shr_record_of_loc (N / D) (new_location D (N mod D))).
Proof.
  intros HN HD. pose proof (Z.mod_pos_bound N D HD) as Hb.
  unfold truncation, new_location, new_location_even, new_location_odd.
  destruct (Z.even D) eqn:Hev;
    destruct (Z.eqb_spec (N mod D) 0) as [H0|H0].
  - cbn [shr_record_of_loc shr_m shr_r shr_s]. repeat split; decide_bits.
  - destruct (Z.compare_spec (2 * (N mod D)) D);
      cbn [shr_record_of_loc shr_m shr_r shr_s]; repeat split; decide_bits.
  - cbn [shr_record_of_loc shr_m shr_r shr_s]. repeat split; decide_bits.
  - assert (Hodd : 2 * (N mod D) <> D).
    { intros Heq. rewrite <- Heq, Z.even_mul in Hev. discriminate. }
    destruct (Z.compare_spec (2 * (N mod D) + 1) D);
      cbn [shr_record_of_loc shr_m shr_r shr_s]; repeat split; decide_bits.
Qed.

(** ** The rounding of SpecFloat *)

Lemma binary_round_aux_renormalize (sx : bool) (mx ex : Z) (lx : location) :
  binary_round_aux prec emax sx mx ex lx
  = renormalize sx
      (round_nearest_even (shr_m (fst (shr_fexp prec emax mx ex lx)))
         (loc_of_shr_record (fst (shr_fexp prec emax mx ex lx))))
      (snd (shr_fexp prec emax mx ex lx)).
Proof.
  unfold binary_round_aux, renormalize.
  destruct (shr_fexp prec emax mx ex lx) as [mrs' e']. reflexivity.
Qed.

Ltac unfold_format :=
  unfold fexp, top, unit_exp, emin, SpecFloat.emin, prec, emax in *.

Lemma top_pos : 0 < top.
Proof. reflexivity. Qed.

Lemma pow2_split (a b : Z) : 0 <= a -> 0 <= b -> 2 ^ (a + b) = 2 ^ a * 2 ^ b.
Proof. intros. apply Z.pow_add_r; lia. Qed.

(** a mantissa of at most [prec] bits, or [2^prec] after a carry, at an
    exponent of the format *)
Lemma renormalize_represents (m e : Z) :
  0 <= m <= 2 ^ prec ->
  emin <= e ->
  (emin < e -> 2 ^ (prec - 1) <= m) ->
  represents (renormalize false m e) (Z.min (m * 2 ^ (e - unit_exp)) top).
Proof.
  intros Hm He Hnormal.
  assert (Hu : 0 <= e - unit_exp) by (unfold_format; lia).
  assert (H2e : 0 < 2 ^ (e - unit_exp)) by (apply pow2_pos; lia).
  unfold renormalize, shr_fexp.
  destruct (Z.eq_dec m 0) as [->|Hm0].
  { (* the mantissa vanished *)
    replace (fexp prec emax (Zdigits2 0 + e) - e) with (Z.min 0 (emin - e))
      by (cbn [Zdigits2]; unfold_format; lia).
    assert (Hshr : forall n, n <= 0 -> shr (shr_record_of_loc 0 loc_Exact) e n
                                       = (shr_record_of_loc 0 loc_Exact, e))
      by (intros [|p|p] Hn; try lia; reflexivity).
    rewrite Hshr by lia. cbn.
    unfold represents. cbn. pose proof top_pos. repeat split; lia. }
  assert (Hpos : 0 < m) by lia.
  pose proof (Zdigits2_bounds m Hpos) as Hd.
  pose proof (Zdigits2_pos m Hpos) as Hd0.
  destruct (Z.eq_dec m (2 ^ prec)) as [Hcarry|Hnocarry].
  - (* a carry: one more shift *)
    assert (Hdig : Zdigits2 m = prec + 1).
    { apply Zdigits2_unique; [unfold prec; lia|]. rewrite Hcarry.
      replace (prec + 1 - 1) with prec by lia.
      split; [lia|]. apply pow2_lt. unfold prec. lia. }
    replace (fexp prec emax (Zdigits2 m + e) - e) with 1
      by (rewrite Hdig; unfold_format; lia).
    cbn [shr iter_pos]. rewrite shr_1_nonneg by (destruct m; cbn; lia).
    cbn [shr_m shr_record_of_loc]. rewrite Z.div2_div.
    assert (Hhalf : m / 2 = 2 ^ (prec - 1)) by (rewrite Hcarry; reflexivity).
    rewrite Hhalf. change (2 ^ (prec - 1)) with (Zpos (4503599627370496)).
    assert (Hval : m * 2 ^ (e - unit_exp) = 4503599627370496 * 2 ^ (e + 1 - unit_exp)).
    { replace (e + 1 - unit_exp) with (1 + (e - unit_exp)) by lia.
      rewrite pow2_split by lia. rewrite Hcarry. change (2 ^ prec) with 9007199254740992.
      change (2 ^ 1) with 2. ring. }
    destruct (Z.leb_spec (e + 1) (emax - prec)) as [Hfit|Hover].
    + assert (Hlt : m * 2 ^ (e - unit_exp) < top).
      { rewrite Hcarry. unfold top. rewrite <- pow2_split by (unfold prec; lia).
        apply pow2_lt. unfold_format. lia. }
      unfold represents. rewrite Z.min_l by lia.
      repeat split.
      * unfold valid, valid_binary, bounded, canonical_mantissa.
        apply andb_true_intro. split; [|apply Z.leb_le; exact Hfit].
        apply Z.eqb_eq. cbn [digits2_pos Pos.succ]. unfold_format. lia.
      * cbn [nu]. lia.
      * nia.
      * exact Hlt.
    + assert (Hge : top <= m * 2 ^ (e - unit_exp)).
      { rewrite Hcarry. unfold top. rewrite <- pow2_split by (unfold prec; lia).
        apply pow2_le. unfold_format. lia. }
      unfold represents. rewrite Z.min_r by lia. repeat split.
  - (* no carry: the mantissa is kept *)
    assert (Hlt : m < 2 ^ prec) by lia.
    assert (Hdig : Zdigits2 m <= prec).
    { destruct (Z.le_gt_cases (Zdigits2 m) prec) as [H|H]; [exact H|exfalso].
      pose proof (pow2_le prec (Zdigits2 m - 1) ltac:(unfold prec in *; lia)). lia. }
    assert (Hcanon : fexp prec emax (Zdigits2 m + e) = e).
    { destruct (Z.eq_dec e emin) as [->|Hne]; [unfold_format; lia|].
      assert (Hfull : Zdigits2 m = prec).
      { apply Zdigits2_unique; [unfold prec; lia|]. split; [apply Hnormal; lia|lia]. }
      rewrite Hfull. unfold_format. lia. }
    rewrite Hcanon, Z.sub_diag. cbn [shr shr_m shr_record_of_loc].
    destruct m as [|p|p]; try lia.
    destruct (Z.leb_spec e (emax - prec)) as [Hfit|Hover].
    + assert (Hbelow : Zpos p * 2 ^ (e - unit_exp) < top).
      { apply Z.lt_le_trans with (2 ^ prec * 2 ^ (e - unit_exp)).
        - apply Z.mul_lt_mono_pos_r; lia.
        - unfold top. rewrite <- pow2_split by (unfold prec; lia).
          apply pow2_le. unfold_format. lia. }
      unfold represents. rewrite Z.min_l by lia. repeat split.
      * unfold valid, valid_binary, bounded, canonical_mantissa.
        apply andb_true_intro. split; [|apply Z.leb_le; exact Hfit].
        apply Z.eqb_eq. exact Hcanon.
      * cbn [nu]. nia.
      * exact Hbelow.
    + assert (Hge : top <= Zpos p * 2 ^ (e - unit_exp)).
      { apply Z.le_trans with (2 ^ (prec - 1) * 2 ^ (e - unit_exp)).
        - unfold top. rewrite <- pow2_split by (unfold prec; lia).
          apply pow2_le. unfold_format. lia.
        - apply Z.mul_le_mono_nonneg_r; [lia|]. apply Hnormal. unfold_format. lia. }
      unfold represents. rewrite Z.min_r by lia. repeat split.
Qed.

Lemma shr_m_of_loc (m : Z) (l : location) : shr_m (shr_record_of_loc m l) = m.
Proof. destruct l as [|[| |]]; reflexivity. Qed.

(** [binary_round_aux] on a truncated positive quotient [N / D] at exponent
    [ex] gives the float nearest to [N / D * 2^ex], or infinity when that is
    out of range. *)
Theorem binary_round_aux_nearest (mx ex : Z) (lx : location) (N D : Z) :
  0 < mx -> 0 < D ->
  truncation N D (shr_record_of_loc mx lx) ->
  unit_exp <= ex ->
  ex <= fexp prec emax (Zdigits2 mx + ex) ->
  represents (binary_round_aux prec emax false mx ex lx)
             (Z.min (nearest (N * 2 ^ (ex - unit_exp)) D) top).
Proof.
  intros Hmx HD Htr Hex Hshift.
  assert (Hq : mx = N / D) by (destruct Htr as [H _]; now rewrite shr_m_of_loc in H).
  assert (HN : 0 <= N).
  { destruct (Z.le_gt_cases 0 N) as [H|H]; [exact H|exfalso].
    assert (N / D < 0) by (apply Z.div_lt_upper_bound; lia). lia. }
  pose proof (Z.mul_div_le N D HD) as Hlo.
  pose proof (Z.mul_succ_div_gt N D HD) as Hhi.
  rewrite <- Hq in Hlo, Hhi.
  set (dm := Zdigits2 mx) in *.
  pose proof (Zdigits2_bounds mx Hmx) as Hdm. fold dm in Hdm.
  pose proof (Zdigits2_pos mx Hmx) as Hdm0. fold dm in Hdm0.
  assert (HNlo : 2 ^ (dm - 1) * D <= N) by nia.
  assert (HNhi : N < 2 ^ dm * D) by nia.
  set (e1 := fexp prec emax (dm + ex)) in *.
  set (n := e1 - ex).
  assert (Hn : 0 <= n) by (unfold n; lia).
  assert (He1 : emin <= e1) by (unfold e1; unfold_format; lia).
  assert (H2n : 0 < 2 ^ n) by (apply pow2_pos; lia).
  (* the first shift *)
  rewrite binary_round_aux_renormalize. unfold shr_fexp. fold dm. fold e1. fold n.
  destruct (shr_truncation N D (shr_record_of_loc mx lx) ex n HN HD Hn Htr) as [Ht1 Hs1].
  rewrite Hs1. replace (ex + n) with e1 by (unfold n; lia).
  rewrite (round_nearest_even_truncation N (D * 2 ^ n)) by (try nia; exact Ht1).
  set (m1 := round_half_even N (D * 2 ^ n)).
  (* the same rounding, in units *)
  set (j := ex - unit_exp).
  assert (Hj : 0 <= j) by (unfold j; lia).
  assert (H2j : 0 < 2 ^ j) by (apply pow2_pos; lia).
  assert (Hk : Zdigits2 (N * 2 ^ j / D) = dm + j).
  { apply Zdigits2_unique; [lia|]. split.
    - apply Z.div_le_lower_bound; [lia|].
      replace (dm + j - 1) with ((dm - 1) + j) by lia.
      rewrite pow2_split by lia.
      replace (D * (2 ^ (dm - 1) * 2 ^ j)) with (2 ^ (dm - 1) * D * 2 ^ j) by ring.
      apply Z.mul_le_mono_nonneg_r; lia.
    - apply Z.div_lt_upper_bound; [lia|]. rewrite pow2_split by lia.
      replace (D * (2 ^ dm * 2 ^ j)) with (2 ^ dm * D * 2 ^ j) by ring.
      apply Z.mul_lt_mono_pos_r; lia. }
  assert (Hs : Z.max (dm + j - prec) (emin - unit_exp) = e1 - unit_exp)
    by (unfold e1, j; unfold_format; lia).
  assert (Hnear : nearest (N * 2 ^ j) D = m1 * 2 ^ (e1 - unit_exp)).
  { unfold nearest. rewrite Hk, Hs. f_equal. unfold m1.
    apply round_half_even_ratio.
    - assert (0 < 2 ^ (e1 - unit_exp)) by (apply pow2_pos; unfold_format; lia). nia.
    - nia.
    - replace (e1 - unit_exp) with (j + n) by (unfold j, n; lia).
      rewrite pow2_split by lia. ring. }
  rewrite Hnear.
  (* the size of the rounded mantissa *)
  assert (Hm1 : 0 <= m1).
  { unfold m1. apply round_half_even_ge; nia. }
  apply renormalize_represents; [split; [exact Hm1|] |exact He1|].
  - destruct (Z.le_gt_cases n dm) as [Hnd|Hnd].
    + apply Z.le_trans with (2 ^ (dm - n)).
      * unfold m1. apply round_half_even_le; [nia|].
        replace (2 ^ (dm - n) * (D * 2 ^ n)) with (2 ^ dm * D)
          by (replace dm with ((dm - n) + n) at 1 by lia;
              rewrite pow2_split by lia; ring).
        nia.
      * apply pow2_le. unfold n, e1. unfold_format. lia.
    + apply Z.le_trans with 1; [|unfold prec; lia].
      unfold m1. apply round_half_even_le; [nia|].
      pose proof (pow2_le dm n ltac:(lia)). nia.
  - intros Hnormal.
    assert (Hnp : n = dm - prec) by (unfold n, e1 in *; unfold_format; lia).
    unfold m1. apply round_half_even_ge; [nia|].
    replace (2 ^ (prec - 1) * (D * 2 ^ n)) with (2 ^ (dm - 1) * D); [nia|].
    replace (dm - 1) with ((prec - 1) + n) by lia.
    rewrite pow2_split by (unfold prec in *; lia). ring.
Qed.

(** ** Canonical floats *)

Lemma valid_finite (s : bool) (m : positive) (e : Z) :
  valid (S754_finite s m e) = true ->
  emin <= e <= emax - prec
  /\ Zpos (digits2_pos m) <= prec
  /\ (emin < e -> Zpos (digits2_pos m) = prec)
  /\ fexp prec emax (Zpos (digits2_pos m) + e) = e.
Proof.
  unfold valid, valid_binary, bounded, canonical_mantissa.
  intros H. apply andb_prop in H as [Hc Hb].
  apply Z.eqb_eq in Hc. apply Z.leb_le in Hb.
  split; [|split; [|split]]; try exact Hc; unfold_format; lia.
Qed.

Lemma nu_finite_pos (s : bool) (m : positive) (e : Z) :
  emin <= e -> 0 < nu (S754_finite s m e).
Proof.
  intros He. cbn [nu].
  assert (0 < 2 ^ (e - unit_exp)) by (apply pow2_pos; unfold_format; lia). nia.
Qed.

Lemma nu_finite_lt_top (s : bool) (m : positive) (e : Z) :
  valid (S754_finite s m e) = true -> nu (S754_finite s m e) < top.
Proof.
  intros Hv. destruct (valid_finite s m e Hv) as (He & Hd & _ & _).
  pose proof (digits2_pos_bounds m) as Hm. cbn [nu].
  assert (H2 : 0 < 2 ^ (e - unit_exp)) by (apply pow2_pos; unfold_format; lia).
  apply Z.lt_le_trans with (2 ^ prec * 2 ^ (e - unit_exp)).
  - apply Z.mul_lt_mono_pos_r; [exact H2|].
    pose proof (pow2_le (Zpos (digits2_pos m)) prec ltac:(lia)). lia.
  - unfold top. rewrite <- pow2_split by (unfold_format; lia).
    apply pow2_le. unfold_format. lia.
Qed.

(** a valid float that is not negative represents its magnitude *)
Lemma represents_nu (x : float) :
  valid x = true -> nonneg x = true ->
  (forall s, x = S754_zero s -> s = false) ->
  represents x (nu x).
Proof.
  intros Hv Hn Hz. unfold represents. repeat split; try assumption.
  destruct x as [s|s| |s m e]; auto.
  destruct (valid_finite s m e Hv) as (He & _).
  split; [apply nu_finite_pos; lia|now apply nu_finite_lt_top].
Qed.

Lemma represents_finite (x : float) (v : Z) :
  represents x v -> 0 < v < top ->
  exists m e, x = S754_finite false m e.
Proof.
  intros (Hv & Hn & Hnu & Hx) Hr.
  destruct x as [s|[|]| |[|] m e]; cbn [nonneg negb] in Hn; cbn [nu] in Hnu;
    try discriminate Hn; try lia.
  eauto.
Qed.

Lemma represents_zero (x : float) : represents x 0 -> x = S754_zero false.
Proof.
  intros (Hv & Hn & Hnu & Hx).
  destruct x as [s|s| |s m e]; cbn [nonneg negb] in Hn; cbn [nu] in Hnu;
    try discriminate Hn.
  - now subst.
  - pose proof top_pos. lia.
  - lia.
Qed.

Lemma represents_top (x : float) : represents x top -> x = S754_infinity false.
Proof.
  intros (Hv & Hn & Hnu & Hx).
  destruct x as [s|[|]| |s m e]; cbn [nonneg negb] in Hn; cbn [nu] in Hnu;
    try discriminate Hn; try reflexivity.
  - pose proof top_pos. lia.
  - lia.
Qed.

(** ** Shifting a mantissa to the left *)

Lemma iter_xO (m d : positive) : Zpos (Pos.iter xO m d) = Zpos m * 2 ^ Zpos d.
Proof.
  induction d as [|d IH] using Pos.peano_ind.
  - cbn [Pos.iter]. rewrite Pos2Z.inj_xO. change (2 ^ 1) with 2. lia.
  - rewrite Pos.iter_succ, Pos2Z.inj_xO, IH, Pos2Z.inj_succ, Z.pow_succ_r by lia. ring.
Qed.

Lemma shl_align_value (m : positive) (e e' : Z) :
  e' <= e ->
  Zpos (fst (shl_align m e e')) = Zpos m * 2 ^ (e - e')
  /\ snd (shl_align m e e') = e'.
Proof.
  intros H. unfold shl_align.
  destruct (e' - e) as [|d|d] eqn:Hd; cbn [fst snd]; try lia.
  - replace (e - e') with 0 by lia. split; lia.
  - rewrite iter_xO. replace (e - e') with (Zpos d) by lia. auto.
Qed.

Lemma shl_align_keep (m : positive) (e e' : Z) :
  e <= e' -> shl_align m e e' = (m, e).
Proof.
  intros H. unfold shl_align. destruct (e' - e) eqn:Hd; try reflexivity. lia.
Qed.

Lemma Zdigits2_shift (m k : Z) :
  0 < m -> 0 <= k -> Zdigits2 (m * 2 ^ k) = Zdigits2 m + k.
Proof.
  intros Hm Hk. pose proof (Zdigits2_bounds m Hm) as Hb.
  pose proof (Zdigits2_pos m Hm) as Hd.
  assert (H2k : 0 < 2 ^ k) by (apply pow2_pos; lia).
  apply Zdigits2_unique; [lia|].
  replace (Zdigits2 m + k - 1) with ((Zdigits2 m - 1) + k) by lia.
  rewrite !pow2_split by lia. nia.
Qed.

(** [binary_round] gives the float nearest to [m * 2^e] *)
Theorem binary_round_nearest (m : positive) (e : Z) :
  emin <= e ->
  represents (binary_round prec emax false m e)
             (Z.min (nearest (Zpos m * 2 ^ (e - unit_exp)) 1) top).
Proof.
  intros He. unfold binary_round.
  set (e' := fexp prec emax (Zpos (digits2_pos m) + e)).
  assert (He' : emin <= e') by (unfold e'; unfold_format; lia).
  destruct (Z.le_gt_cases e e') as [Hle|Hgt].
  - rewrite shl_align_keep by exact Hle.
    replace (Zpos m * 2 ^ (e - unit_exp)) with (Zpos m * 1 * 2 ^ (e - unit_exp)) by ring.
    rewrite Z.mul_1_r.
    apply binary_round_aux_nearest; try lia.
    + apply truncation_exact.
    + unfold_format. lia.
    + exact Hle.
  - destruct (shl_align_value m e e' ltac:(lia)) as [Hm Hs].
    destruct (shl_align m e e') as [mz ez]. cbn [fst snd] in Hm, Hs. subst ez.
    replace (Zpos m * 2 ^ (e - unit_exp)) with (Zpos mz * 2 ^ (e' - unit_exp)).
    + apply binary_round_aux_nearest; try lia.
      * apply truncation_exact.
      * unfold_format. lia.
      * rewrite Hm, Zdigits2_shift by lia. cbn [Zdigits2].
        replace (Zpos (digits2_pos m) + (e - e') + e') with (Zpos (digits2_pos m) + e) by lia.
        fold e'. lia.
    + rewrite Hm, <- Z.mul_assoc, <- pow2_split by (unfold_format; lia).
      do 2 f_equal. lia.
Qed.

(** ** The three operations on positive floats *)

Theorem fadd_nearest (mx my : positive) (ex ey : Z) :
  valid (S754_finite false mx ex) = true ->
  valid (S754_finite false my ey) = true ->
  represents (fadd (S754_finite false mx ex) (S754_finite false my ey))
             (Z.min (nearest (nu (S754_finite false mx ex) + nu (S754_finite false my ey)) 1)
                    top).
Proof.
  intros Hx Hy.
  destruct (valid_finite _ _ _ Hx) as (Hex & _).
  destruct (valid_finite _ _ _ Hy) as (Hey & _).
  unfold fadd, SFadd. cbn [cond_Zopp].
  set (ez := Z.min ex ey).
  destruct (shl_align_value mx ex ez ltac:(lia)) as [Hax _].
  destruct (shl_align_value my ey ez ltac:(lia)) as [Hay _].
  set (ax := fst (shl_align mx ex ez)) in *.
  set (ay := fst (shl_align my ey ez)) in *.
  change (Zpos ax + Zpos ay) with (Zpos (ax + ay)).
  cbn [binary_normalize].
  replace (nu (S754_finite false mx ex) + nu (S754_finite false my ey))
    with (Zpos (ax + ay) * 2 ^ (ez - unit_exp)).
  - apply binary_round_nearest. lia.
  - rewrite Pos2Z.inj_add, Hax, Hay. cbn [nu].
    rewrite Z.mul_add_distr_r, <- !Z.mul_assoc, <- !pow2_split
      by (unfold_format; lia).
    replace (ex - ez + (ez - unit_exp)) with (ex - unit_exp) by lia.
    replace (ey - ez + (ez - unit_exp)) with (ey - unit_exp) by lia.
    reflexivity.
Qed.

Theorem fmul_nearest (mx my : positive) (ex ey : Z) :
  valid (S754_finite false mx ex) = true ->
  valid (S754_finite false my ey) = true ->
  represents (fmul (S754_finite false mx ex) (S754_finite false my ey))
             (Z.min (nearest (nu (S754_finite false mx ex) * nu (S754_finite false my ey))
                             (2 ^ (- unit_exp)))
                    top).
Proof.
  intros Hx Hy.
  destruct (valid_finite _ _ _ Hx) as (Hex & Hdx & Hnx & _).
  destruct (valid_finite _ _ _ Hy) as (Hey & Hdy & Hny & _).
  pose proof (digits2_pos_bounds mx) as Hbx.
  pose proof (digits2_pos_bounds my) as Hby.
  unfold fmul, SFmul. cbn [xorb].
  assert (H2u : 0 < 2 ^ (- unit_exp)) by (apply pow2_pos; unfold_format; lia).
  assert (H2x : 0 < 2 ^ (ex - unit_exp)) by (apply pow2_pos; unfold_format; lia).
  assert (H2y : 0 < 2 ^ (ey - unit_exp)) by (apply pow2_pos; unfold_format; lia).
  rewrite (nearest_ratio _ (2 ^ (- unit_exp))
             (Zpos (mx * my) * 1 * 2 ^ (ex + ey - unit_exp)) 1).
  - rewrite Z.mul_1_r.
    replace (Zpos (mx * my) * 2 ^ (ex + ey - unit_exp))
      with (Zpos (mx * my) * 1 * 2 ^ (ex + ey - unit_exp)) by ring.
    rewrite Z.mul_1_r at 1.
    apply binary_round_aux_nearest; try lia.
    + apply truncation_exact.
    + unfold_format. lia.
    + (* the product has enough digits *)
      set (dx := Zpos (digits2_pos mx)) in *.
      set (dy := Zpos (digits2_pos my)) in *.
      assert (Hd : dx + dy - 1 <= Zdigits2 (Zpos (mx * my))).
      { apply Zdigits2_lower; [|lia].
        replace (dx + dy - 1 - 1) with ((dx - 1) + (dy - 1)) by lia.
        rewrite pow2_split, Pos2Z.inj_mul by lia.
        apply Z.mul_le_mono_nonneg; try lia; apply Z.lt_le_incl, pow2_pos; lia. }
      clear - Hd Hex Hey Hdx Hdy Hnx Hny. unfold_format. lia.
  - cbn [nu]. apply Z.mul_nonneg_nonneg; apply Z.mul_nonneg_nonneg; lia.
  - exact H2u.
  - lia.
  - cbn [nu]. rewrite Pos2Z.inj_mul, !Z.mul_1_r.
    assert (H0 : 2 ^ (ex + ey - unit_exp) * 2 ^ (- unit_exp)
                 = 2 ^ (ex - unit_exp) * 2 ^ (ey - unit_exp)).
    { rewrite <- !pow2_split by (unfold_format; lia). f_equal. lia. }
    transitivity (Zpos mx * Zpos my * (2 ^ (ex - unit_exp) * 2 ^ (ey - unit_exp)));
      [ring|rewrite <- H0; ring].
Qed.

Lemma SFdiv_core_binary_eq (m1 m2 : positive) (e1 e2 : Z) :
  let e' := Z.min (fexp prec emax (Zpos (digits2_pos m1) + e1 - (Zpos (digits2_pos m2) + e2)))
                  (e1 - e2) in
  let s := e1 - e2 - e' in
  SFdiv_core_binary prec emax (Zpos m1) e1 (Zpos m2) e2
  = (Zpos m1 * 2 ^ s / Zpos m2, e', new_location (Zpos m2) ((Zpos m1 * 2 ^ s) mod Zpos m2)).
Proof.
  intros e' s. unfold SFdiv_core_binary. cbn [Zdigits2]. fold e'. fold s.
  assert (Hs : 0 <= s) by (unfold s, e'; lia).
  assert (Hm : forall s0, 0 <= s0 ->
                 match s0 with
                 | 0 => Zpos m1
                 | Zpos _ => Z.shiftl (Zpos m1) s0
                 | Zneg _ => 0
                 end = Zpos m1 * 2 ^ s0).
  { intros [|p|p] H0; try lia.
    rewrite Z.shiftl_mul_pow2 by lia. reflexivity. }
  rewrite (Hm s Hs). unfold Z.div, Z.modulo.
  destruct (Z.div_eucl (Zpos m1 * 2 ^ s) (Zpos m2)) as [q r]. reflexivity.
Qed.

Theorem fdiv_nearest (mx my : positive) (ex ey : Z) :
  valid (S754_finite false mx ex) = true ->
  valid (S754_finite false my ey) = true ->
  nu (S754_finite false my ey) <= nu (S754_finite false mx ex) * 2 ^ (- emin) ->
  represents (fdiv (S754_finite false mx ex) (S754_finite false my ey))
             (Z.min (nearest (nu (S754_finite false mx ex) * 2 ^ (- unit_exp))
                             (nu (S754_finite false my ey)))
                    top).
Proof.
  intros Hx Hy Hsmall.
  destruct (valid_finite _ _ _ Hx) as (Hex & Hdx & Hnx & _).
  destruct (valid_finite _ _ _ Hy) as (Hey & Hdy & Hny & _).
  pose proof (digits2_pos_bounds mx) as Hbx.
  pose proof (digits2_pos_bounds my) as Hby.
  unfold fdiv, SFdiv. rewrite SFdiv_core_binary_eq. cbn [xorb].
  set (dx := Zpos (digits2_pos mx)) in *.
  set (dy := Zpos (digits2_pos my)) in *.
  set (e' := Z.min (fexp prec emax (dx + ex - (dy + ey))) (ex - ey)).
  set (s := ex - ey - e').
  assert (Hs : 0 <= s) by (unfold s, e'; lia).
  assert (H2s : 0 < 2 ^ s) by (apply pow2_pos; lia).
  assert (He'u : unit_exp <= e') by (unfold e'; unfold_format; lia).
  assert (H2x : 0 < 2 ^ (ex - unit_exp)) by (apply pow2_pos; unfold_format; lia).
  assert (H2y : 0 < 2 ^ (ey - unit_exp)) by (apply pow2_pos; unfold_format; lia).
  assert (H2u : 0 < 2 ^ (- unit_exp)) by (apply pow2_pos; unfold_format; lia).
  assert (H2e' : 0 < 2 ^ (e' - unit_exp)) by (apply pow2_pos; lia).
  (* the quotient of the mantissas is large enough *)
  assert (Hq : (emin < e' -> 2 ^ (prec - 1) * Zpos my <= Zpos mx * 2 ^ s)
               /\ (e' <= emin -> Zpos my <= Zpos mx * 2 ^ s)).
  { split.
    - intros Hn.
      assert (Hs' : prec - dx + dy <= s) by (unfold s, e' in *; unfold_format; lia).
      apply Z.le_trans with (2 ^ (prec - 1) * 2 ^ dy);
        [apply Z.mul_le_mono_nonneg_l; [apply Z.lt_le_incl, pow2_pos; unfold prec|]; lia|].
      apply Z.le_trans with (2 ^ (dx - 1) * 2 ^ s);
        [|apply Z.mul_le_mono_nonneg_r; lia].
      rewrite <- !pow2_split by (unfold prec in *; lia).
      apply pow2_le. unfold prec in *. lia.
    - intros Hsub. cbn [nu] in Hsmall.
      set (t := ex - ey - emin).
      assert (Hst : t <= s) by (unfold t, s; lia).
      destruct (Z.le_gt_cases 0 t) as [Ht|Ht].
      + assert (Hle : Zpos my <= Zpos mx * 2 ^ t).
        { apply Z.mul_le_mono_pos_r with (2 ^ (ey - unit_exp)); [exact H2y|].
          rewrite <- Z.mul_assoc, <- pow2_split by (unfold_format; lia).
          replace (t + (ey - unit_exp)) with ((ex - unit_exp) + - emin) by (unfold t; lia).
          rewrite pow2_split by (unfold_format; lia). lia. }
        apply Z.le_trans with (Zpos mx * 2 ^ t); [exact Hle|].
        apply Z.mul_le_mono_nonneg_l; [lia|]. apply pow2_le. lia.
      + assert (Hle : Zpos my * 2 ^ (- t) <= Zpos mx).
        { apply Z.mul_le_mono_pos_r with (2 ^ ((ex - unit_exp) + - emin));
            [apply pow2_pos; unfold_format; lia|].
          rewrite <- Z.mul_assoc, <- pow2_split by (unfold_format; lia).
          replace (- t + ((ex - unit_exp) + - emin)) with (ey - unit_exp) by (unfold t; lia).
          rewrite pow2_split by (unfold_format; lia). lia. }
        assert (H2t : 1 <= 2 ^ (- t)) by (apply (pow2_le 0); lia).
        assert (H2s1 : 1 <= 2 ^ s) by (apply (pow2_le 0); lia).
        apply Z.le_trans with (Zpos my * 2 ^ (- t));
          [rewrite <- (Z.mul_1_r (Zpos my)) at 1; apply Z.mul_le_mono_nonneg_l; lia|].
        apply Z.le_trans with (Zpos mx); [exact Hle|].
        rewrite <- (Z.mul_1_r (Zpos mx)) at 1. apply Z.mul_le_mono_nonneg_l; lia. }
  destruct Hq as [Hqn Hqs].
  assert (Hq1 : 0 < Zpos mx * 2 ^ s / Zpos my).
  { apply Z.div_str_pos. split; [lia|].
    destruct (Z.le_gt_cases e' emin) as [H|H]; [now apply Hqs|].
    specialize (Hqn H). assert (H2p : 1 <= 2 ^ (prec - 1)) by (unfold prec; lia).
    apply Z.le_trans with (2 ^ (prec - 1) * Zpos my); [|exact Hqn].
    rewrite <- (Z.mul_1_l (Zpos my)) at 1. apply Z.mul_le_mono_nonneg_r; lia. }
  rewrite (nearest_ratio _ _ (Zpos mx * 2 ^ s * 2 ^ (e' - unit_exp)) (Zpos my)).
  - apply binary_round_aux_nearest; try lia.
    + apply truncation_new_location; [apply Z.mul_nonneg_nonneg|]; lia.
    + destruct (Z.le_gt_cases e' emin) as [H|H]; [unfold_format; lia|].
      specialize (Hqn H).
      assert (Hdq : prec <= Zdigits2 (Zpos mx * 2 ^ s / Zpos my)).
      { apply Zdigits2_lower; [|exact Hq1].
        apply Z.div_le_lower_bound; [lia|].
        rewrite Z.mul_comm. exact Hqn. }
      clear - Hdq H. unfold_format. lia.
  - cbn [nu]. apply Z.mul_nonneg_nonneg; [apply Z.mul_nonneg_nonneg|]; lia.
  - cbn [nu]. apply Z.mul_pos_pos; lia.
  - lia.
  - cbn [nu].
    assert (H0 : 2 ^ (ex - unit_exp) * 2 ^ (- unit_exp)
                 = 2 ^ s * 2 ^ (e' - unit_exp) * 2 ^ (ey - unit_exp)).
    { rewrite <- !pow2_split by (unfold_format; lia). f_equal. unfold s. lia. }
    replace (Zpos mx * 2 ^ (ex - unit_exp) * 2 ^ (- unit_exp) * Zpos my)
      with (Zpos mx * Zpos my * (2 ^ (ex - unit_exp) * 2 ^ (- unit_exp))) by ring.
    rewrite H0. ring.
Qed.

(** ** The relevance score *)

Lemma one_finite : one = S754_finite false 4503599627370496 (-52).
Proof. reflexivity. Qed.

Lemma hundred_finite : hundred = S754_finite false 7036874417766400 (-46).
Proof. reflexivity. Qed.

Lemma nu_one_eq : nu one = nu_one.
Proof. reflexivity. Qed.

Lemma nu_hundred_eq : nu hundred = nu_hundred.
Proof. reflexivity. Qed.

Lemma nu_valid_le_max (s : bool) (m : positive) (e : Z) :
  valid (S754_finite s m e) = true -> nu (S754_finite s m e) <= nu_max.
Proof.
  intros Hv. destruct (valid_finite s m e Hv) as (He & Hd & _ & _).
  pose proof (digits2_pos_bounds m) as Hm. cbn [nu]. unfold nu_max.
  pose proof (pow2_le (Zpos (digits2_pos m)) prec ltac:(lia)).
  assert (0 < 2 ^ (e - unit_exp)) by (apply pow2_pos; unfold_format; lia).
  pose proof (pow2_le (e - unit_exp) (emax - prec - unit_exp)
                ltac:(unfold_format; lia)).
  apply Z.le_trans with ((2 ^ prec - 1) * 2 ^ (e - unit_exp)).
  - apply Z.mul_le_mono_nonneg_r; lia.
  - apply Z.mul_le_mono_nonneg_l; [unfold prec|]; lia.
Qed.

(** what [format_1f] shows for a float, from its magnitude *)
Lemma tenths_nu (m : positive) (e : Z) :
  unit_exp <= e ->
  tenths m e = round_half_even (10 * nu (S754_finite false m e)) (2 ^ (- unit_exp)).
Proof.
  intros He. cbn [nu].
  assert (H2u : 0 < 2 ^ (- unit_exp)) by (apply pow2_pos; unfold_format; lia).
  unfold tenths. destruct e as [|p|p].
  - replace (0 - unit_exp) with (- unit_exp) by lia.
    rewrite Z.pow_0_r, Z.mul_1_r.
    replace (10 * (Zpos m * 2 ^ (- unit_exp))) with (10 * Zpos m * 2 ^ (- unit_exp)) by ring.
    now rewrite round_half_even_exact.
  - replace (Zpos p - unit_exp) with (Zpos p + - unit_exp) by lia.
    rewrite pow2_split by (unfold_format; lia).
    replace (10 * (Zpos m * (2 ^ Zpos p * 2 ^ (- unit_exp))))
      with (10 * Zpos m * 2 ^ Zpos p * 2 ^ (- unit_exp)) by ring.
    now rewrite round_half_even_exact.
  - apply round_half_even_ratio; [apply pow2_pos; lia|exact H2u|].
    replace (- unit_exp) with ((Zneg p - unit_exp) + Zpos p) by lia.
    rewrite pow2_split by lia. ring.
Qed.

Lemma nearest_pos_lower (P Q : Z) (lo : Z) :
  0 <= lo -> 0 < Q -> lo * Q <= P -> nearest lo 1 <= nearest P Q.
Proof. intros. apply nearest_monotone; lia. Qed.

(** the rounded sum, quotient and product stay within the format *)
Lemma sum_bounds (v : Z) :
  0 <= v <= nu_max ->
  nu_one <= nearest (nu_one + v) 1 <= nu_max.
Proof.
  intros Hv. assert (H1 : 0 < nu_one) by reflexivity. split.
  - apply Z.le_trans with (nearest nu_one 1); [vm_compute; discriminate|].
    apply nearest_monotone; lia.
  - apply Z.le_trans with (nearest (nu_one + nu_max) 1); [|vm_compute; discriminate].
    apply nearest_monotone; lia.
Qed.

Lemma quotient_bounds (a : Z) :
  nu_one <= a <= nu_max ->
  2 ^ (- emin) <= nearest (nu_one * nu_one) a <= nu_one.
Proof.
  intros Ha. assert (H1 : 0 < nu_one) by reflexivity.
  assert (Hmax : 0 < nu_max) by reflexivity.
  split.
  - apply Z.le_trans with (nearest (nu_one * nu_one) nu_max); [vm_compute; discriminate|].
    apply nearest_monotone; nia.
  - apply Z.le_trans with (nearest (nu_one * nu_one) nu_one); [|vm_compute; discriminate].
    apply nearest_monotone; nia.
Qed.

Lemma product_bounds (b : Z) :
  2 ^ (- emin) <= b <= nu_one ->
  2 ^ (- emin) <= nearest (100 * b) 1 <= nu_hundred.
Proof.
  intros Hb. assert (H1 : 0 < 2 ^ (- emin)) by reflexivity. split.
  - apply Z.le_trans with (nearest (100 * 2 ^ (- emin)) 1); [vm_compute; discriminate|].
    apply nearest_monotone; lia.
  - apply Z.le_trans with (nearest (100 * nu_one) 1); [|vm_compute; discriminate].
    apply nearest_monotone; lia.
Qed.

Lemma nu_max_lt_top : nu_max < top.
Proof. reflexivity. Qed.

(** a represented magnitude strictly inside the range is a finite float *)
Lemma represents_inside (x : float) (v : Z) :
  represents x (Z.min v top) -> 0 < v < top ->
  exists m e, x = S754_finite false m e
              /\ valid (S754_finite false m e) = true
              /\ nu (S754_finite false m e) = v.
Proof.
  intros Hr Hv. rewrite Z.min_l in Hr by lia.
  destruct (represents_finite x v Hr Hv) as (m & e & ->).
  destruct Hr as (Hvalid & _ & Hnu & _). eauto.
Qed.

(** the score of a positive finite distance, step by step *)
Theorem relevance_finite (m : positive) (e : Z) :
  valid (S754_finite false m e) = true ->
  relevance (S754_finite false m e)
  = Ok (render_tenths false (score_tenths (nu (S754_finite false m e))) ++ "%").
Proof.
  intros Hv. set (d := S754_finite false m e) in *.
  assert (Hd : 0 <= nu d <= nu_max).
  { split; [|now apply nu_valid_le_max].
    destruct (valid_finite _ _ _ Hv) as (He & _).
    pose proof (nu_finite_pos false m e ltac:(lia)). fold d in H. lia. }
  pose proof nu_max_lt_top as Htop.
  assert (H1 : 0 < nu_one) by reflexivity.
  assert (Hmin : 0 < 2 ^ (- emin)) by reflexivity.
  assert (H100 : nu_hundred < top) by reflexivity.
  assert (H1top : nu_one < top) by reflexivity.
  (* 1 + d *)
  set (va := nearest (nu_one + nu d) 1).
  pose proof (sum_bounds (nu d) Hd) as Hva. fold va in Hva.
  pose proof (fadd_nearest 4503599627370496 m (-52) e eq_refl Hv) as Hadd.
  change (S754_finite false 4503599627370496 (-52)) with one in Hadd.
  fold d in Hadd. rewrite nu_one_eq in Hadd. fold va in Hadd.
  destruct (represents_inside _ _ Hadd ltac:(lia)) as (ma & ea & Ea & Hvalid_a & Hnu_a).
  (* 1 / (1 + d) *)
  set (vb := nearest (nu_one * nu_one) va).
  pose proof (quotient_bounds va Hva) as Hvb. fold vb in Hvb.
  assert (Hsmall : nu (S754_finite false ma ea)
                   <= nu (S754_finite false 4503599627370496 (-52)) * 2 ^ (- emin)).
  { rewrite Hnu_a. apply Z.le_trans with nu_max; [lia|]. vm_compute. discriminate. }
  pose proof (fdiv_nearest 4503599627370496 ma (-52) ea eq_refl Hvalid_a Hsmall) as Hdiv.
  change (S754_finite false 4503599627370496 (-52)) with one in Hdiv.
  rewrite nu_one_eq, Hnu_a in Hdiv.
  change (2 ^ (- unit_exp)) with nu_one in Hdiv. fold vb in Hdiv.
  destruct (represents_inside _ _ Hdiv ltac:(lia)) as (mb & eb & Eb & Hvalid_b & Hnu_b).
  (* ... * 100 *)
  set (vc := nearest (100 * vb) 1).
  pose proof (product_bounds vb Hvb) as Hvc. fold vc in Hvc.
  pose proof (fmul_nearest mb 7036874417766400 eb (-46) Hvalid_b eq_refl) as Hmul.
  change (S754_finite false 7036874417766400 (-46)) with hundred in Hmul.
  rewrite nu_hundred_eq, Hnu_b in Hmul.
  rewrite (nearest_ratio (vb * nu_hundred) (2 ^ (- unit_exp)) (100 * vb) 1) in Hmul;
    [|unfold nu_hundred; nia|reflexivity|lia|unfold nu_hundred; ring].
  fold vc in Hmul.
  destruct (represents_inside _ _ Hmul ltac:(lia)) as (mc & ec & Ec & Hvalid_c & Hnu_c).
  (* the program *)
  unfold relevance. cbv zeta. rewrite Ea. cbn [is_zero].
  rewrite Eb, Ec. cbn [format_1f].
  destruct (valid_finite _ _ _ Hvalid_c) as (Hec & _).
  rewrite tenths_nu by (unfold_format; lia). rewrite Hnu_c.
  change (2 ^ (- unit_exp)) with nu_one.
  unfold score_tenths. cbv zeta. reflexivity.
Qed.

Lemma nearest_nonneg (P Q : Z) : 0 <= P -> 0 < Q -> 0 <= nearest P Q.
Proof.
  intros HP HQ. unfold nearest.
  set (s := Z.max (Zdigits2 (P / Q) - prec) (emin - unit_exp)).
  assert (Hs : 0 <= s) by (apply shift_bounds, Zdigits2_nonneg).
  assert (H2s : 0 < 2 ^ s) by (apply pow2_pos; lia).
  apply Z.mul_nonneg_nonneg; [|lia].
  apply round_half_even_ge; nia.
Qed.

(** a larger distance never has a larger score *)
Theorem score_tenths_antitone (v1 v2 : Z) :
  0 <= v1 <= v2 -> score_tenths v2 <= score_tenths v1.
Proof.
  intros Hv. unfold score_tenths. cbv zeta.
  assert (H1 : 0 < nu_one) by reflexivity.
  set (a1 := nearest (nu_one + v1) 1). set (a2 := nearest (nu_one + v2) 1).
  assert (Ha : nu_one <= a1 <= a2).
  { split.
    - apply Z.le_trans with (nearest nu_one 1); [vm_compute; discriminate|].
      apply nearest_monotone; lia.
    - apply nearest_monotone; lia. }
  set (b1 := nearest (nu_one * nu_one) a1). set (b2 := nearest (nu_one * nu_one) a2).
  assert (Hb : 0 <= b2 <= b1).
  { split; [apply nearest_nonneg; nia|apply nearest_monotone; nia]. }
  set (c1 := nearest (100 * b1) 1). set (c2 := nearest (100 * b2) 1).
  assert (Hc : 0 <= c2 <= c1).
  { split; [apply nearest_nonneg; lia|apply nearest_monotone; lia]. }
  apply round_half_even_monotone; nia.
Qed.

Lemma score_tenths_range (v : Z) : 0 <= v -> 0 <= score_tenths v <= 1000.
Proof.
  intros Hv. split.
  - unfold score_tenths. cbv zeta. assert (H1 : 0 < nu_one) by reflexivity.
    apply round_half_even_ge; [exact H1|].
    assert (Ha : 0 < nearest (nu_one + v) 1).
    { apply Z.lt_le_trans with (nearest nu_one 1); [reflexivity|].
      apply nearest_monotone; lia. }
    assert (Hb : 0 <= nearest (nu_one * nu_one) (nearest (nu_one + v) 1))
      by (apply nearest_nonneg; nia).
    pose proof (nearest_nonneg (100 * nearest (nu_one * nu_one) (nearest (nu_one + v) 1)) 1
                  ltac:(lia) ltac:(lia)).
    lia.
  - apply Z.le_trans with (score_tenths 0); [|vm_compute; discriminate].
    apply score_tenths_antitone. lia.
Qed.

(** two canonical positive floats compare as their magnitudes *)
Lemma compare_finite_nu (mx my : positive) (ex ey : Z) :
  valid (S754_finite false mx ex) = true ->
  valid (S754_finite false my ey) = true ->
  fleb (S754_finite false mx ex) (S754_finite false my ey) = true ->
  Zpos mx * 2 ^ (ex - unit_exp) <= Zpos my * 2 ^ (ey - unit_exp).
Proof.
  intros Hx Hy Hle. cbn in Hle.
  destruct (valid_finite _ _ _ Hx) as (Hex & Hdx & Hnx & _).
  destruct (valid_finite _ _ _ Hy) as (Hey & Hdy & Hny & _).
  pose proof (digits2_pos_bounds mx) as Hbx.
  pose proof (digits2_pos_bounds my) as Hby.
  assert (H2x : 0 < 2 ^ (ex - unit_exp)) by (apply pow2_pos; unfold_format; lia).
  destruct (Z.compare_spec ex ey) as [He|He|He]; try discriminate Hle.
  - subst ey. apply Z.mul_le_mono_nonneg_r; [lia|].
    change (Pos.compare_cont Eq mx my) with (Pos.compare mx my) in Hle.
    destruct (Pos.compare_spec mx my); try discriminate Hle; lia.
  - rewrite (Hny ltac:(lia)) in Hby.
    apply Z.le_trans with (2 ^ prec * 2 ^ (ex - unit_exp)).
    + apply Z.mul_le_mono_nonneg_r; [lia|].
      pose proof (pow2_le (Zpos (digits2_pos mx)) prec ltac:(lia)). lia.
    + apply Z.le_trans with (2 ^ (prec - 1) * 2 ^ (ey - unit_exp)).
      * rewrite <- !pow2_split by (unfold_format; lia).
        apply pow2_le. unfold_format. lia.
      * apply Z.mul_le_mono_nonneg_r; [|lia].
        apply Z.lt_le_incl, pow2_pos. unfold_format. lia.
Qed.

(** the order of floats is the order of their magnitudes *)
Lemma fleb_nu (x y : float) :
  valid x = true -> valid y = true -> nonneg x = true -> fleb x y = true ->
  nonneg y = true /\ nu x <= nu y.
Proof.
  intros Hx Hy Hn Hle. pose proof top_pos as Htop.
  destruct x as [sx|[|]| |[|] mx ex]; cbn [nonneg negb] in Hn; try discriminate Hn;
    destruct y as [sy|[|]| |[|] my ey]; try discriminate Hle;
    cbn [nonneg negb nu]; (split; [reflexivity|]); try lia.
  - pose proof (nu_finite_lt_top _ _ _ Hx) as H. cbn [nu] in H. lia.
  - now apply compare_finite_nu.
Qed.

(** the score at the ends of the range *)
Lemma relevance_zero (s : bool) : relevance (S754_zero s) = Ok "100.0%".
Proof. destruct s; reflexivity. Qed.

Lemma relevance_infinity : relevance infinity = Ok "0.0%".
Proof. reflexivity. Qed.

(** every distance that is not negative has a score, the one computed from
    its magnitude *)
Theorem relevance_nonneg (d : float) :
  valid d = true -> nonneg d = true ->
  relevance d = Ok (render_tenths false (score_tenths (nu d)) ++ "%").
Proof.
  intros Hv Hn. destruct d as [s|[|]| |[|] m e]; try discriminate Hn.
  - rewrite relevance_zero. cbn [nu]. vm_compute. reflexivity.
  - change (S754_infinity false) with infinity. rewrite relevance_infinity.
    vm_compute. reflexivity.
  - now apply relevance_finite.
Qed.

(** the score never increases with the distance, and stays between 0 and 100 *)
Theorem relevance_order (d1 d2 : float) :
  valid d1 = true -> valid d2 = true -> nonneg d1 = true -> fleb d1 d2 = true ->
  exists t1 t2,
    relevance d1 = Ok (render_tenths false t1 ++ "%")
    /\ relevance d2 = Ok (render_tenths false t2 ++ "%")
    /\ 0 <= t2 <= t1 /\ t1 <= 1000.
Proof.
  intros Hv1 Hv2 Hn1 Hle.
  destruct (fleb_nu d1 d2 Hv1 Hv2 Hn1 Hle) as [Hn2 Hnu].
  assert (H0 : 0 <= nu d1).
  { pose proof top_pos. destruct d1 as [s|s| |s m e]; cbn [nu]; lia. }
  exists (score_tenths (nu d1)), (score_tenths (nu d2)).
  rewrite !relevance_nonneg by assumption.
  pose proof (score_tenths_antitone (nu d1) (nu d2) ltac:(lia)).
  pose proof (score_tenths_range (nu d1) H0).
  pose proof (score_tenths_range (nu d2) ltac:(lia)).
  repeat split; lia.
Qed.

(** C4 as the specification words it fails: the score is not strictly
    decreasing, two distances can be shown the same percentage. *)
Lemma strictly_decreasing_counterexample :
  valid one = true /\ valid one_and_a_thousandth = true
  /\ fltb one one_and_a_thousandth = true
  /\ relevance one = Ok "50.0%"
  /\ relevance one_and_a_thousandth = Ok "50.0%".
Proof. repeat split; vm_compute; reflexivity. Qed.

(** C4, as amended: the score of distance 0.0 is "100.0%", the score of 1.0
    is "50.0%", and the score never increases with the distance: for
    distances [0 <= d1 <= d2] the percentage shown for [d2] is at most the one
    shown for [d1], and both lie between 0.0 and 100.0. *)
Theorem relevance_endpoints_and_monotone (d1 d2 : float)
    (Hvalid1 : valid d1 = true) (Hvalid2 : valid d2 = true)
    (Hnonneg : fleb zero d1 = true) (Hle : fleb d1 d2 = true) :
  relevance zero = Ok "100.0%"
  /\ relevance one = Ok "50.0%"
  /\ exists t1 t2,
       relevance d1 = Ok (render_tenths false t1 ++ "%")
       /\ relevance d2 = Ok (render_tenths false t2 ++ "%")
       /\ 0 <= t2 <= t1 /\ t1 <= 1000.
Proof.
  split; [reflexivity|]. split; [vm_compute; reflexivity|].
  apply relevance_order; try assumption.
  destruct (fleb_nu zero d1 eq_refl Hvalid1 eq_refl Hnonneg) as [H _]. exact H.
Qed.

Lemma relevance_endpoints_and_monotone_witness :
  exists t1 t2,
    relevance one = Ok (render_tenths false t1 ++ "%")
    /\ relevance one_and_a_thousandth = Ok (render_tenths false t2 ++ "%")
    /\ 0 <= t2 <= t1 /\ t1 <= 1000.
Proof.
  apply (relevance_endpoints_and_monotone one one_and_a_thousandth);
    vm_compute; reflexivity.
Defined.

(** ** Negative distances *)

Lemma binary_round_aux_sign (sx : bool) (mx ex : Z) (lx : location) :
  binary_round_aux prec emax sx mx ex lx
  = with_sign sx (binary_round_aux prec emax false mx ex lx).
Proof.
  unfold binary_round_aux.
  destruct (shr_fexp prec emax mx ex lx) as [mrs' e'].
  destruct (shr_fexp prec emax _ e' loc_Exact) as [mrs'' e''].
  destruct (shr_m mrs''); [reflexivity| |reflexivity].
  destruct (e'' <=? emax - prec); reflexivity.
Qed.

Lemma binary_round_sign (sx : bool) (m : positive) (e : Z) :
  binary_round prec emax sx m e = with_sign sx (binary_round prec emax false m e).
Proof.
  unfold binary_round.
  destruct (shl_align m e _) as [mz ez]. apply binary_round_aux_sign.
Qed.

(** a mantissa that is not zero never rounds to zero *)
Lemma binary_round_not_zero (sx : bool) (m : positive) (e : Z) :
  emin <= e -> is_zero (binary_round prec emax sx m e) = false.
Proof.
  intros He. rewrite binary_round_sign.
  pose proof (binary_round_nearest m e He) as Hr.
  assert (Hpos : 0 < Z.min (nearest (Zpos m * 2 ^ (e - unit_exp)) 1) top).
  { apply Z.min_glb_lt; [|apply top_pos].
    apply Z.lt_le_trans with (nearest (2 ^ (emin - unit_exp)) 1); [reflexivity|].
    apply nearest_monotone; try lia.
    rewrite !Z.mul_1_r.
    apply Z.le_trans with (1 * 2 ^ (e - unit_exp)); [|apply Z.mul_le_mono_nonneg_r; lia].
    rewrite Z.mul_1_l. apply pow2_le. unfold_format. lia. }
  destruct (binary_round prec emax false m e) as [s|s| |s m' e'] eqn:E; try reflexivity.
  destruct Hr as (_ & _ & Hnu & _). cbn [nu] in Hnu. lia.
Qed.

(** [1 + d] vanishes for [d = -1.0] only *)
Lemma one_plus_negative (m : positive) (e : Z) :
  valid (S754_finite true m e) = true ->
  S754_finite true m e <> minus_one ->
  is_zero (fadd one (S754_finite true m e)) = false.
Proof.
  intros Hv Hne.
  destruct (valid_finite _ _ _ Hv) as (He & Hd & Hn & _).
  pose proof (digits2_pos_bounds m) as Hb.
  rewrite one_finite. unfold fadd, SFadd. cbn [cond_Zopp].
  set (ez := Z.min (-52) e).
  destruct (shl_align_value 4503599627370496 (-52) ez ltac:(lia)) as [Hax _].
  destruct (shl_align_value m e ez ltac:(lia)) as [Hay _].
  set (ax := fst (shl_align 4503599627370496 (-52) ez)) in *.
  set (ay := fst (shl_align m e ez)) in *.
  assert (Hdiff : Zpos ax + - Zpos ay <> 0).
  { intros H0. apply Hne.
    assert (Heq : Zpos 4503599627370496 * 2 ^ (-52 - ez) = Zpos m * 2 ^ (e - ez)) by lia.
    destruct (Z.le_gt_cases (-52) e) as [Hge|Hlt].
    - replace ez with (-52) in Heq by lia.
      rewrite Z.sub_diag, Z.pow_0_r, Z.mul_1_r in Heq.
      assert (Hfull : Zpos (digits2_pos m) = prec) by (apply Hn; unfold_format; lia).
      rewrite Hfull in Hb. change (2 ^ (prec - 1)) with 4503599627370496 in Hb.
      assert (H1 : 1 <= 2 ^ (e - -52)) by (apply (pow2_le 0); lia).
      assert (H2 : 2 ^ (e - -52) = 1) by nia.
      assert (He52 : e = -52).
      { destruct (Z.eq_dec e (-52)) as [E|E]; [exact E|exfalso].
        pose proof (pow2_le 1 (e - -52) ltac:(lia)) as Hp.
        change (2 ^ 1) with 2 in Hp. lia. }
      subst e. rewrite H2 in Heq. assert (Hm : m = 4503599627370496%positive) by lia.
      subst m. reflexivity.
    - replace ez with e in Heq by lia.
      rewrite Z.sub_diag, Z.pow_0_r, Z.mul_1_r in Heq.
      pose proof (pow2_le 1 (-52 - e) ltac:(lia)) as Hp. change (2 ^ 1) with 2 in Hp.
      pose proof (pow2_le (Zpos (digits2_pos m)) prec ltac:(lia)) as Hq.
      change (2 ^ prec) with 9007199254740992 in Hq. lia. }
  change (- Zpos ay) with (Zneg ay) in *.
  destruct (Zpos ax + Zneg ay) as [|p|p] eqn:E; [contradiction| |];
    cbn [binary_normalize]; apply binary_round_not_zero; unfold ez; unfold_format; lia.
Qed.

(** C5 as the specification words it fails: a negative distance is scored,
    above 100 percent. *)
Lemma negative_distance_counterexample :
  valid minus_half = true
  /\ fltb minus_half zero = true
  /\ relevance minus_half = Ok "200.0%".
Proof. repeat split; vm_compute; reflexivity. Qed.

(** C5, as amended: the scorer has no check on the sign of the distance.  A
    hit at a negative distance other than -1.0 is scored by the same formula
    as every other hit, and both servers return its product with that
    relevance (-0.5 gives 200.0%); at exactly -1.0 the division raises
    [ZeroDivisionError], in the scorer and in both servers. *)
Theorem negative_distance_scored_unchecked (hit : Hit)
    (Hvalid : valid (distance hit) = true)
    (Hneg : fltb (distance hit) zero = true) :
  (distance hit <> minus_one ->
   relevance (distance hit)
   = Ok (format_1f (fmul (fdiv one (fadd one (distance hit))) hundred) ++ "%")
   /\ (exists p,
         McpServer.product_of_hit hit = Ok p
         /\ field "relevance" p
            = Some (PStr (format_1f (fmul (fdiv one (fadd one (distance hit))) hundred)
                            ++ "%")))
   /\ (exists p,
         GcpFunction.product_of_hit hit = Ok p
         /\ field "relevance" p
            = Some (PStr (format_1f (fmul (fdiv one (fadd one (distance hit))) hundred)
                            ++ "%"))))
  /\ (distance hit = minus_one ->
      relevance (distance hit) = Raised (Raise ZeroDivisionError "float division by zero")
      /\ McpServer.product_of_hit hit
         = Raised (Raise ZeroDivisionError "float division by zero")
      /\ GcpFunction.product_of_hit hit
         = Raised (Raise ZeroDivisionError "float division by zero"))
  /\ relevance minus_half = Ok "200.0%".
Proof.
  destruct hit as [d ent]. cbn [distance] in *.
  split; [|split; [|vm_compute; reflexivity]].
  - intros Hne.
    assert (Hrel : relevance d
                   = Ok (format_1f (fmul (fdiv one (fadd one d)) hundred) ++ "%")).
    { destruct d as [s|[|]| |[|] m e]; try discriminate Hneg.
      - vm_compute. reflexivity.
      - unfold relevance. cbv zeta.
        now rewrite (one_plus_negative m e Hvalid Hne). }
    split; [exact Hrel|].
    unfold McpServer.product_of_hit, GcpFunction.product_of_hit.
    cbn [distance entity]. rewrite Hrel. cbn [bind].
    split; eexists; (split; [reflexivity|]); unfold field; cbn [lookup];
      repeat (rewrite (proj2 (String.eqb_neq _ _)) by discriminate);
      rewrite ?String.eqb_refl; reflexivity.
  - intros ->.
    assert (Hrel : relevance minus_one
                   = Raised (Raise ZeroDivisionError "float division by zero"))
      by (vm_compute; reflexivity).
    unfold McpServer.product_of_hit, GcpFunction.product_of_hit.
    cbn [distance entity]. rewrite Hrel. cbn [bind]. repeat split.
Qed.

Lemma negative_distance_scored_unchecked_witness :
  relevance (of_Z (-3)) = Ok "-50.0%".
Proof.
  destruct (negative_distance_scored_unchecked
              {| distance := of_Z (-3); entity := [] |} eq_refl eq_refl) as [H _].
  destruct (H ltac:(discriminate)) as [Hr _]. cbn [distance] in Hr.
  rewrite Hr. vm_compute. reflexivity.
Defined.

Lemma product_of_hit_total (hit : Hit) :
  proper_distance hit -> exists product, McpServer.product_of_hit hit = Ok product.
Proof.
  intros [Hv Hn]. unfold McpServer.product_of_hit.
  rewrite (relevance_nonneg _ Hv Hn). cbn [bind]. eauto.
Qed.

(** C6: with [top_k = k] and an index that keeps to the requested count, a
    search that returns products returns at most [k] of them, and
    [total_results] is their number; and the search does return them when the
    model and the index answer. *)
Theorem at_most_top_k_results_and_total_is_length
    (g : McpServer.Globals) (c : Collection) (k : Z)
    (query max_price category in_stock_only brand : pyval)
    (Hcoll : McpServer.collection g = Some c)
    (Hlimit : honours_limit c) :
  (forall payload,
      McpServer.search_products_logic g query (PInt k) max_price category
        in_stock_only brand = Ok payload ->
      (McpServer.MILVUS_READY g = false /\ payload = milvus_not_connected query)
      \/ exists products : list pyval,
           payload = PDict [("query", query);
                            ("total_results", PInt (Z.of_nat (List.length products)));
                            ("products", PList products)]
           /\ Z.of_nat (List.length products) <= k)
  /\ (forall query_embedding results,
        McpServer.MILVUS_READY g = true ->
        McpServer.generate_embedding g query = Ok query_embedding ->
        search c (McpServer.search_request query_embedding (PInt k)
                    (filter_expr (filter_parts max_price category in_stock_only brand)))
        = Ok results ->
        Forall proper_distance (List.concat results) ->
        exists products : list pyval,
          McpServer.search_products_logic g query (PInt k) max_price category
            in_stock_only brand
          = Ok (PDict [("query", query);
                       ("total_results", PInt (Z.of_nat (List.length products)));
                       ("products", PList products)])
          /\ List.length products = List.length (List.concat results)
          /\ Z.of_nat (List.length products) <= k).
Proof.
  split.
  - intros payload Hret.
    unfold McpServer.search_products_logic in Hret.
    destruct (McpServer.MILVUS_READY g); cbn [negb] in Hret.
    2:{ left. split; [reflexivity|]. now injection Hret as <-. }
    right.
    destruct (McpServer.generate_embedding g query) as [emb|e]; [|discriminate].
    cbn [bind] in Hret. rewrite Hcoll in Hret.
    destruct (search c _) as [results|e] eqn:Hsearch; [|discriminate].
    cbn [bind] in Hret. unfold McpServer.shape_results in Hret.
    destruct (comprehension McpServer.product_of_hit (List.concat results))
      as [products|e] eqn:Hprod; [|discriminate].
    cbn [bind] in Hret. injection Hret as <-.
    exists products. split; [reflexivity|].
    rewrite (comprehension_length _ _ _ Hprod).
    eapply single_query_hits; eauto; reflexivity.
  - intros emb results Hready Hemb Hsearch Hproper.
    destruct (comprehension_total McpServer.product_of_hit (List.concat results))
      as [products Hprod].
    { eapply Forall_impl; [|exact Hproper]. intros hit. apply product_of_hit_total. }
    exists products.
    unfold McpServer.search_products_logic.
    rewrite Hready, Hemb, Hcoll. cbn [negb bind]. rewrite Hsearch. cbn [bind].
    unfold McpServer.shape_results. rewrite Hprod. cbn [bind].
    split; [reflexivity|].
    pose proof (comprehension_length _ _ _ Hprod) as Hlen.
    split; [exact Hlen|]. rewrite Hlen.
    eapply single_query_hits; eauto; reflexivity.
Qed.

Lemma at_most_top_k_results_and_total_is_length_witness :
  exists products : list pyval,
    McpServer.search_products_logic mcp_first_hits (PStr "boots") (PInt 2) PNone PNone
      (PBool false) PNone
    = Ok (PDict [("query", PStr "boots");
                 ("total_results", PInt (Z.of_nat (List.length products)));
                 ("products", PList products)])
    /\ List.length products = 2%nat
    /\ Z.of_nat (List.length products) <= 2.
Proof.
  destruct (at_most_top_k_results_and_total_is_length mcp_first_hits (first_hits three_hits) 2
              (PStr "boots") PNone PNone (PBool false) PNone
              eq_refl (first_hits_honours_limit three_hits)) as [_ H].
  apply (H [zero; one] [firstn 2 three_hits] eq_refl eq_refl eq_refl).
  repeat constructor.
Defined.

(** ** Start-up of the servers *)

(** X1: after start-up [MILVUS_READY] is set exactly when the connection, the
    look-up of the collection, its opening and its loading all succeeded, and
    then [collection] is the collection that was opened; [embedding_model] is
    [None] exactly when loading the model raised.  The two flags are set
    independently of each other. *)
Theorem startup_ready_iff_collection_loaded (s : Startup.Services) :
  (McpServer.MILVUS_READY (Startup.mcp_globals s) = true
   <-> Startup.connect s = Ok tt /\ Startup.has_collection s = Ok true
       /\ Startup.load s = Ok tt /\ exists c, Startup.open_collection s = Ok c)
  /\ (McpServer.MILVUS_READY (Startup.mcp_globals s) = true ->
      exists c, McpServer.collection (Startup.mcp_globals s) = Some c
                /\ Startup.open_collection s = Ok c)
  /\ (McpServer.embedding_model (Startup.mcp_globals s) = None
      <-> exists e, Startup.load_model s = Raised e)
  /\ GcpFunction.MILVUS_READY (Startup.gcp_globals s)
     = McpServer.MILVUS_READY (Startup.mcp_globals s)
  /\ GcpFunction.collection (Startup.gcp_globals s)
     = McpServer.collection (Startup.mcp_globals s)
  /\ GcpFunction.embedding_model (Startup.gcp_globals s)
     = McpServer.embedding_model (Startup.mcp_globals s).
Proof.
  cbn [Startup.mcp_globals Startup.gcp_globals McpServer.MILVUS_READY
         McpServer.collection McpServer.embedding_model GcpFunction.MILVUS_READY
         GcpFunction.collection GcpFunction.embedding_model].
  unfold Startup.milvus, Startup.embedding_model.
  split; [|split; [|split; [|repeat split]]].
  - destruct (Startup.connect s) as [[]|e1]; cbn;
      [|split; [discriminate|intros ([=] & _)]].
    destruct (Startup.has_collection s) as [[|]|e2]; cbn;
      try (split; [discriminate|intros (_ & [=] & _)]).
    destruct (Startup.open_collection s) as [c|e3]; cbn;
      [|split; [discriminate|intros (_ & _ & _ & c & [=])]].
    destruct (Startup.load s) as [[]|e4]; cbn;
      [|split; [discriminate|intros (_ & _ & [=] & _)]].
    split; [eauto 6|reflexivity].
  - destruct (Startup.connect s) as [[]|e1]; cbn; [|discriminate].
    destruct (Startup.has_collection s) as [[|]|e2]; cbn; try discriminate.
    destruct (Startup.open_collection s) as [c|e3]; cbn; [|discriminate].
    destruct (Startup.load s) as [[]|e4]; cbn; [eauto|discriminate].
  - destruct (Startup.load_model s) as [m|e]; split; try discriminate; eauto.
    intros [e' [=]].
Qed.

(** X2: a server of [mcp_server_http.py] that came up ready never finds its
    collection missing: every search embeds the query and queries the
    collection opened at start-up. *)
Theorem ready_server_searches_opened_collection (s : Startup.Services)
    (query top_k max_price category in_stock_only brand : pyval)
    (Hready : McpServer.MILVUS_READY (Startup.mcp_globals s) = true) :
  exists c,
    Startup.open_collection s = Ok c
    /\ McpServer.search_products_logic (Startup.mcp_globals s) query top_k max_price
         category in_stock_only brand
       = bind (McpServer.generate_embedding (Startup.mcp_globals s) query)
           (fun query_embedding =>
              bind (search c (McpServer.search_request query_embedding top_k
                                (filter_expr (filter_parts max_price category
                                                in_stock_only brand))))
                   (McpServer.shape_results query)).
Proof.
  unfold McpServer.search_products_logic. rewrite Hready. cbn [negb].
  cbn [Startup.mcp_globals McpServer.MILVUS_READY McpServer.collection] in *.
  unfold Startup.milvus in *.
  destruct (Startup.connect s) as [[]|e1]; cbn in Hready; [|discriminate].
  destruct (Startup.has_collection s) as [[|]|e2]; cbn in Hready; try discriminate.
  destruct (Startup.open_collection s) as [c|e3]; cbn in Hready; [|discriminate].
  destruct (Startup.load s) as [[]|e4]; cbn in Hready; [|discriminate].
  exists c. split; reflexivity.
Qed.

Lemma ready_server_searches_opened_collection_witness :
  exists c,
    Startup.open_collection sample_services = Ok c
    /\ McpServer.search_products_logic (Startup.mcp_globals sample_services)
         (PStr "boots") (PInt 5) PNone PNone (PBool false) PNone
       = bind (McpServer.generate_embedding (Startup.mcp_globals sample_services)
                 (PStr "boots"))
           (fun query_embedding =>
              bind (search c (McpServer.search_request query_embedding (PInt 5)
                                (filter_expr (filter_parts PNone PNone (PBool false)
                                                PNone))))
                   (McpServer.shape_results (PStr "boots"))).
Proof.
  apply (ready_server_searches_opened_collection sample_services). reflexivity.
Defined.

(** ** The protocol dispatcher *)

(** X3: the endpoint raises an HTTP error exactly when the body does not
    parse, and lets an exception escape exactly when the parsed body is not an
    object, or the method is [tools/call] and [params] is not an object; the
    escaping exception is then an [AttributeError]. *)
Theorem handle_mcp_outcomes (g : McpServer.Globals) (request : McpServer.Request) :
  ((exists status detail, McpServer.handle_mcp g request
                          = McpServer.HTTPException status detail)
   <-> exists e, McpServer.json request = Raised e)
  /\ ((exists e, McpServer.handle_mcp g request = McpServer.Unhandled e)
      <-> exists payload,
            McpServer.json request = Ok payload
            /\ (is_dict payload = false
                \/ exists d, payload = PDict d
                             /\ dict_get d "method" PNone = PStr "tools/call"
                             /\ is_dict (dict_get d "params" (PDict [])) = false))
  /\ (forall e, McpServer.handle_mcp g request = McpServer.Unhandled e ->
        exn_cls e = AttributeError).
Proof.
  unfold McpServer.handle_mcp.
  destruct (McpServer.json request) as [payload|e0].
  2:{ split; [|split].
      - split; eauto.
      - split; [intros [e [=]]|intros (p & [=] & _)].
      - intros e [=]. }
  destruct payload as [|b|z|f|s|l|d];
    try (cbn; split; [|split];
         [split; [intros (? & ? & [=])|intros [? [=]]]
         |split; [eauto|eauto]
         |now intros e [= <-]]).
  cbn [method_get]. unfold McpServer.dispatch.
  assert (Hret : forall body,
            ((exists status detail, McpServer.Return body
                                    = McpServer.HTTPException status detail)
             <-> exists e, @Ok pyval (PDict d) = Raised e)
            /\ (forall e, McpServer.Return body = McpServer.Unhandled e ->
                  exn_cls e = AttributeError)).
  { intros body. split; [split|]; [intros (? & ? & [=])|intros [? [=]]|intros ? [=]]. }
  assert (Hnot : forall body,
            eq_str (dict_get d "method" PNone) "tools/call" = false ->
            ((exists e, McpServer.Return body = McpServer.Unhandled e)
             <-> exists payload,
                   @Ok pyval (PDict d) = Ok payload
                   /\ (is_dict payload = false
                       \/ exists d', payload = PDict d'
                                     /\ dict_get d' "method" PNone = PStr "tools/call"
                                     /\ is_dict (dict_get d' "params" (PDict [])) = false))).
  { intros body Hm. split; [intros [? [=]]|].
    intros (p & [= <-] & [Hd | (d' & [= <-] & Hm' & _)]); [discriminate Hd|].
    rewrite Hm' in Hm. discriminate Hm. }
  destruct (eq_str _ "initialize") eqn:E1.
  { apply eq_str_true in E1. destruct (Hret (McpServer.response (dict_get d "id" PNone)
                                             "result" McpServer.initialize_result)).
    repeat split; try tauto; try apply Hnot; rewrite ?E1; auto. }
  destruct (eq_str _ "notifications/initialized") eqn:E2.
  { apply eq_str_true in E2. destruct (Hret (McpServer.response (dict_get d "id" PNone)
                                             "result" (PBool true))).
    repeat split; try tauto; try apply Hnot; rewrite ?E2; auto. }
  destruct (eq_str _ "tools/list") eqn:E3.
  { apply eq_str_true in E3. destruct (Hret (McpServer.response (dict_get d "id" PNone)
                                             "result" McpServer.tools_list_result)).
    repeat split; try tauto; try apply Hnot; rewrite ?E3; auto. }
  destruct (eq_str _ "tools/call") eqn:E4.
  2:{ destruct (eq_str _ "ping");
      match goal with
      | |- context [McpServer.Return ?b] => destruct (Hret b)
      end; repeat split; try tauto; try apply Hnot; auto. }
  apply eq_str_true in E4.
  unfold McpServer.tools_call.
  destruct (dict_get d "params" (PDict [])) as [|b|z|f|s|l|params] eqn:Ep;
    try (cbn [method_get]; split; [|split];
         [split; [intros (? & ? & [=])|intros [? [=]]]
         |split; [intros _; exists (PDict d); split; [reflexivity|];
                  right; exists d; rewrite Ep; auto
                 |eauto]
         |now intros e [= <-]]).
  cbn [method_get].
  destruct (McpServer.call_search_products_logic g _);
    match goal with
    | |- context [McpServer.Return ?b] => destruct (Hret b)
    end; (split; [tauto|split; [|assumption]]);
    (split; [intros [? [=]]|]);
    intros (p & [= <-] & [Hd | (d' & [= <-] & _ & Hp)]);
    try discriminate Hd; rewrite Ep in Hp; discriminate Hp.
Qed.

(** X4: only [tools/call] looks at the model and at Milvus: a request with
    any other method is answered the same way whatever the state of the two
    backends. *)
Theorem only_tools_call_uses_backends (g g' : McpServer.Globals)
    (request : McpServer.Request)
    (Hmethod : forall d, McpServer.json request = Ok (PDict d) ->
                         dict_get d "method" PNone <> PStr "tools/call") :
  McpServer.handle_mcp g request = McpServer.handle_mcp g' request.
Proof.
  unfold McpServer.handle_mcp.
  destruct (McpServer.json request) as [[|b|z|f|s|l|d]|e]; try reflexivity.
  cbn [method_get]. unfold McpServer.dispatch.
  rewrite (eq_str_false _ "tools/call") by (now apply Hmethod).
  reflexivity.
Qed.

Lemma only_tools_call_uses_backends_witness :
  McpServer.handle_mcp mcp_ready (request_of (envelope (PInt 3) "tools/list" PNone))
  = McpServer.handle_mcp mcp_no_milvus (request_of (envelope (PInt 3) "tools/list" PNone)).
Proof.
  apply only_tools_call_uses_backends.
  intros d [= <-]. discriminate.
Defined.

Lemma unexpected_keyword_first (d : dict) (key : string) :
  In key (map fst d) -> ~ In key McpServer.parameters ->
  exists k, McpServer.unexpected_keyword d = Some k
            /\ In k (map fst d) /\ ~ In k McpServer.parameters.
Proof.
  intros Hin Hnot. unfold McpServer.unexpected_keyword.
  set (unknown := fun kv : string * pyval =>
                    negb (existsb (String.eqb (fst kv)) McpServer.parameters)).
  assert (Hspec : forall kv, unknown kv = true <-> ~ In (fst kv) McpServer.parameters).
  { intros kv. unfold unknown. rewrite negb_true_iff. split.
    - intros Hf Hi. assert (Ht : existsb (String.eqb (fst kv)) McpServer.parameters = true).
      { apply existsb_exists. exists (fst kv). split; [exact Hi|apply String.eqb_refl]. }
      rewrite Ht in Hf. discriminate.
    - intros Hn. destruct (existsb _ _) eqn:E; [|reflexivity].
      apply existsb_exists in E as (x & Hx & Heq).
      apply String.eqb_eq in Heq. subst x. contradiction. }
  apply in_map_iff in Hin as ([k0 v0] & Hk & Hin). cbn in Hk. subst k0.
  assert (Hf : In (key, v0) (filter unknown d)).
  { apply filter_In. split; [exact Hin|]. now apply Hspec. }
  destruct (filter unknown d) as [|[k v] rest] eqn:Ef; [destruct Hf|].
  assert (Hk : In (k, v) (filter unknown d)) by (rewrite Ef; now left).
  apply filter_In in Hk as [Hkd Hku].
  exists k. split; [reflexivity|]. split.
  - apply in_map_iff. now exists (k, v).
  - now apply (Hspec (k, v)).
Qed.

(** X5: a [tools/call] whose arguments carry a name that is not a parameter
    of the search is answered with error -32000 that names it, before the
    search runs: the answer is the same whatever the state of the backends,
    also when [query] is given. *)
Theorem unknown_argument_rejected_before_search
    (g : McpServer.Globals) (jsonrpc_id : pyval) (params args : dict) (key : string)
    (Hargs : dict_get params "arguments" (PDict []) = PDict args)
    (Hkey : In key (map fst args))
    (Hunknown : ~ In key McpServer.parameters) :
  exists k,
    In k (map fst args) /\ ~ In k McpServer.parameters
    /\ McpServer.tools_call g jsonrpc_id (PDict params)
       = McpServer.Return
           (McpServer.response jsonrpc_id "error"
              (McpServer.error_object (-32000)
                 ("search_products_logic() got an unexpected keyword argument '"
                    ++ k ++ "'"))).
Proof.
  destruct (unexpected_keyword_first args key Hkey Hunknown) as (k & Hk & Hin & Hnot).
  exists k. split; [exact Hin|]. split; [exact Hnot|].
  unfold McpServer.tools_call. cbn [method_get]. rewrite Hargs.
  unfold McpServer.call_search_products_logic. rewrite Hk. reflexivity.
Qed.

Lemma unknown_argument_rejected_before_search_witness :
  exists k,
    In k ["query"; "limit"] /\ ~ In k McpServer.parameters
    /\ McpServer.tools_call mcp_ready (PInt 1)
         (PDict [("arguments", PDict [("query", PStr "boots"); ("limit", PInt 3)])])
       = McpServer.Return
           (McpServer.response (PInt 1) "error"
              (McpServer.error_object (-32000)
                 ("search_products_logic() got an unexpected keyword argument '"
                    ++ k ++ "'"))).
Proof.
  apply (unknown_argument_rejected_before_search mcp_ready (PInt 1)
           [("arguments", PDict [("query", PStr "boots"); ("limit", PInt 3)])]
           [("query", PStr "boots"); ("limit", PInt 3)] "limit").
  - reflexivity.
  - cbn. tauto.
  - cbn. intros H. repeat (destruct H as [H|H]; [discriminate H|]). exact H.
Defined.

(** X6: with Milvus not connected, a well-formed [tools/call] is answered
    with a JSON-RPC result, not an error: its text is the JSON of the dict
    that reports the missing connection and gives the query back. *)
Theorem milvus_down_is_answered_with_a_result
    (g : McpServer.Globals) (jsonrpc_id query : pyval) (params args : dict)
    (Hdown : McpServer.MILVUS_READY g = false)
    (Hargs : dict_get params "arguments" (PDict []) = PDict args)
    (Hknown : forall k, In k (map fst args) -> In k McpServer.parameters)
    (Hquery : lookup "query" args = Some query) :
  McpServer.tools_call g jsonrpc_id (PDict params)
  = McpServer.Return
      (McpServer.response jsonrpc_id "result"
         (PDict [("content",
                  PList [PDict [("type", PStr "text");
                                ("text", PStr (json_dumps_indent2
                                                 (milvus_not_connected query)))]])])).
Proof.
  unfold McpServer.tools_call. cbn [method_get]. rewrite Hargs.
  unfold McpServer.call_search_products_logic.
  destruct (McpServer.unexpected_keyword args) as [k|] eqn:Hk.
  - exfalso. unfold McpServer.unexpected_keyword in Hk.
    destruct (filter _ args) as [|[k' v] rest] eqn:Ef; [discriminate|].
    injection Hk as <-.
    assert (Hin : In (k', v) (filter (fun kv : string * pyval =>
                     negb (existsb (String.eqb (fst kv)) McpServer.parameters)) args))
      by (rewrite Ef; now left).
    apply filter_In in Hin as [Hd Hu]. cbn [fst] in Hu.
    assert (Hp : In k' McpServer.parameters)
      by (apply Hknown, in_map_iff; now exists (k', v)).
    assert (Ht : existsb (String.eqb k') McpServer.parameters = true).
    { apply existsb_exists. exists k'. split; [exact Hp|apply String.eqb_refl]. }
    rewrite Ht in Hu. discriminate.
  - rewrite Hquery. unfold McpServer.search_products_logic. rewrite Hdown. reflexivity.
Qed.

Lemma milvus_down_is_answered_with_a_result_witness :
  McpServer.tools_call mcp_no_milvus (PInt 1)
    (PDict [("name", PStr "search_products");
            ("arguments", PDict [("query", PStr "boots"); ("top_k", PInt 3)])])
  = McpServer.Return
      (McpServer.response (PInt 1) "result"
         (PDict [("content",
                  PList [PDict [("type", PStr "text");
                                ("text", PStr (json_dumps_indent2
                                                 (milvus_not_connected (PStr "boots"))))]])])).
Proof.
  apply (milvus_down_is_answered_with_a_result mcp_no_milvus (PInt 1) (PStr "boots")
           [("name", PStr "search_products");
            ("arguments", PDict [("query", PStr "boots"); ("top_k", PInt 3)])]
           [("query", PStr "boots"); ("top_k", PInt 3)]).
  - reflexivity.
  - reflexivity.
  - intros k [<-|[<-|[]]]; cbn; tauto.
  - reflexivity.
Defined.

(** ** The results of a search *)

Lemma product_of_hit_proper (hit : Hit) :
  proper_distance hit ->
  McpServer.product_of_hit hit
  = Ok (mcp_product hit (percent (score_tenths (nu (distance hit))))).
Proof.
  intros [Hv Hn]. unfold McpServer.product_of_hit.
  rewrite (relevance_nonneg _ Hv Hn). cbn [bind]. unfold mcp_product, percent.
  reflexivity.
Qed.

Lemma products_of_proper_hits (hits : list Hit) :
  Forall proper_distance hits ->
  comprehension McpServer.product_of_hit hits
  = Ok (map (fun ht => mcp_product (fst ht) (percent (snd ht)))
          (combine hits (map (fun h => score_tenths (nu (distance h))) hits))).
Proof.
  induction 1 as [|h hits Hh _ IH]; [reflexivity|].
  cbn [comprehension map combine fst snd]. rewrite (product_of_hit_proper h Hh), IH.
  cbn [bind]. reflexivity.
Qed.

Lemma scores_descend (hits : list Hit) :
  Forall proper_distance hits -> nearest_first hits ->
  descending (map (fun h => score_tenths (nu (distance h))) hits).
Proof.
  induction 1 as [|h hits [Hv Hn] Hrest IH]; [trivial|].
  intros [Hhd Htl]. cbn [map descending]. split; [|now apply IH].
  destruct hits as [|h' hits']; [trivial|]. cbn [map].
  inversion Hrest as [|? ? [Hv' _] _]; subst.
  destruct (fleb_nu _ _ Hv Hv' Hn Hhd) as [_ Hnu].
  apply score_tenths_antitone. split; [|exact Hnu].
  pose proof top_pos. destruct (distance h) as [s|s| |s m e]; cbn [nu]; lia.
Qed.

(** X7: when the index gives its hits nearest first, at distances that are
    not negative, the products come back in that order, each with the fields
    of its hit, and their relevance never increases down the list: the best
    match is first. *)
Theorem results_ranked_by_relevance (query : pyval) (hits : list Hit)
    (Hproper : Forall proper_distance hits)
    (Hsorted : nearest_first hits) :
  exists tenths : list Z,
    McpServer.shape_results query [hits]
    = Ok (PDict [("query", query);
                 ("total_results", PInt (Z.of_nat (List.length hits)));
                 ("products",
                  PList (map (fun ht => mcp_product (fst ht) (percent (snd ht)))
                           (combine hits tenths)))])
    /\ List.length tenths = List.length hits
    /\ descending tenths
    /\ Forall (fun t => 0 <= t <= 1000) tenths.
Proof.
  exists (map (fun h => score_tenths (nu (distance h))) hits).
  split; [|split; [apply length_map|split; [now apply scores_descend|]]].
  - unfold McpServer.shape_results. cbn [List.concat]. rewrite app_nil_r.
    rewrite (products_of_proper_hits hits Hproper). cbn [bind].
    rewrite length_map, length_combine, length_map, Nat.min_id. reflexivity.
  - apply Forall_forall. intros t Hin. apply in_map_iff in Hin as (h & <- & Hh).
    apply score_tenths_range.
    pose proof top_pos. destruct (distance h) as [s|s| |s m e]; cbn [nu]; lia.
Qed.

Lemma results_ranked_by_relevance_witness :
  exists tenths : list Z,
    McpServer.shape_results (PStr "boots") [three_hits]
    = Ok (PDict [("query", PStr "boots");
                 ("total_results", PInt (Z.of_nat (List.length three_hits)));
                 ("products",
                  PList (map (fun ht => mcp_product (fst ht) (percent (snd ht)))
                           (combine three_hits tenths)))])
    /\ List.length tenths = List.length three_hits
    /\ descending tenths
    /\ Forall (fun t => 0 <= t <= 1000) tenths.
Proof.
  apply results_ranked_by_relevance.
  - repeat constructor.
  - cbn. repeat split.
Defined.

Lemma comprehension_forall {A B : Type} (f : A -> result B) (P : B -> Prop)
    (l : list A) (bs : list B) :
  (forall a b, f a = Ok b -> P b) ->
  comprehension f l = Ok bs -> Forall P bs.
Proof.
  intros Hf. revert bs. induction l as [|a l IH]; intros bs; cbn.
  - intros [= <-]. constructor.
  - destruct (f a) as [b|e] eqn:Ea; cbn; [|discriminate].
    destruct (comprehension f l) as [bs'|e]; cbn; [|discriminate].
    intros [= <-]. constructor; [now apply (Hf a)|now apply IH].
Qed.

(** X8: the search of [gcp_simulation/main.py] filters on the brand but never
    gives it back: it does not ask the index for the field, and no product it
    returns has a [brand] member, while each has a [relevance]. *)
Theorem gcp_results_never_carry_brand (g : GcpFunction.Globals)
    (query top_k max_price category in_stock_only brand payload : pyval)
    (products : list pyval) (query_embedding : list float) (expression : string)
    (Hret : GcpFunction.search_products_logic g query top_k max_price category
              in_stock_only brand = Ok payload)
    (Hproducts : field "products" payload = Some (PList products)) :
  Forall (fun p => field "brand" p = None /\ field "relevance" p <> None) products
  /\ ~ In "brand" (output_fields (GcpFunction.search_request query_embedding top_k
                                    expression))
  /\ In "brand" (output_fields (McpServer.search_request query_embedding top_k
                                  expression))
  /\ (truthy brand = true ->
      In ("brand == " ++ dquote ++ str brand ++ dquote)
         (filter_parts max_price category in_stock_only brand)).
Proof.
  split; [|split; [|split]].
  - unfold GcpFunction.search_products_logic in Hret.
    destruct (GcpFunction.MILVUS_READY g), (GcpFunction.embedding_model g) as [model|];
      try (injection Hret as <-; discriminate Hproducts).
    destruct (encode model query) as [emb|e]; [|discriminate]. cbn [bind] in Hret.
    destruct (GcpFunction.collection g) as [c|]; [|discriminate].
    destruct (search c _) as [results|e]; [|discriminate]. cbn [bind] in Hret.
    unfold GcpFunction.shape_results in Hret.
    destruct (comprehension GcpFunction.product_of_hit (List.concat results))
      as [ps|e] eqn:Hps; [|discriminate].
    cbn [bind] in Hret. injection Hret as <-. cbn in Hproducts.
    injection Hproducts as <-.
    eapply comprehension_forall; [|exact Hps].
    intros hit p. unfold GcpFunction.product_of_hit.
    destruct (relevance (distance hit)); cbn [bind]; [|discriminate].
    intros [= <-]. split; [reflexivity|discriminate].
  - cbn. intros H. repeat (destruct H as [H|H]; [discriminate H|]). exact H.
  - cbn. tauto.
  - intros Hb. unfold filter_parts. rewrite Hb.
    apply in_or_app. right. apply in_or_app. right. apply in_or_app. right. now left.
Qed.

Lemma gcp_results_never_carry_brand_witness :
  exists products,
    Forall (fun p => field "brand" p = None /\ field "relevance" p <> None) products
    /\ List.length products = 2%nat.
Proof.
  destruct (gcp_results_never_carry_brand gcp_ready (PStr "boots") (PInt 5) PNone PNone
              (PBool false) (PStr "ActiveGear")
              (PDict [("query", PStr "boots"); ("total_results", PInt 2);
                      ("products",
                       PList [PDict [("product_id", PInt 1); ("name", PNone);
                                     ("category", PNone); ("description", PNone);
                                     ("price", PNone); ("in_stock", PNone);
                                     ("relevance", PStr "100.0%")];
                              PDict [("product_id", PInt 2); ("name", PNone);
                                     ("category", PNone); ("description", PNone);
                                     ("price", PNone); ("in_stock", PNone);
                                     ("relevance", PStr "50.0%")]]);
                      ("filters_applied",
                       PDict [("max_price", PNone); ("category", PNone)])])
              _ [zero; one] "" eq_refl eq_refl) as [H _].
  eexists. split; [exact H|reflexivity].
Defined.

(** ** The HTTP entry point of the cloud function *)

(** X9: the cloud function marks only its successful answers for cross-origin
    use: the [Access-Control-Allow-Origin] header is on a response exactly
    when its status is 200 or 204, and every response has one of the statuses
    204, 200, 400 and 500. *)
Theorem cors_header_only_on_success (g : GcpFunction.Globals)
    (request : CloudFunction.Request) (body : string) (status : Z)
    (headers : CloudFunction.Headers)
    (Hresp : CloudFunction.search_products_function g request
             = CloudFunction.Respond body status headers) :
  In status [204; 200; 400; 500]
  /\ (In ("Access-Control-Allow-Origin", "*") headers <-> status = 200 \/ status = 204)
  /\ (In ("Content-Type", "application/json") headers <-> status <> 204).
Proof.
  unfold CloudFunction.search_products_function, CloudFunction.missing_query in Hresp.
  assert (H204 : forall b, CloudFunction.Respond b 204 CloudFunction.preflight_headers
                           = CloudFunction.Respond body status headers ->
            In status [204; 200; 400; 500]
            /\ (In ("Access-Control-Allow-Origin", "*") headers
                <-> status = 200 \/ status = 204)
            /\ (In ("Content-Type", "application/json") headers <-> status <> 204)).
  { intros b [= _ <- <-]. cbn. repeat split; try tauto; try lia.
    intros H. repeat (destruct H as [H|H]; [discriminate H|]). destruct H. }
  assert (H200 : forall b, CloudFunction.Respond b 200 CloudFunction.success_headers
                           = CloudFunction.Respond body status headers ->
            In status [204; 200; 400; 500]
            /\ (In ("Access-Control-Allow-Origin", "*") headers
                <-> status = 200 \/ status = 204)
            /\ (In ("Content-Type", "application/json") headers <-> status <> 204)).
  { intros b [= _ <- <-]. cbn. repeat split; try tauto; try lia. }
  assert (Herr : forall b s, s = 400 \/ s = 500 ->
            CloudFunction.Respond b s CloudFunction.error_headers
            = CloudFunction.Respond body status headers ->
            In status [204; 200; 400; 500]
            /\ (In ("Access-Control-Allow-Origin", "*") headers
                <-> status = 200 \/ status = 204)
            /\ (In ("Content-Type", "application/json") headers <-> status <> 204)).
  { intros b s Hs [= _ <- <-]. cbn. repeat split; try tauto; try lia.
    intros [H|[]]. discriminate H. }
  destruct (CloudFunction.method request =? "OPTIONS")%string; [now apply (H204 "")|].
  cbv zeta in Hresp.
  destruct (truthy (CloudFunction.get_json request)); cbn [negb] in Hresp;
    [|eapply Herr; [left; reflexivity|exact Hresp]].
  destruct (CloudFunction.contains "query" _) as [[|]|e]; [| |discriminate].
  - destruct (CloudFunction.run_search g _) as [result|e].
    + eapply H200; exact Hresp.
    + eapply Herr; [right; reflexivity|exact Hresp].
  - eapply Herr; [left; reflexivity|exact Hresp].
Qed.

Lemma cors_header_only_on_success_witness :
  In ("Access-Control-Allow-Origin", "*") CloudFunction.error_headers
  <-> 400 = 200 \/ 400 = 204.
Proof.
  apply (cors_header_only_on_success gcp_ready (post (PDict [("q", PStr "boots")]))
           (CloudFunction.json_dumps
              (PDict [("error", PStr "Parametro 'query' mancante nel JSON body")]))
           400 CloudFunction.error_headers).
  reflexivity.
Defined.

(** X10: a JSON object sent to the cloud function is always answered, never
    with an exception left to the framework: with 400 when it has no [query]
    member (the empty object included), with 200 and the JSON of the result
    when the search returns, and with 500 and the text of the exception when
    the search raises.  Absent members take the defaults of the search. *)
Theorem object_body_is_always_answered (g : GcpFunction.Globals)
    (request : CloudFunction.Request) (d : dict)
    (Hmethod : CloudFunction.method request <> "OPTIONS")
    (Hbody : CloudFunction.get_json request = PDict d) :
  (lookup "query" d = None ->
   CloudFunction.search_products_function g request = CloudFunction.missing_query)
  /\ (forall query, lookup "query" d = Some query ->
        match GcpFunction.search_products_logic g query
                (dict_get d "top_k" (PInt 5)) (dict_get d "max_price" PNone)
                (dict_get d "category" PNone) (dict_get d "in_stock_only" (PBool false))
                (dict_get d "brand" PNone) with
        | Ok result =>
            CloudFunction.search_products_function g request
            = CloudFunction.Respond (CloudFunction.json_dumps result) 200
                CloudFunction.success_headers
        | Raised e =>
            CloudFunction.search_products_function g request
            = CloudFunction.Respond
                (CloudFunction.json_dumps (PDict [("error", PStr (exn_msg e))])) 500
                CloudFunction.error_headers
        end).
Proof.
  unfold CloudFunction.search_products_function.
  apply String.eqb_neq in Hmethod. rewrite Hmethod, Hbody. cbv zeta. split.
  - intros Hq. destruct d as [|kv d']; [reflexivity|].
    cbn [truthy negb CloudFunction.contains]. now rewrite Hq.
  - intros query Hq. destruct d as [|kv d']; [discriminate Hq|].
    cbn [truthy negb CloudFunction.contains]. rewrite Hq.
    unfold CloudFunction.run_search. cbn [getitem method_get]. rewrite Hq. cbn [bind].
    destruct (GcpFunction.search_products_logic g query _ _ _ _ _); reflexivity.
Qed.

Lemma object_body_is_always_answered_witness :
  CloudFunction.search_products_function gcp_ready (post (PDict []))
  = CloudFunction.missing_query.
Proof.
  refine (proj1 (object_body_is_always_answered gcp_ready (post (PDict [])) [] _
                   eq_refl) eq_refl).
  discriminate.
Defined.

(** X11: when Milvus is not ready or the model is not loaded, the cloud
    function answers a request that has a [query] with status 200: the
    unavailability is told in the body only, with the headers of a success. *)
Theorem unavailable_backend_is_status_200 (g : GcpFunction.Globals)
    (request : CloudFunction.Request) (d : dict) (query : pyval)
    (Hmethod : CloudFunction.method request <> "OPTIONS")
    (Hbody : CloudFunction.get_json request = PDict d)
    (Hquery : lookup "query" d = Some query)
    (Hdown : GcpFunction.MILVUS_READY g = false \/ GcpFunction.embedding_model g = None) :
  CloudFunction.search_products_function g request
  = CloudFunction.Respond (CloudFunction.json_dumps GcpFunction.unavailable) 200
      CloudFunction.success_headers.
Proof.
  unfold CloudFunction.search_products_function.
  apply String.eqb_neq in Hmethod. rewrite Hmethod, Hbody. cbv zeta.
  destruct d as [|kv d']; [discriminate Hquery|].
  cbn [truthy negb CloudFunction.contains]. rewrite Hquery.
  unfold CloudFunction.run_search. cbn [getitem method_get]. rewrite Hquery. cbn [bind].
  unfold GcpFunction.search_products_logic.
  destruct Hdown as [-> | ->]; [reflexivity|].
  now destruct (GcpFunction.MILVUS_READY g).
Qed.

Lemma unavailable_backend_is_status_200_witness :
  CloudFunction.search_products_function gcp_no_milvus
    (post (PDict [("query", PStr "boots")]))
  = CloudFunction.Respond (CloudFunction.json_dumps GcpFunction.unavailable) 200
      CloudFunction.success_headers.
Proof.
  apply (unavailable_backend_is_status_200 gcp_no_milvus
           (post (PDict [("query", PStr "boots")])) [("query", PStr "boots")]
           (PStr "boots")).
  - discriminate.
  - reflexivity.
  - reflexivity.
  - left. reflexivity.
Defined.

Local Ltac answered :=
  split; [reflexivity|]; cbv beta iota;
  first [reflexivity | split; [auto|reflexivity]].

(** X12: a JSON body that is not an object never reaches the search: the
    answer does not depend on the backends, and it is status 400 (no body, or
    a value without "query" in it), status 500 (an array or a string with
    "query" in it, which cannot be indexed by name), or a [TypeError] left to
    the framework (a number or [true], which cannot be searched for "query"). *)
Theorem non_object_body_never_searched (g g' : GcpFunction.Globals)
    (request : CloudFunction.Request)
    (Hmethod : CloudFunction.method request <> "OPTIONS")
    (Hbody : is_dict (CloudFunction.get_json request) = false) :
  CloudFunction.search_products_function g request
  = CloudFunction.search_products_function g' request
  /\ match CloudFunction.search_products_function g request with
     | CloudFunction.Respond _ status headers =>
         (status = 400 \/ status = 500) /\ headers = CloudFunction.error_headers
     | CloudFunction.Propagates e => exn_cls e = TypeError
     end.
Proof.
  unfold CloudFunction.search_products_function, CloudFunction.missing_query.
  apply String.eqb_neq in Hmethod. rewrite Hmethod. cbv zeta.
  revert Hbody.
  destruct (CloudFunction.get_json request) as [|b|z|f|s|l|d]; intros Hbody;
    try discriminate Hbody; cbn [truthy negb CloudFunction.contains].
  - answered.
  - destruct b; cbn [negb]; answered.
  - destruct (z =? 0); cbn [negb]; answered.
  - destruct (is_zero f); cbn [negb]; answered.
  - destruct (s =? "")%string; cbn [negb]; [answered|].
    destruct (CloudFunction.contains_text "query" s); [|answered].
    unfold CloudFunction.run_search. cbn [getitem bind]. answered.
  - destruct l as [|x l']; cbn [negb]; [answered|].
    destruct (existsb _ _); [|answered].
    unfold CloudFunction.run_search. cbn [getitem bind]. answered.
Qed.

Lemma non_object_body_never_searched_witness :
  CloudFunction.search_products_function gcp_ready (post (PList [PStr "query"]))
  = CloudFunction.search_products_function gcp_no_milvus (post (PList [PStr "query"])).
Proof.
  refine (proj1 (non_object_body_never_searched gcp_ready gcp_no_milvus
                   (post (PList [PStr "query"])) _ eq_refl)).
  discriminate.
Defined.

(** ** The run of [etl/ingest.py] *)

Lemma remove_remove (n : string) (cs : list (string * Ingest.CollectionState)) :
  Ingest.remove_collection n (Ingest.remove_collection n cs)
  = Ingest.remove_collection n cs.
Proof.
  induction cs as [|[n' c] cs IH]; cbn; [reflexivity|].
  destruct (n =? n')%string eqn:E; [exact IH|]. cbn. now rewrite E, IH.
Qed.

Lemma put_put (n : string) (c c' : Ingest.CollectionState)
    (cs : list (string * Ingest.CollectionState)) :
  Ingest.put_collection n c (Ingest.put_collection n c' cs)
  = Ingest.put_collection n c cs.
Proof.
  unfold Ingest.put_collection. cbn. now rewrite String.eqb_refl, remove_remove.
Qed.

Lemma put_remove (n : string) (c : Ingest.CollectionState)
    (cs : list (string * Ingest.CollectionState)) :
  Ingest.put_collection n c (Ingest.remove_collection n cs)
  = Ingest.put_collection n c cs.
Proof. unfold Ingest.put_collection. now rewrite remove_remove. Qed.

Lemma find_remove_other (n n' : string) (cs : list (string * Ingest.CollectionState)) :
  n' <> n ->
  Ingest.find_collection n' (Ingest.remove_collection n cs)
  = Ingest.find_collection n' cs.
Proof.
  intros Hn. induction cs as [|[m c] cs IH]; cbn; [reflexivity|].
  destruct (n =? m)%string eqn:E.
  - apply String.eqb_eq in E. subst m.
    apply String.eqb_neq in Hn. now rewrite Hn.
  - cbn. now rewrite IH.
Qed.

Lemma find_with_products_other (n : string) (c : Ingest.CollectionState)
    (w : Ingest.Milvus) :
  n <> Ingest.COLLECTION_NAME ->
  Ingest.find_collection n (Ingest.collections (with_products c w))
  = Ingest.find_collection n (Ingest.collections w).
Proof.
  intros Hn. unfold with_products. cbn [Ingest.collections Ingest.with_collections].
  unfold Ingest.put_collection. cbn [Ingest.find_collection].
  pose proof Hn as Hn'. apply String.eqb_neq in Hn'. rewrite Hn'.
  now apply find_remove_other.
Qed.

Lemma products_of_with_products (c : Ingest.CollectionState) (w : Ingest.Milvus) :
  products_collection (with_products c w) = Some c.
Proof.
  unfold products_collection, with_products.
  cbn [Ingest.collections Ingest.with_collections]. apply find_put.
Qed.

Lemma update_products (f : Ingest.CollectionState -> Ingest.CollectionState)
    (c : Ingest.CollectionState) (b : bool) (w : Ingest.Milvus) :
  Ingest.update Ingest.COLLECTION_NAME f (Ingest.with_connected b (with_products c w))
  = (Ingest.with_connected b (with_products (f c) w), Ok tt).
Proof.
  unfold Ingest.update, with_products.
  cbn [Ingest.collections Ingest.with_collections Ingest.with_connected].
  rewrite find_put, put_put. reflexivity.
Qed.

(** [create_collection] replaces the [products] collection by a fresh one *)
Lemma create_collection_run (b : bool) (w : Ingest.Milvus) :
  Ingest.create_collection (Ingest.with_connected b w)
  = (Ingest.with_connected b (with_products fresh_collection w), Ok tt).
Proof.
  unfold Ingest.create_collection.
  assert (Hnew : forall cs,
            Ingest.find_collection Ingest.COLLECTION_NAME cs = None ->
            Ingest.put_collection Ingest.COLLECTION_NAME fresh_collection cs
            = Ingest.put_collection Ingest.COLLECTION_NAME fresh_collection
                (Ingest.collections w) ->
            Ingest.seq (Ingest.new_collection Ingest.COLLECTION_NAME Ingest.fields)
              (fun _ => Ingest.create_index Ingest.COLLECTION_NAME "embedding"
                          Ingest.index_params)
              (Ingest.with_collections cs (Ingest.with_connected b w))
            = (Ingest.with_connected b (with_products fresh_collection w), Ok tt)).
  { intros cs Hnone Hput. unfold Ingest.seq, Ingest.new_collection.
    cbn [Ingest.collections Ingest.with_collections Ingest.with_connected].
    rewrite Hnone. unfold Ingest.create_index, Ingest.update.
    cbn [Ingest.collections Ingest.with_collections Ingest.with_connected
         Ingest.reachable Ingest.connected Ingest.accepts].
    rewrite find_put, put_put.
    cbn [Ingest.schema Ingest.inserted Ingest.flushed Ingest.loaded].
    unfold with_products, Ingest.with_connected, Ingest.with_collections.
    cbn [Ingest.collections Ingest.reachable Ingest.connected Ingest.accepts].
    fold fresh_collection. now rewrite Hput. }
  unfold Ingest.seq at 1. unfold Ingest.has_collection.
  cbn [Ingest.collections Ingest.with_connected].
  destruct (Ingest.find_collection Ingest.COLLECTION_NAME (Ingest.collections w))
    eqn:Hfind.
  - unfold Ingest.seq at 1. unfold Ingest.drop_collection.
    cbn [Ingest.collections Ingest.with_connected].
    apply Hnew; [apply find_remove|apply put_remove].
  - unfold Ingest.seq at 1. unfold Ingest.ret.
    change (Ingest.with_connected b w)
      with (Ingest.with_collections (Ingest.collections w) (Ingest.with_connected b w))
      at 1.
    apply Hnew; [exact Hfind|reflexivity].
Qed.

(** the collection between the insert and [collection.load()] *)
Lemma insert_products_run (products : list pyval) (embeddings : list (list float))
    (b : bool) (w : Ingest.Milvus) :
  Ingest.insert_products products embeddings
    (Ingest.with_connected b (with_products fresh_collection w))
  = match Ingest.columns products embeddings with
    | Raised e => (Ingest.with_connected b (with_products fresh_collection w), Raised e)
    | Ok data =>
        if Ingest.accepts w Ingest.fields data then
          (Ingest.with_connected b
             (with_products
                {| Ingest.schema := Ingest.fields;
                   Ingest.index := Some ("embedding", Ingest.index_params);
                   Ingest.inserted := [data];
                   Ingest.flushed := true;
                   Ingest.loaded := false |} w), Ok tt)
        else (Ingest.with_connected b (with_products fresh_collection w), Raised rejected)
    end.
Proof.
  unfold Ingest.insert_products. rewrite seq_lift.
  destruct (Ingest.columns products embeddings) as [data|e]; [|reflexivity].
  unfold Ingest.seq, Ingest.collection_insert.
  change (Ingest.find_collection Ingest.COLLECTION_NAME
            (Ingest.collections
               (Ingest.with_connected b (with_products fresh_collection w))))
    with (products_collection (with_products fresh_collection w)).
  rewrite products_of_with_products.
  change (Ingest.accepts (Ingest.with_connected b (with_products fresh_collection w))
            (Ingest.schema fresh_collection) data)
    with (Ingest.accepts w Ingest.fields data).
  destruct (Ingest.accepts w Ingest.fields data); [|reflexivity].
  rewrite update_products. unfold Ingest.collection_flush. rewrite update_products.
  reflexivity.
Qed.

(** the whole run, step by step: what it returns and how it leaves the server *)
Lemma main_run (env : Ingest.Environment) (w : Ingest.Milvus) :
  Ingest.main env w
  = if Ingest.reachable w then
      match prepared_data env with
      | Raised e =>
          (Ingest.with_connected true (with_products fresh_collection w), Raised e)
      | Ok data =>
          if Ingest.accepts w Ingest.fields data then
            (Ingest.with_connected false (with_products (loaded_catalog data) w), Ok tt)
          else
            (Ingest.with_connected true (with_products fresh_collection w),
             Raised rejected)
      end
    else (w, Raised unreachable).
Proof.
  unfold Ingest.main.
  destruct (Ingest.reachable w) eqn:Hreach.
  - rewrite (seq_ok _ _ w (Ingest.with_connected true w) tt)
      by (unfold Ingest.connect_to_milvus, Ingest.connections_connect;
          now rewrite Hreach).
    rewrite (seq_ok _ _ _ _ tt (create_collection_run true w)).
    unfold prepared_data. rewrite seq_lift.
    destruct (Ingest.load_products env) as [products|e]; [|reflexivity].
    cbn [bind]. rewrite seq_lift.
    destruct (Ingest.load_model env) as [model|e]; [|reflexivity].
    cbn [bind]. rewrite seq_lift.
    destruct (comprehension (fun p => getitem p "description") products)
      as [descriptions|e]; [|reflexivity].
    cbn [bind]. rewrite seq_lift.
    destruct (Ingest.generate_embeddings descriptions model) as [embeddings|e];
      [|reflexivity].
    cbn [bind]. unfold Ingest.seq at 1. rewrite insert_products_run.
    destruct (Ingest.columns products embeddings) as [data|e]; [|reflexivity].
    destruct (Ingest.accepts w Ingest.fields data); [|reflexivity].
    unfold Ingest.seq, Ingest.collection_load. rewrite update_products.
    reflexivity.
  - apply seq_raised. unfold Ingest.connect_to_milvus, Ingest.connections_connect.
    now rewrite Hreach.
Qed.

Lemma column_complete (f : string) (products : list pyval) :
  In f required_fields ->
  Forall complete_record products ->
  comprehension (fun p => getitem p f) products = Ok (column f products).
Proof.
  intros Hf. induction 1 as [|p products Hp _ IH]; [reflexivity|].
  cbn [comprehension]. rewrite IH. unfold column. cbn [map].
  specialize (Hp f Hf). destruct p as [| | | | | |d]; try (now elim Hp).
  cbn [getitem field] in *. destruct (lookup f d); [reflexivity|now elim Hp].
Qed.

Lemma columns_complete (products : list pyval) (embeddings : list (list float)) :
  Forall complete_record products ->
  Ingest.columns products embeddings = Ok (catalog_columns products embeddings).
Proof.
  intros Hall. unfold Ingest.columns.
  rewrite !column_complete by (trivial; cbn; tauto).
  reflexivity.
Qed.

(** X13: a run over complete records, against a server that can be reached
    and accepts the data, returns and leaves the [products] collection with
    the schema of eight fields, the index on [embedding], and one batch of
    data: the eight columns in the order of the schema, the embeddings being
    those of the descriptions.  The collection is flushed and loaded, and the
    connection is closed. *)
Theorem complete_catalog_is_loaded (env : Ingest.Environment) (w : Ingest.Milvus)
    (products : list pyval) (model : Ingest.Model) (embeddings : list (list float))
    (Hreach : Ingest.reachable w = true)
    (Hfile : Ingest.load_products env = Ok products)
    (Hcomplete : Forall complete_record products)
    (Hmodel : Ingest.load_model env = Ok model)
    (Hencode : Ingest.encode_all model (column "description" products) = Ok embeddings)
    (Haccept : Ingest.accepts w Ingest.fields (catalog_columns products embeddings)
               = true) :
  exists w',
    Ingest.main env w = (w', Ok tt)
    /\ products_collection w'
       = Some (loaded_catalog (catalog_columns products embeddings))
    /\ inserted_data w' = [catalog_columns products embeddings]
    /\ Ingest.connected w' = false.
Proof.
  assert (Hdata : prepared_data env = Ok (catalog_columns products embeddings)).
  { unfold prepared_data. rewrite Hfile, Hmodel. cbn [bind].
    rewrite column_complete by (trivial; cbn; tauto). cbn [bind].
    unfold Ingest.generate_embeddings. rewrite Hencode. cbn [bind].
    now apply columns_complete. }
  eexists. rewrite main_run, Hreach, Hdata, Haccept.
  split; [reflexivity|]. split; [|split; [|reflexivity]].
  - apply (products_of_with_products _ w).
  - unfold inserted_data.
    change (Ingest.find_collection Ingest.COLLECTION_NAME
              (Ingest.collections
                 (Ingest.with_connected false
                    (with_products
                       (loaded_catalog (catalog_columns products embeddings)) w))))
      with (products_collection
              (with_products (loaded_catalog (catalog_columns products embeddings)) w)).
    now rewrite products_of_with_products.
Qed.

Lemma complete_catalog_is_loaded_witness :
  exists w',
    Ingest.main (sample_environment [sample_product 1 true; sample_product 2 true])
      sample_server = (w', Ok tt)
    /\ products_collection w'
       = Some (loaded_catalog
                 (catalog_columns [sample_product 1 true; sample_product 2 true]
                    [[zero; one]; [zero; one]]))
    /\ inserted_data w'
       = [catalog_columns [sample_product 1 true; sample_product 2 true]
            [[zero; one]; [zero; one]]]
    /\ Ingest.connected w' = false.
Proof.
  refine (complete_catalog_is_loaded
            (sample_environment [sample_product 1 true; sample_product 2 true])
            sample_server [sample_product 1 true; sample_product 2 true]
            {| Ingest.encode_all := fun texts => Ok (map (fun _ => [zero; one]) texts) |}
            [[zero; one]; [zero; one]] eq_refl eq_refl _ eq_refl eq_refl eq_refl).
  repeat constructor;
    intros f [<-|[<-|[<-|[<-|[<-|[<-|[<-|[]]]]]]]]; vm_compute; discriminate.
Defined.

(** X14: a run that reaches the server keeps nothing of the catalog that was
    there.  When it returns, the collection holds the new data and nothing
    else; when it raises, at whatever step after the connection (file, model,
    records, embeddings, insert), the collection is left created, indexed and
    empty: the old catalog is dropped before the new one is read. *)
Theorem rebuild_discards_previous_catalog (env : Ingest.Environment)
    (w w' : Ingest.Milvus) (r : result unit)
    (Hreach : Ingest.reachable w = true)
    (Hrun : Ingest.main env w = (w', r)) :
  match r with
  | Ok _ =>
      exists data,
        prepared_data env = Ok data
        /\ Ingest.accepts w Ingest.fields data = true
        /\ products_collection w' = Some (loaded_catalog data)
  | Raised e =>
      products_collection w' = Some fresh_collection
      /\ inserted_data w' = []
      /\ (prepared_data env = Raised e
          \/ exists data, prepared_data env = Ok data
                          /\ Ingest.accepts w Ingest.fields data = false
                          /\ e = rejected)
  end.
Proof.
  rewrite main_run, Hreach in Hrun.
  assert (Hfresh : forall b,
            products_collection
              (Ingest.with_connected b (with_products fresh_collection w))
            = Some fresh_collection
            /\ inserted_data (Ingest.with_connected b (with_products fresh_collection w))
               = []).
  { intros b.
    assert (H : products_collection
                  (Ingest.with_connected b (with_products fresh_collection w))
                = Some fresh_collection) by apply (products_of_with_products _ w).
    split; [exact H|]. unfold inserted_data. unfold products_collection in H.
    now rewrite H. }
  destruct (prepared_data env) as [data|e].
  - destruct (Ingest.accepts w Ingest.fields data) eqn:Ha.
    + injection Hrun as <- <-. exists data. split; [reflexivity|]. split; [exact Ha|].
      apply (products_of_with_products _ w).
    + injection Hrun as <- <-. destruct (Hfresh true) as [H1 H2].
      split; [exact H1|]. split; [exact H2|]. right. exists data. auto.
  - injection Hrun as <- <-. destruct (Hfresh true) as [H1 H2]. auto.
Qed.

Lemma rebuild_discards_previous_catalog_witness :
  inserted_data sample_server <> []
  /\ exists w' e,
       Ingest.main (sample_environment [sample_product 1 true; sample_product 2 false])
         sample_server = (w', Raised e)
       /\ inserted_data w' = [].
Proof.
  split; [discriminate|].
  eexists. eexists. split; [reflexivity|].
  exact (proj1 (proj2 (rebuild_discards_previous_catalog
           (sample_environment [sample_product 1 true; sample_product 2 false])
           sample_server _ (Raised _) eq_refl eq_refl))).
Defined.

(** X15: the connection is closed only by a run that returns.  A run that
    raises after connecting leaves the connection open, and a run that cannot
    connect leaves the server as it was. *)
Theorem connection_closed_only_on_success (env : Ingest.Environment)
    (w w' : Ingest.Milvus) (r : result unit)
    (Hrun : Ingest.main env w = (w', r)) :
  match r with
  | Ok _ => Ingest.reachable w = true /\ Ingest.connected w' = false
  | Raised e =>
      if Ingest.reachable w then Ingest.connected w' = true
      else w' = w /\ e = unreachable
  end.
Proof.
  rewrite main_run in Hrun. destruct (Ingest.reachable w).
  - destruct (prepared_data env) as [data|e].
    + destruct (Ingest.accepts w Ingest.fields data); injection Hrun as <- <-.
      * split; reflexivity.
      * reflexivity.
    + injection Hrun as <- <-. reflexivity.
  - injection Hrun as <- <-. split; reflexivity.
Qed.

Lemma connection_closed_only_on_success_witness :
  exists w',
    Ingest.main (sample_environment [sample_product 1 true]) strict_server
    = (w', Raised rejected)
    /\ Ingest.connected w' = true.
Proof.
  eexists. split; [reflexivity|].
  exact (connection_closed_only_on_success
           (sample_environment [sample_product 1 true]) strict_server _
           (Raised rejected) eq_refl).
Defined.

(** X16: the run touches the [products] collection only: whatever it returns
    or raises, every collection of another name is found afterwards as it was
    before, and the server is as reachable as before. *)
Theorem other_collections_untouched (env : Ingest.Environment)
    (w w' : Ingest.Milvus) (r : result unit) (n : string)
    (Hrun : Ingest.main env w = (w', r))
    (Hother : n <> Ingest.COLLECTION_NAME) :
  Ingest.find_collection n (Ingest.collections w')
  = Ingest.find_collection n (Ingest.collections w)
  /\ Ingest.reachable w' = Ingest.reachable w.
Proof.
  rewrite main_run in Hrun.
  assert (Hframe : forall b c,
            Ingest.find_collection n
              (Ingest.collections (Ingest.with_connected b (with_products c w)))
            = Ingest.find_collection n (Ingest.collections w)).
  { intros b c. apply (find_with_products_other n c w Hother). }
  destruct (Ingest.reachable w) eqn:Hreach.
  - destruct (prepared_data env) as [data|e].
    + destruct (Ingest.accepts w Ingest.fields data); injection Hrun as <- <-;
        (split; [apply Hframe|exact Hreach]).
    + injection Hrun as <- <-. split; [apply Hframe|exact Hreach].
  - injection Hrun as <- <-. split; [reflexivity|exact Hreach].
Qed.

Lemma other_collections_untouched_witness :
  exists w',
    Ingest.main (sample_environment [sample_product 1 true]) shared_server = (w', Ok tt)
    /\ Ingest.find_collection "orders" (Ingest.collections w')
       = Ingest.find_collection "orders" (Ingest.collections shared_server).
Proof.
  eexists. split; [reflexivity|].
  refine (proj1 (other_collections_untouched
                   (sample_environment [sample_product 1 true]) shared_server _
                   (Ok tt) "orders" eq_refl _)).
  discriminate.
Defined.

(** ** The advertised tool and the search it calls *)

Lemma known_keywords (d : dict) :
  (forall k, In k (map fst d) -> In k McpServer.parameters) ->
  McpServer.unexpected_keyword d = None.
Proof.
  intros Hknown. unfold McpServer.unexpected_keyword.
  destruct (filter _ d) as [|[k v] rest] eqn:Ef; [reflexivity|]. exfalso.
  assert (Hin : In (k, v) (filter (fun kv : string * pyval =>
                   negb (existsb (String.eqb (fst kv)) McpServer.parameters)) d))
    by (rewrite Ef; now left).
  apply filter_In in Hin as [Hd Hu]. cbn [fst] in Hu.
  assert (Hp : In k McpServer.parameters)
    by (apply Hknown, in_map_iff; now exists (k, v)).
  assert (Ht : existsb (String.eqb k) McpServer.parameters = true).
  { apply existsb_exists. exists k. split; [exact Hp|apply String.eqb_refl]. }
  rewrite Ht in Hu. discriminate.
Qed.

(** X17: the input schema that [tools/list] advertises agrees with the
    signature of the search that [tools/call] runs: arguments that use only
    advertised properties and give every required one are bound without a
    [TypeError], and an absent argument takes the value that the schema
    advertises as its default ([None] where it advertises none). *)
Theorem advertised_schema_matches_signature (g : McpServer.Globals) (d : dict)
    (Hprops : forall k, In k (map fst d) -> In k advertised_properties)
    (Hrequired : forall k, In (PStr k) advertised_required -> lookup k d <> None) :
  exists query,
    lookup "query" d = Some query
    /\ McpServer.call_search_products_logic g (PDict d)
       = McpServer.search_products_logic g query
           (dict_get d "top_k" (advertised_default "top_k"))
           (dict_get d "max_price" (advertised_default "max_price"))
           (dict_get d "category" (advertised_default "category"))
           (dict_get d "in_stock_only" (advertised_default "in_stock_only"))
           (dict_get d "brand" (advertised_default "brand")).
Proof.
  assert (Hp : advertised_properties = McpServer.parameters) by reflexivity.
  assert (Hr : advertised_required = [PStr "query"]) by reflexivity.
  rewrite Hp in Hprops. rewrite Hr in Hrequired.
  destruct (lookup "query" d) as [query|] eqn:Hq;
    [|now elim (Hrequired "query" (or_introl eq_refl))].
  exists query. split; [reflexivity|].
  unfold McpServer.call_search_products_logic.
  rewrite (known_keywords d Hprops), Hq. reflexivity.
Qed.

Lemma advertised_schema_matches_signature_witness :
  exists query,
    lookup "query" [("query", PStr "boots"); ("brand", PStr "ActiveGear")] = Some query
    /\ McpServer.call_search_products_logic mcp_no_milvus
         (PDict [("query", PStr "boots"); ("brand", PStr "ActiveGear")])
       = McpServer.search_products_logic mcp_no_milvus query
           (PInt 5) PNone PNone (PBool false) (PStr "ActiveGear").
Proof.
  refine (advertised_schema_matches_signature mcp_no_milvus
            [("query", PStr "boots"); ("brand", PStr "ActiveGear")] _ _).
  - intros k [<-|[<-|[]]]; vm_compute; tauto.
  - intros k [H|[]]. injection H as <-. discriminate.
Defined.

(** ** The filter expression *)

Lemma append_assoc (a b c : string) : (a ++ b) ++ c = a ++ b ++ c.
Proof. induction a as [|x a IH]; cbn; [reflexivity|now rewrite IH]. Qed.

(** X18: the values of [category] and [brand] are put between quotes as they
    are, with no escaping: a category that holds a quote gives the very
    expression of a category filter and a brand filter together, so the
    expression does not tell the two requests apart. *)
Theorem filter_values_are_not_escaped (a b : string)
    (Ha : a <> "") (Hb : b <> "") :
  filter_expr (filter_parts PNone
                 (PStr (a ++ dquote ++ " && brand == " ++ dquote ++ b))
                 (PBool false) PNone)
  = filter_expr (filter_parts PNone (PStr a) (PBool false) (PStr b)).
Proof.
  unfold filter_parts.
  assert (Hab : a ++ dquote ++ " && brand == " ++ dquote ++ b <> "")
    by (destruct a; [now elim Ha|discriminate]).
  cbn [is_none negb truthy app].
  apply String.eqb_neq in Ha, Hb, Hab. rewrite Ha, Hb, Hab.
  cbn [negb app filter_expr join str].
  rewrite !append_assoc. reflexivity.
Qed.

Lemma filter_values_are_not_escaped_witness :
  filter_expr (filter_parts PNone
                 (PStr ("Footwear" ++ dquote ++ " && brand == " ++ dquote ++ "ActiveGear"))
                 (PBool false) PNone)
  = filter_expr (filter_parts PNone (PStr "Footwear") (PBool false) (PStr "ActiveGear")).
Proof.
  apply (filter_values_are_not_escaped "Footwear" "ActiveGear"); discriminate.
Defined.

(** ** Unknown members of the body of the cloud function *)

Lemma dict_get_same (d d' : dict) (k : string) (default : pyval) :
  lookup k d = lookup k d' -> dict_get d k default = dict_get d' k default.
Proof. unfold dict_get. now intros ->. Qed.

(** X19: the cloud function reads six members of the body and ignores every
    other: two JSON objects that agree on [query], [top_k], [max_price],
    [category], [in_stock_only] and [brand] get the same response, where the
    MCP server refuses an argument it does not know. *)
Theorem unknown_members_are_ignored (g : GcpFunction.Globals) (verb : string)
    (d d' : dict)
    (Hsame : same_search_members d d') :
  CloudFunction.search_products_function g
    {| CloudFunction.method := verb; CloudFunction.get_json := PDict d |}
  = CloudFunction.search_products_function g
      {| CloudFunction.method := verb; CloudFunction.get_json := PDict d' |}.
Proof.
  unfold CloudFunction.search_products_function.
  cbn [CloudFunction.method CloudFunction.get_json].
  destruct (verb =? "OPTIONS")%string; [reflexivity|]. cbv zeta.
  assert (Hq : lookup "query" d = lookup "query" d') by (apply Hsame; cbn; tauto).
  assert (Hrun : CloudFunction.run_search g (PDict d)
                 = CloudFunction.run_search g (PDict d')).
  { unfold CloudFunction.run_search. cbn [getitem method_get]. rewrite Hq.
    destruct (lookup "query" d') as [query|]; [|reflexivity]. cbn [bind].
    rewrite (dict_get_same d d' "top_k"), (dict_get_same d d' "max_price"),
      (dict_get_same d d' "category"), (dict_get_same d d' "in_stock_only"),
      (dict_get_same d d' "brand") by (apply Hsame; cbn; tauto).
    reflexivity. }
  destruct d as [|kv rest], d' as [|kv' rest'].
  - reflexivity.
  - cbn [truthy negb CloudFunction.contains]. rewrite <- Hq. reflexivity.
  - cbn [truthy negb CloudFunction.contains]. rewrite Hq. reflexivity.
  - cbn [truthy negb CloudFunction.contains]. rewrite Hq, Hrun. reflexivity.
Qed.

Lemma unknown_members_are_ignored_witness :
  CloudFunction.search_products_function gcp_ready
    (post (PDict [("query", PStr "boots"); ("colour", PStr "red")]))
  = CloudFunction.search_products_function gcp_ready
      (post (PDict [("query", PStr "boots")])).
Proof.
  apply (unknown_members_are_ignored gcp_ready "POST"
           [("query", PStr "boots"); ("colour", PStr "red")]
           [("query", PStr "boots")]).
  intros k [<-|[<-|[<-|[<-|[<-|[<-|[]]]]]]]; reflexivity.
Defined.
